(** * Predictive maintenance of meters: the numeric pipeline

    A shallow embedding of the Python pipeline
    - [equip/spice_runner/run_ngspice.py]  (transient table parser),
    - [equip/emulator/sensor_emulator.py]  (sensor emulation layer),
    - [equip/ingest/unify_logger.py]       (row unifier),
    - [equip/ml/features.py]               (windowed feature extractor),
    - [equip/ml/predict.py]                (the sanitising caller of the extractor),
    and the properties of it that the specification states.

    Conventions of the embedding.
    - A Python [float] and a NumPy [float64] are IEEE binary64 numbers: the
      kernel's primitive [float], on which the operations compute.
    - A Python [str] is a [string]; a character stands for the code point of
      the same number (0..255), which covers the ASCII output of ngspice.
    - A [dict] read as a map is a [gmap]; a JSON [null] next to numbers is the
      [None] of an [option float].
    - A call that raises returns [Raise e]; a call that returns [v] is [Ok v].
    - File input and output (reading the ngspice text, writing the CSV and the
      JSON artifacts, printing) is left out: each function is the pure core
      between the file it loads and the file it writes. *)

From Stdlib Require Import ZArith List String Ascii Bool Lia.
From Stdlib Require Import PrimFloat SpecFloat FloatOps Uint63.
From stdpp Require Import gmap strings list sorting.

Set Warnings "-inexact-float".
#[local] Open Scope string_scope.
#[local] Open Scope list_scope.
#[local] Open Scope nat_scope.

(* ===================================================================== *)
(** * Python values, errors and builtins *)
(* ===================================================================== *)

Module Py.

(** The exceptions the modelled code can raise. *)
Inductive py_error : Set :=
| ValueError
| RuntimeError
| KeyError
| TypeError
| IndexError.

(** The outcome of a call: a value, or an exception that propagates. *)
Inductive result (A : Type) : Type :=
| Ok (a : A)
| Raise (e : py_error).
#[global] Arguments Ok {A} a.
#[global] Arguments Raise {A} e.

#[global] Instance result_ret : MRet result := fun A a => Ok a.
#[global] Instance result_bind : MBind result := fun A B f r =>
  match r with
  | Ok a => f a
  | Raise e => Raise e
  end.

Definition is_Ok {A} (r : result A) : Prop := exists a, r = Ok a.

(** ** Characters *)

Definition code (c : ascii) : N := N_of_ascii c.

(** [str.isspace] on one character, also the class [\s] of [re] on [str]
    patterns: the code points below 256 that Unicode calls whitespace. *)
Definition isspace (c : ascii) : bool :=
  let n := code c in
  ((9 <=? n) && (n <=? 13) || (28 <=? n) && (n <=? 31)
   || (n =? 32) || (n =? 133) || (n =? 160))%N.

(** The line boundaries of [str.splitlines] below 256, the carriage return
    apart (it is handled with the line feed that may follow it). *)
Definition is_linebreak (c : ascii) : bool :=
  let n := code c in
  ((n =? 10) || (n =? 11) || (n =? 12) || (28 <=? n) && (n <=? 30) || (n =? 133))%N.

Definition is_cr (c : ascii) : bool := (code c =? 13)%N.
Definition is_lf (c : ascii) : bool := (code c =? 10)%N.

Definition is_digit (c : ascii) : bool :=
  let n := code c in ((48 <=? n) && (n <=? 57))%N.

Definition digit_value (c : ascii) : Z := Z.of_N (code c) - 48.

(** ASCII lower case of a letter, other characters unchanged. *)
Definition lower (c : ascii) : ascii :=
  let n := code c in
  if ((65 <=? n) && (n <=? 90))%N then ascii_of_N (n + 32) else c.

(** ** Strings *)

Definition is_empty (s : string) : bool :=
  match s with
  | EmptyString => true
  | String _ _ => false
  end.

Definition snoc (s : string) (c : ascii) : string := s +:+ String c EmptyString.

Fixpoint lstrip (s : string) : string :=
  match s with
  | String c r => if isspace c then lstrip r else s
  | EmptyString => EmptyString
  end.

(** [rstrip] keeps a character when it is not a space or when something is
    kept after it. *)
Fixpoint rstrip (s : string) : string :=
  match s with
  | String c r =>
      let r' := rstrip r in
      if isspace c && is_empty r' then EmptyString else String c r'
  | EmptyString => EmptyString
  end.

(** [s.strip()] *)
Definition strip (s : string) : string := rstrip (lstrip s).

(** [s.startswith(p)] *)
Definition startswith (p s : string) : bool := String.prefix p s.

(** [p in s] for strings: [p] occurs in [s] as a substring. *)
Fixpoint contains (p s : string) : bool :=
  String.prefix p s ||
  match s with
  | String _ r => contains p r
  | EmptyString => false
  end.

(** [s.replace(a, b)] for single characters [a] and [b]. *)
Fixpoint replace_char (a b : ascii) (s : string) : string :=
  match s with
  | String c r => String (if Ascii.eqb c a then b else c) (replace_char a b r)
  | EmptyString => EmptyString
  end.

Fixpoint lower_string (s : string) : string :=
  match s with
  | String c r => String (lower c) (lower_string r)
  | EmptyString => EmptyString
  end.

(** [s.splitlines()]: [cur] is the line read so far. A boundary closes the
    line (also an empty one); the end of the text closes a line only when it
    is not empty; a carriage return and a line feed after it are one
    boundary. *)
Fixpoint splitlines_from (cur : string) (s : string) : list string :=
  match s with
  | EmptyString => if is_empty cur then [] else [cur]
  | String c r =>
      if is_cr c then
        match r with
        | String c' r' =>
            if is_lf c' then cur :: splitlines_from EmptyString r'
            else cur :: splitlines_from EmptyString r
        | EmptyString => [cur]
        end
      else if is_linebreak c then cur :: splitlines_from EmptyString r
      else splitlines_from (snoc cur c) r
  end.

Definition splitlines (s : string) : list string := splitlines_from EmptyString s.

(** [re.split(r'\s+', s)]: the fields between maximal runs of whitespace,
    an empty field before a leading run and after a trailing one, and the
    one empty field of the empty string. [cur] is the field read so far and
    [in_run] says that the previous character was whitespace. *)
Fixpoint re_split_from (cur : string) (in_run : bool) (s : string) : list string :=
  match s with
  | EmptyString => [cur]
  | String c r =>
      if isspace c then
        if in_run then re_split_from cur true r
        else cur :: re_split_from EmptyString true r
      else re_split_from (snoc cur c) false r
  end.

Definition re_split_ws (s : string) : list string := re_split_from EmptyString false s.

(** ** [float(s)] on a string

    The builtin strips whitespace, accepts underscores between digits only,
    then reads an optional sign followed by [inf], [infinity] or [nan] in any
    case, or by a decimal number: digits with at most one point and at least
    one digit, and an optional exponent [e] or [E] with an optional sign and
    at least one digit. Anything else is a [ValueError]. The value is the
    binary64 number nearest to the decimal one (ties to even), an infinity
    when it is too large. *)

(** Underscores: each one stands after a digit and before a digit. [prev] is
    the previous character (the null character at the start). *)
Fixpoint drop_underscores (prev : ascii) (s : string) : option string :=
  match s with
  | EmptyString => if Ascii.eqb prev "_" then None else Some EmptyString
  | String c r =>
      if Ascii.eqb c "_" then
        if is_digit prev then drop_underscores c r else None
      else if Ascii.eqb prev "_" && negb (is_digit c) then None
      else String c <$> drop_underscores c r
  end.

(** The longest prefix of digits, and the rest. *)
Fixpoint span_digits (s : string) : string * string :=
  match s with
  | String c r =>
      if is_digit c then
        let '(d, t) := span_digits r in (String c d, t)
      else (EmptyString, s)
  | EmptyString => (EmptyString, EmptyString)
  end.

Fixpoint digits_value_from (acc : Z) (d : string) : Z :=
  match d with
  | String c r => digits_value_from (10 * acc + digit_value c) r
  | EmptyString => acc
  end.

Definition digits_value (d : string) : Z := digits_value_from 0 d.

Definition split_sign (s : string) : bool * string :=
  match s with
  | String "-" r => (true, r)
  | String "+" r => (false, r)
  | _ => (false, s)
  end.

(** What follows the mantissa: nothing, or a whole exponent. *)
Definition parse_exponent (s : string) : option Z :=
  match s with
  | EmptyString => Some 0%Z
  | String c r =>
      if Ascii.eqb (lower c) "e" then
        let '(neg, r1) := split_sign r in
        let '(d, t) := span_digits r1 in
        if negb (is_empty d) && is_empty t
        then Some (if neg then - digits_value d else digits_value d)%Z
        else None
      else None
  end.

(** An unsigned decimal number as [(m, e)], standing for [m * 10^e]. *)
Definition parse_decimal (s : string) : option (Z * Z) :=
  let '(ip, r) := span_digits s in
  let '(fp, r') :=
    match r with
    | String "." r1 => span_digits r1
    | _ => (EmptyString, r)
    end in
  if is_empty ip && is_empty fp then None
  else
    e ← parse_exponent r';
    Some (digits_value (ip +:+ fp), e - Z.of_nat (String.length fp))%Z.

(** The binary64 number nearest to [m * 10^e], for [0 <= m]. Beyond
    [10^400] the value is an infinity and below [10^-400] it is zero, which
    keeps the powers of ten small; between the two the quotient is computed
    with 64 bits more than its divisor and a last bit that says whether the
    division left a remainder, so that rounding sees an exact tie. *)
Definition decimal_to_float (m e : Z) : float :=
  if (m =? 0)%Z then zero
  else if (400 <? e)%Z then infinity
  else if (e + Z.log2 m + 1 <? -400)%Z then zero
  else if (0 <=? e)%Z then SF2Prim (binary_normalize prec emax (m * 10 ^ e) 0 false)
  else
    let d := (10 ^ (- e))%Z in
    let k := (Z.log2 d + 64)%Z in
    let q := (m * 2 ^ k / d)%Z in
    let sticky := if (m * 2 ^ k mod d =? 0)%Z then 0%Z else 1%Z in
    SF2Prim (binary_normalize prec emax (2 * q + sticky) (- k - 1) false).

Definition parse_abs_float (s : string) : option float :=
  let l := lower_string s in
  if String.eqb l "inf" || String.eqb l "infinity" then Some infinity
  else if String.eqb l "nan" then Some nan
  else '(m, e) ← parse_decimal s; Some (decimal_to_float m e).

(** [float(s)]: [None] stands for the [ValueError]. *)
Definition float_of_str (s : string) : option float :=
  s1 ← drop_underscores "000"%char (strip s);
  let '(neg, r) := split_sign s1 in
  x ← parse_abs_float r;
  Some (if neg then PrimFloat.opp x else x).

(** ** [range] and slices *)

(** [range(start, stop, step)] as the list of its values; a zero step is a
    [ValueError]. *)
Definition py_range (start stop step : Z) : result (list Z) :=
  if (step =? 0)%Z then Raise ValueError
  else
    let count :=
      if (0 <? step)%Z then ((stop - start + step - 1) / step)%Z
      else ((start - stop - step - 1) / (- step))%Z in
    Ok ((fun i => (start + Z.of_nat i * step)%Z) <$> seq 0 (Z.to_nat count)).

(** A slice bound brought into [0 .. len]: a negative one counts from the
    end. *)
Definition clamp_index (len i : Z) : Z :=
  if (i <? 0)%Z then Z.max 0 (i + len) else Z.min i len.

(** [l[lo:hi]] *)
Definition py_slice {A} (l : list A) (lo hi : Z) : list A :=
  let len := Z.of_nat (List.length l) in
  let a := clamp_index len lo in
  let b := clamp_index len hi in
  take (Z.to_nat (b - a)) (drop (Z.to_nat a) l).

End Py.

(* ===================================================================== *)
(** * equip/spice_runner/run_ngspice.py *)
(* ===================================================================== *)

Module RunNgspice.
Import Py.

(** The parser's output, [col_data]: the RawTable that is written to
    [simdata.json]. *)
Abbreviation RawTable := (gmap string (list float)).

(** [line.strip().startswith("Index") and "time" in line] *)
Definition is_header_line (line : string) : bool :=
  startswith "Index" (strip line) && contains "time" line.

(** The first loop: the index of the first header line, [None] when the
    loop ends with [header_idx] still [None]. *)
Fixpoint find_header_from (i : nat) (lines : list string) : option nat :=
  match lines with
  | [] => None
  | line :: rest =>
      if is_header_line line then Some i else find_header_from (S i) rest
  end.

Definition find_header (lines : list string) : option nat :=
  find_header_from 0 lines.

(** [re.split(r'\s+', line.strip())] *)
Definition tokens (line : string) : list string := re_split_ws (strip line).

(** The second loop, over [lines[header_idx+1:]]: a blank line and a line
    that starts with [Index] end it ([break]); a line with fewer fields than
    the header is skipped ([continue]); any other line gives its first
    [len(headers)] fields. [nh] is [len(headers)]. *)
Fixpoint read_data_lines (nh : nat) (lines : list string) : list (list string) :=
  match lines with
  | [] => []
  | line :: rest =>
      if is_empty (strip line) then []
      else if startswith "Index" (strip line) then []
      else
        let parts := tokens line in
        if List.length parts <? nh then read_data_lines nh rest
        else take nh parts :: read_data_lines nh rest
  end.

(** [{h: [] for h in headers}] *)
Definition empty_columns (headers : list string) : RawTable :=
  foldl (fun m h => <[h := []]> m) ∅ headers.

(** [float(v.replace("D", "E"))] *)
Definition to_float (v : string) : option float :=
  float_of_str (replace_char "D" "E" v).

(** [col_data[h].append(float(v.replace("D", "E")))]: the column is looked
    up first, then the field is converted. *)
Definition append_value (col_data : RawTable) (h v : string) : result RawTable :=
  match col_data !! h with
  | None => Raise KeyError
  | Some col =>
      match to_float v with
      | None => Raise ValueError
      | Some x => Ok (<[h := col ++ [x]]> col_data)
      end
  end.

(** [for h, v in zip(headers, row): ...] *)
Fixpoint fill_cells (col_data : RawTable) (cells : list (string * string))
  : result RawTable :=
  match cells with
  | [] => Ok col_data
  | (h, v) :: rest =>
      col_data' ← append_value col_data h v;
      fill_cells col_data' rest
  end.

(** [for row in data_lines: ...] *)
Fixpoint fill_rows (headers : list string) (col_data : RawTable)
    (data_lines : list (list string)) : result RawTable :=
  match data_lines with
  | [] => Ok col_data
  | row :: rest =>
      col_data' ← fill_cells col_data (zip headers row);
      fill_rows headers col_data' rest
  end.

(** The header fields of a text, once the header line is found. *)
Definition headers_of (header_line : string) : list string := tokens header_line.

(** [parse_printed_table], from the text read to the table written. *)
Definition parse_printed_table (txt : string) : result RawTable :=
  let lines := splitlines txt in
  match find_header lines with
  | None => Raise RuntimeError
  | Some header_idx =>
      match lines !! header_idx with
      | None => Raise IndexError
      | Some header_line =>
          let headers := headers_of header_line in
          let data_lines := read_data_lines (List.length headers) (drop (S header_idx) lines) in
          fill_rows headers (empty_columns headers) data_lines
      end
  end.

(** ** What the parser is compared with *)

(** The header fields and the retained rows of a text with a header. *)
Definition header_and_rows (txt : string) : option (list string * list (list string)) :=
  let lines := splitlines txt in
  header_idx ← find_header lines;
  header_line ← lines !! header_idx;
  let headers := headers_of header_line in
  Some (headers, read_data_lines (List.length headers) (drop (S header_idx) lines)).

(** A line that ends the table. *)
Definition is_terminator (line : string) : bool :=
  is_empty (strip line) || startswith "Index" (strip line).

(** The lines of the table: those before the first terminator. *)
Fixpoint table_block (lines : list string) : list string :=
  match lines with
  | [] => []
  | line :: rest => if is_terminator line then [] else line :: table_block rest
  end.

(** The lines that follow the header line of a text. *)
Definition lines_after_header (txt : string) : list string :=
  let lines := splitlines txt in
  match find_header lines with
  | Some header_idx => drop (S header_idx) lines
  | None => []
  end.

(** The values of the cells that stand under a column named [h], in the
    order of the cells. *)
Definition cell_values (h : string) (cells : list (string * string)) : list float :=
  omap (fun '(h', v) => if decide (h' = h) then to_float v else None) cells.

(** The values of the fields of one row that stand under a column named
    [h], in column order. *)
Definition row_values (h : string) (headers row : list string) : list float :=
  cell_values h (zip headers row).

(** The same over the rows, row after row. *)
Definition column_values (h : string) (headers : list string)
    (rows : list (list string)) : list float :=
  rows ≫= row_values h headers.

(** How many header fields are [h]. *)
Definition occurrences (h : string) (headers : list string) : nat :=
  List.length (filter (fun h' => h' = h) headers).

(** Every field of every retained row converts. *)
Definition all_convert (rows : list (list string)) : Prop :=
  Forall (Forall (fun v => is_Some (to_float v))) rows.

End RunNgspice.

(* ===================================================================== *)
(** * NumPy on one-dimensional [float64] arrays *)
(* ===================================================================== *)

Module Np.
Import Py.

(** An array is the list of its elements. *)
Abbreviation array := (list float).

(** [float(n)] for a length. *)
Definition of_nat (n : nat) : float := PrimFloat.of_uint63 (Uint63.of_Z (Z.of_nat n)).

(** [np.zeros_like(a)] *)
Definition zeros_like (a : array) : array := (fun _ => zero) <$> a.

(** [np.abs(a)] *)
Definition abs (a : array) : array := PrimFloat.abs <$> a.

(** The eight running sums [r[0..7]] of NumPy's [pairwise_sum]. *)
Record lanes := Lanes { r0 : float; r1 : float; r2 : float; r3 : float;
                        r4 : float; r5 : float; r6 : float; r7 : float }.

(** [for (i = 8; i < n - (n % 8); i += 8) r[j] += a[i + j]]: every whole
    block of eight elements is added to the running sums; what is left,
    fewer than eight elements, is returned with them. *)
Fixpoint add_blocks (r : lanes) (a : array) : lanes * array :=
  match a with
  | x0 :: x1 :: x2 :: x3 :: x4 :: x5 :: x6 :: x7 :: rest =>
      add_blocks (Lanes (r0 r + x0) (r1 r + x1) (r2 r + x2) (r3 r + x3)
                        (r4 r + x4) (r5 r + x5) (r6 r + x6) (r7 r + x7))%float rest
  | _ => (r, a)
  end.

(** [pairwise_sum] on at most 128 elements. Fewer than eight are added
    from the first on (the accumulator starts at a zero, which leaves the
    first element as it is, but for the sign of a zero). From eight on the
    eight running sums are added in pairs,
    [((r0 + r1) + (r2 + r3)) + ((r4 + r5) + (r6 + r7))], and then the
    elements after the last whole block one by one. *)
Definition block_sum (a : array) : float :=
  match a with
  | x0 :: x1 :: x2 :: x3 :: x4 :: x5 :: x6 :: x7 :: rest =>
      let '(r, tail) := add_blocks (Lanes x0 x1 x2 x3 x4 x5 x6 x7) rest in
      foldl PrimFloat.add
        (((r0 r + r1 r) + (r2 r + r3 r)) + ((r4 r + r5 r) + (r6 r + r7 r)))%float tail
  | x :: rest => foldl PrimFloat.add x rest
  | [] => zero
  end.

(** [pairwise_sum]: more than 128 elements are cut in two,
    [n2 = n / 2; n2 -= n2 % 8], and the sums of the two parts added. The
    recursion is on [fuel]; the length of the array is enough of it (see
    [pairwise_sum_fuel] below). *)
Fixpoint pairwise_sum (fuel : nat) (a : array) : float :=
  let n := List.length a in
  if n <=? 128 then block_sum a
  else
    match fuel with
    | 0 => block_sum a
    | S fuel' =>
        let n2 := n / 2 - (n / 2) mod 8 in
        (pairwise_sum fuel' (take n2 a) + pairwise_sum fuel' (drop n2 a))%float
    end.

(** [np.add.reduce] on a contiguous array, as [np.mean] and [np.std] call
    it: NumPy's pairwise summation; zero for the empty array. *)
Definition sum (a : array) : float := pairwise_sum (List.length a) a.

(** [np.mean(a)]: the sum over the length (not a number for the empty
    array, with a warning). *)
Definition mean (a : array) : float := PrimFloat.div (sum a) (of_nat (List.length a)).

(** [np.std(a)]: the root of the mean of the squared deviations. *)
Definition std (a : array) : float :=
  let m := mean a in
  let x := (fun v => PrimFloat.sub v m) <$> a in
  PrimFloat.sqrt (mean ((fun v => PrimFloat.mul v v) <$> x)).

(** The step of [np.maximum.reduce] and [np.minimum.reduce],
    [io1 = (io1 >= in2 || npy_isnan(io1)) ? io1 : in2] and the same with
    [<=]: a not-a-number wins, and of two equal numbers (a zero and a
    negative zero) the one met first is kept. *)
Definition maximum (x y : float) : float :=
  if PrimFloat.leb y x || PrimFloat.is_nan x then x else y.

Definition minimum (x y : float) : float :=
  if PrimFloat.leb x y || PrimFloat.is_nan x then x else y.

(** [np.max(a)] and [np.min(a)]: the empty array has no maximum, and the
    call raises [ValueError]. *)
Definition max (a : array) : result float :=
  match a with
  | [] => Raise ValueError
  | x :: r => Ok (foldl maximum x r)
  end.

Definition min (a : array) : result float :=
  match a with
  | [] => Raise ValueError
  | x :: r => Ok (foldl minimum x r)
  end.

(** [np.sqrt(np.mean(a**2))] *)
Definition rms (a : array) : float :=
  PrimFloat.sqrt (mean ((fun v => PrimFloat.mul v v) <$> a)).

(** [np.isnan(v) or np.isinf(v)] and its negation. *)
Definition non_finite (v : float) : bool := PrimFloat.is_nan v || PrimFloat.is_infinity v.
Definition is_finite (v : float) : bool := negb (non_finite v).

(** [np.random]: the generator is the sequence of the standard normal
    draws still to come; a draw takes the first and leaves the rest. *)
Definition rng := nat -> float.

(** [np.random.randn()] *)
Definition randn1 (g : rng) : float * rng := (g 0, fun n => g (S n)).

(** [np.random.randn(n)] *)
Fixpoint randn (n : nat) (g : rng) : array * rng :=
  match n with
  | 0 => ([], g)
  | S n' =>
      let '(x, g1) := randn1 g in
      let '(xs, g2) := randn n' g1 in
      (x :: xs, g2)
  end.

End Np.

(* ===================================================================== *)
(** * equip/emulator/sensor_emulator.py *)
(* ===================================================================== *)

Module SensorEmulator.
Import Py.

(** [simdata], the RawTable loaded from [simdata.json], and [outdict], the
    SensorFrame written to [sensors.json]. *)
Abbreviation simdata_t := (gmap string (list float)).

(** [emulate_zmpt]: [1.5 + 0.006 * v + 0.01 * randn(len(v))]. The array of
    an absent key is [None], and arithmetic on it is a [TypeError]. *)
Definition emulate_zmpt (simdata : simdata_t) (voltage_node_key : string) (g : Np.rng)
  : result (list float * Np.rng) :=
  match simdata !! voltage_node_key with
  | None => Raise TypeError
  | Some v =>
      let '(noise, g') := Np.randn (List.length v) g in
      Ok (zip_with (fun x e => (1.5 + 0.006 * x + 0.01 * e)%float) v noise, g')
  end.

(** [emulate_acs]: [vcc/2.0 + sensitivity * i + 0.01 * randn(len(i))] with
    the defaults [vcc=3.3] and [sensitivity=0.066]. *)
Definition emulate_acs (simdata : simdata_t) (current_key : string) (g : Np.rng)
  : result (list float * Np.rng) :=
  match simdata !! current_key with
  | None => Raise TypeError
  | Some i =>
      let '(noise, g') := Np.randn (List.length i) g in
      Ok (zip_with (fun x e => (3.3 / 2.0 + 0.066 * x + 0.01 * e)%float) i noise, g')
  end.

(** [emulate_ntc]: a ramp over the time axis when the key is absent, the
    column rescaled around its own mean otherwise; then the divider. *)
Definition emulate_ntc (simdata : simdata_t) (temp_node_key : string)
  : result (list float) :=
  let temps : result (list float) :=
    match simdata !! temp_node_key with
    | None =>
        match simdata !! "time" with
        | None => Raise KeyError
        | Some t => Ok ((fun x => (30.0 + 0.01 * x)%float) <$> t)
        end
    | Some arr =>
        let m := Np.mean arr in
        Ok ((fun x => (25.0 + (x - m) * 5.0)%float) <$> arr)
    end in
  temps ← temps;
  Ok ((fun T => (1.65 + (T - 25.0) * 0.01)%float) <$> (temps : list float)).

(** [np.array(simdata.get(key)) if key in simdata else
    np.zeros_like(np.array(simdata['time']))] *)
Definition column_or_zeros (simdata : simdata_t) (key : string) : result (list float) :=
  match simdata !! key with
  | Some arr => Ok arr
  | None =>
      match simdata !! "time" with
      | None => Raise KeyError
      | Some t => Ok (Np.zeros_like t)
      end
  end.

(** The envelope loop of [emulate_piezo]: [s] is the filter state. *)
Fixpoint envelope (s : float) (env : list float) (g : Np.rng) : list float * Np.rng :=
  match env with
  | [] => ([], g)
  | x :: rest =>
      let s' := (0.05 * x + (1 - 0.05) * s)%float in
      let '(e, g1) := Np.randn1 g in
      let '(out, g2) := envelope s' rest g1 in
      ((s' + 0.005 * e)%float :: out, g2)
  end.

Definition emulate_piezo (simdata : simdata_t) (piezo_key : string) (g : Np.rng)
  : result (list float * Np.rng) :=
  arr ← column_or_zeros simdata piezo_key;
  Ok (envelope 0.0%float (Np.abs arr) g).

(** [emulate_relay]: the column as it is, zeros over the time axis when the
    key is absent. *)
Definition emulate_relay (simdata : simdata_t) (relay_key : string) : result (list float) :=
  column_or_zeros simdata relay_key.

(** The mapping [run_emulator] uses when it is given none. *)
Definition default_mapping : gmap string string :=
  {[ "voltage_node_key" := "V(n_ac)";
     "current_key" := "I(V1)";
     "temp_node_key" := "V(n_therm)";
     "piezo_key" := "V(n_piezo)";
     "relay_key" := "V(n_relay)" ]}.

(** [if mapping is None: mapping = {...}]: the mapping in force. *)
Definition effective_mapping (mapping : option (gmap string string)) : gmap string string :=
  match mapping with
  | None => default_mapping
  | Some m => m
  end.

(** [mapping.get(name) in simdata]: a name the mapping lacks gives [None],
    which is no key of the table. *)
Definition source_present (mapping : gmap string string) (name : string)
    (simdata : simdata_t) : bool :=
  match mapping !! name with
  | Some col => bool_decide (is_Some (simdata !! col))
  | None => false
  end.

(** One of the five statements
    [if mapping.get(name) in simdata: outdict[chan] = emulate(simdata, mapping[name])],
    on the pair of [outdict] and the generator. *)
Definition emulate_channel (simdata : simdata_t) (mapping : gmap string string)
    (name chan : string)
    (emulate : simdata_t -> string -> Np.rng -> result (list float * Np.rng))
    (st : simdata_t * Np.rng) : result (simdata_t * Np.rng) :=
  let '(outdict, g) := st in
  if source_present mapping name simdata then
    match mapping !! name with
    | None => Raise KeyError
    | Some col =>
        '(out, g') ← emulate simdata col g;
        Ok (<[chan := out]> outdict, g')
    end
  else Ok (outdict, g).

(** An emulation that draws no noise leaves the generator as it is. *)
Definition noiseless (f : simdata_t -> string -> result (list float))
  : simdata_t -> string -> Np.rng -> result (list float * Np.rng) :=
  fun simdata key g => out ← f simdata key; Ok (out, g).

(** [run_emulator], from the table loaded to the frame written; [mapping]
    is [None] for the default argument. *)
Definition run_emulator (simdata : simdata_t) (mapping : option (gmap string string))
    (g : Np.rng) : result (simdata_t * Np.rng) :=
  let mapping := effective_mapping mapping in
  let outdict : simdata_t := {[ "time" := default [] (simdata !! "time") ]} in
  st ← emulate_channel simdata mapping "voltage_node_key" "GPIO34" emulate_zmpt (outdict, g);
  st ← emulate_channel simdata mapping "current_key" "GPIO35" emulate_acs st;
  st ← emulate_channel simdata mapping "temp_node_key" "GPIO32" (noiseless emulate_ntc) st;
  st ← emulate_channel simdata mapping "piezo_key" "GPIO33" emulate_piezo st;
  emulate_channel simdata mapping "relay_key" "GPIO26" (noiseless emulate_relay) st.

(** [g'] is the generator [g] after [n] draws. *)
Definition after_draws (n : nat) (g g' : Np.rng) : Prop := forall k, g' k = g (n + k).

(** The samples of the source column of a logical channel: none when the
    channel has no source in the table. *)
Definition source_length (simdata : simdata_t) (mapping : gmap string string)
    (name : string) : nat :=
  match mapping !! name with
  | Some col => match simdata !! col with
                | Some src => List.length src
                | None => 0
                end
  | None => 0
  end.

(** The frame a run leaves, when it leaves one. *)
Definition frame_of (r : result (simdata_t * Np.rng)) : option simdata_t :=
  match r with
  | Ok (outdict, _) => Some outdict
  | Raise _ => None
  end.

(** The five logical channels: the mapping entry and the output key. *)
Definition channels : list (string * string) :=
  [ ("voltage_node_key", "GPIO34"); ("current_key", "GPIO35");
    ("temp_node_key", "GPIO32"); ("piezo_key", "GPIO33"); ("relay_key", "GPIO26") ].

End SensorEmulator.

(* ===================================================================== *)
(** * equip/ingest/unify_logger.py *)
(* ===================================================================== *)

Module UnifyLogger.
Import Py.

(** A record of the unified log: a number or [null] under each key. *)
Abbreviation row_t := (gmap string (option float)).

(** [keys = [k for k in d.keys() if k != "time"]] *)
Definition channel_keys (d : gmap string (list float)) : list string :=
  filter (fun k => k ≠ "time") (fst <$> map_to_list d).

(** The inner loop: [row[k] = float(arr[i]) if i < len(arr) else None]. *)
Fixpoint fill_row (d : gmap string (list float)) (i : nat) (row : row_t)
    (keys : list string) : result row_t :=
  match keys with
  | [] => Ok row
  | k :: rest =>
      match d !! k with
      | None => Raise KeyError
      | Some arr =>
          let cell : result (option float) :=
            if i <? List.length arr then
              match arr !! i with
              | Some v => Ok (Some v)
              | None => Raise IndexError
              end
            else Ok None in
          cell ← cell;
          fill_row d i (<[k := cell]> row) rest
      end
  end.

(** The outer loop [for i in range(len(t))], from index [i] on; [ts] is
    what is left of the time axis. *)
Fixpoint rows_from (d : gmap string (list float)) (keys : list string) (i : nat)
    (ts : list float) : result (list row_t) :=
  match ts with
  | [] => Ok []
  | ti :: rest =>
      row ← fill_row d i {[ "time" := Some ti ]} keys;
      rows ← rows_from d keys (S i) rest;
      Ok (row :: rows)
  end.

(** [unify], from the frame loaded to the rows written. *)
Definition unify (d : gmap string (list float)) : result (list row_t) :=
  match d !! "time" with
  | None => Raise KeyError
  | Some t => rows_from d (channel_keys d) 0 t
  end.

End UnifyLogger.

(* ===================================================================== *)
(** * equip/ml/features.py *)
(* ===================================================================== *)

Module Features.
Import Py.

(** The statistic set of one array, as the items of the dictionary in the
    order they are written. *)
Abbreviation stats_t := (list (string * float)).

(** The key [f"{name}_{k}"] of the statistic [k] of the channel [name]. *)
Definition feature_key (name k : string) : string := name +:+ "_" +:+ k.

Section WithSciPy.

(** [scipy.stats.skew] and [scipy.stats.kurtosis] on a one-dimensional
    array. What they return on a constant array depends on the version of
    SciPy (zero and minus three in older ones, not-a-number in newer
    ones), so the two are left open: every statement below holds for any
    two functions. *)
Variables stats_skew stats_kurtosis : list float -> float.

(** [extract_basic_stats]: the entries are computed in the order of the
    dictionary, and the maximum of an empty array raises. *)
Definition extract_basic_stats (arr : list float) : result stats_t :=
  let mean := Np.mean arr in
  let std := Np.std arr in
  max ← Np.max arr;
  min ← Np.min arr;
  let rms := Np.rms arr in
  let skew := stats_skew arr in
  let kurt := stats_kurtosis arr in
  Ok [ ("mean", mean); ("std", std); ("max", max : float); ("min", min : float);
       ("rms", rms); ("skew", skew); ("kurt", kurt) ].

(** The loop of [windowed_features] over the values of the range. *)
Fixpoint windows_loop (series : list float) (window_size : Z) (starts : list Z)
  : result (list stats_t) :=
  match starts with
  | [] => Ok []
  | start :: rest =>
      st ← extract_basic_stats (py_slice series start (start + window_size));
      X ← windows_loop series window_size rest;
      Ok ((st : stats_t) :: (X : list stats_t))
  end.

(** [windowed_features(series, window_size, step)] *)
Definition windowed_features (series : list float) (window_size step : Z)
  : result (list stats_t) :=
  starts ← py_range 0 (Z.of_nat (List.length series) - window_size + 1) step;
  windows_loop series window_size starts.

(** [for k, v in stats.items(): features[f"{name}_{k}"] = v] *)
Definition add_stats (name : string) (features : gmap string float) (stats : stats_t)
  : gmap string float :=
  foldl (fun f '(k, v) => <[feature_key name k := v]> f) features stats.

(** [for name, arr in signals.items(): ...] *)
Fixpoint features_loop (items : list (string * list float))
    (features : gmap string float) : result (gmap string float) :=
  match items with
  | [] => Ok features
  | (name, arr) :: rest =>
      stats ← extract_basic_stats arr;
      features_loop rest (add_stats name features stats)
  end.

(** [signals_to_feature_vector(signals)] *)
Definition signals_to_feature_vector (signals : gmap string (list float))
  : result (gmap string float) :=
  features_loop (map_to_list signals) ∅.

End WithSciPy.

(** The names of the seven statistics, in the order of the dictionary. *)
Definition stat_names : list string :=
  ["mean"; "std"; "max"; "min"; "rms"; "skew"; "kurt"].

(** The keys of the channels [names]: seven per channel. *)
Definition keys_of (names : list string) : list string :=
  names ≫= fun name => feature_key name <$> stat_names.

(** A key cut at its last underscore: what stands before, and after. *)
Fixpoint split_last (s : string) : option (string * string) :=
  match s with
  | EmptyString => None
  | String c r =>
      match split_last r with
      | Some (a, b) => Some (String c a, b)
      | None => if Ascii.eqb c "_" then Some (EmptyString, r) else None
      end
  end.

(** The window that starts at [s]: the [window_size] samples
    [series[s], ..., series[s + window_size - 1]]. *)
Definition window_at (series : list float) (s window_size : Z) : list float :=
  take (Z.to_nat window_size) (drop (Z.to_nat s) series).

(** The window starts of a series of [len] samples, for a positive step:
    [0], [step], [2 * step], ... as long as a whole window fits. *)
Definition starts_of (len window_size step : Z) : list Z :=
  (fun i => (Z.of_nat i * step)%Z) <$>
  seq 0 (Z.to_nat ((len - window_size + 1 + step - 1) / step)).

End Features.

(* ===================================================================== *)
(** * equip/ml/predict.py *)
(* ===================================================================== *)

Module Predict.
Import Py.

(** [np.nan_to_num(arr, nan=0.0, posinf=0.0, neginf=0.0)] *)
Definition nan_to_num (arr : list float) : list float :=
  (fun v => if Np.non_finite v then zero else v) <$> arr.

Definition signal_map : list (string * string) :=
  [ ("GPIO34", "GPIO34"); ("GPIO35", "GPIO35"); ("GPIO33", "GPIO33") ].

(** The loop over [signal_map]: a channel that is missing or empty is
    skipped, the others are cleaned of non-finite samples. *)
Fixpoint select_signals (u : gmap string (list float)) (items : list (string * string))
    (spice_signals : gmap string (list float)) : gmap string (list float) :=
  match items with
  | [] => spice_signals
  | (k, alias) :: rest =>
      match u !! k with
      | Some arr =>
          if 0 <? List.length arr
          then select_signals u rest (<[alias := nan_to_num arr]> spice_signals)
          else select_signals u rest spice_signals
      | None => select_signals u rest spice_signals
      end
  end.

(** What [sanitize_json] stores for a number. *)
Definition sanitize_value (v : float) : float :=
  if Np.non_finite v then zero else v.

(** [sanitize_json(d)] on a dictionary of numbers: the loop over the items
    stores [0.0] under the key of a value that is not finite. *)
Definition sanitize_json (d : gmap string float) : gmap string float :=
  foldl (fun d' '(k, v) => if Np.non_finite v then <[k := zero]> d' else d')
        d (map_to_list d).

(** What the script keeps of the channel [k] of the frame: nothing when
    the channel is missing or empty, its cleaned samples otherwise. *)
Definition usable (u : gmap string (list float)) (k : string) : option (list float) :=
  match u !! k with
  | Some arr => if 0 <? List.length arr then Some (nan_to_num arr) else None
  | None => None
  end.

Section WithSciPy.

Variables stats_skew stats_kurtosis : list float -> float.

(** The script, from the frame loaded to the features sent. *)
Definition predict_features (u : gmap string (list float)) : result (gmap string float) :=
  let spice_signals := select_signals u signal_map ∅ in
  if decide (spice_signals = ∅) then Raise RuntimeError
  else
    feats ← Features.signals_to_feature_vector stats_skew stats_kurtosis spice_signals;
    Ok (sanitize_json feats).

End WithSciPy.

End Predict.

(* ===================================================================== *)
(** * equip/ml/serve_model.py *)
(* ===================================================================== *)

Module ServeModel.
Import Py.

(** The answer of the service. *)
Record response : Type := { pred : Z; confidence : float }.

(** [sorted(keys)] on strings: increasing order of the code points. *)
Definition py_sorted (keys : list string) : list string := merge_sort String.le keys.

Section WithModel.

(** The model that is loaded: its [feature_names_in_] when it has the
    attribute, the class [model.predict(X)[0]] and the probabilities
    [model.predict_proba(X)] of a row [X]. *)
Variable feature_names_in : option (list string).
Variable model_predict : list float -> Z.
Variable model_predict_proba : list float -> list float.

(** [keys]: the names of the model, or the sorted keys of the payload. *)
Definition feature_order (feat : gmap string float) : list string :=
  match feature_names_in with
  | Some names => names
  | None => py_sorted (fst <$> map_to_list feat)
  end.

(** [[feat.get(k, 0) for k in keys]] *)
Definition feature_row (feat : gmap string float) : list float :=
  (fun k => default zero (feat !! k)) <$> feature_order feat.

(** [predict(payload)]: the maximum of the probabilities raises when there
    is none. *)
Definition predict (feat : gmap string float) : result response :=
  let X := feature_row feat in
  let pred := model_predict X in
  proba ← Np.max (model_predict_proba X);
  Ok {| pred := pred; confidence := proba |}.

End WithModel.

End ServeModel.

(* ===================================================================== *)
(** * equip/ml/generate_dataset.py *)
(* ===================================================================== *)

Module GenerateDataset.
Import Py.

(** A value of a dataset row: a feature, or the integer label. *)
Inductive cell : Type :=
| Feature (v : float)
| Label (n : Z).

(** [int(x)] for a finite [x]: the integer part, towards zero. *)
Definition py_int (x : float) : Z :=
  match Prim2SF x with
  | S754_finite s m e =>
      let n := if (0 <=? e)%Z then (Z.pos m * 2 ^ e)%Z else (Z.pos m / 2 ^ (- e))%Z in
      if s then (- n)%Z else n
  | _ => 0%Z
  end.

(** [np.linspace(start, stop, num)] with the end point: [num] values from
    [start], the last one [stop] itself. *)
Definition linspace (start stop : float) (num : nat) : list float :=
  let div := num - 1 in
  let delta := (stop - start)%float in
  let y := Np.of_nat <$> seq 0 num in
  let y :=
    if 0 <? div then
      let step := (delta / Np.of_nat div)%float in
      if PrimFloat.eqb step zero
      then (fun v => (v / Np.of_nat div * delta)%float) <$> y
      else (fun v => (v * step)%float) <$> y
    else (fun v => (v * delta)%float) <$> y in
  let y := (fun v => (v + start)%float) <$> y in
  if 1 <? num then take (num - 1) y ++ [stop] else y.

(** The default arguments [duration=0.1] and [fs=1000] of the three
    generators, the only ones [make_sample] calls them with, and the time
    axis [t = np.linspace(0, duration, int(duration*fs))] they share. *)
Definition duration : float := 0.1%float.
Definition fs : float := 1000%float.
Definition time_axis : list float :=
  linspace 0%float duration (Z.to_nat (py_int (duration * fs)%float)).

(** [np.pi] *)
Definition pi : float := 0x1.921fb54442d18p+1%float.

(** [a[mask] = v] and [a[mask] += v] for the mask [(t > lo) & (t < hi)]. *)
Definition in_window (lo hi x : float) : bool := PrimFloat.ltb lo x && PrimFloat.ltb x hi.

Definition set_where (lo hi v : float) (t a : list float) : list float :=
  zip_with (fun x y => if in_window lo hi x then v else y) t a.

Definition add_where (lo hi v : float) (t a : list float) : list float :=
  zip_with (fun x y => if in_window lo hi x then (y + v)%float else y) t a.

Section WithLibraries.

(** [np.sin], and the two statistics of SciPy. *)
Variable np_sin : float -> float.
Variables stats_skew stats_kurtosis : list float -> float.

(** [emulate_zmpt()] *)
Definition emulate_zmpt (g : Np.rng) : list float * Np.rng :=
  let t := time_axis in
  let sig := (fun x => (230.0 / PrimFloat.sqrt 2.0 * np_sin (2 * pi * 50 * x))%float) <$> t in
  let '(noise, g') := Np.randn (List.length t) g in
  (zip_with (fun s e => (s + 0.01 * e)%float) sig noise, g').

(** [emulate_acs(fault)] *)
Definition emulate_acs (fault : bool) (g : Np.rng) : list float * Np.rng :=
  let t := time_axis in
  let base := (fun x => (0.2 * np_sin (2 * pi * 50 * x))%float) <$> t in
  let base := if fault then (fun b => (b + 0.5)%float) <$> base else base in
  let spikes := set_where 0.03 0.031 5.0 t (Np.zeros_like t) in
  let '(noise, g') := Np.randn (List.length t) g in
  (zip_with (fun bs e => (bs + 0.02 * e)%float)
            (zip_with (fun b s => (b + s)%float) base spikes) noise, g').

(** [emulate_piezo(spike)] *)
Definition emulate_piezo (spike : bool) (g : Np.rng) : list float * Np.rng :=
  let t := time_axis in
  let '(noise, g') := Np.randn (List.length t) g in
  let s := (fun e => (0.02 * e)%float) <$> noise in
  let s := if spike then add_where 0.06 0.0605 1.5 t s else s in
  (s, g').

(** The label of a fault: [1] for ["acs"], [2] for ["piezo"], [0] for
    [None] and for every other value. *)
Definition label_of (fault : option string) : Z :=
  match fault with
  | Some f => if String.eqb f "acs" then 1 else if String.eqb f "piezo" then 2 else 0
  | None => 0
  end%Z.

(** The signals of one sample: voltage, then current, then envelope. *)
Definition sample_signals (fault : option string) (g : Np.rng)
  : gmap string (list float) * Np.rng :=
  let '(v, g1) := emulate_zmpt g in
  let acs_fault := match fault with Some f => String.eqb f "acs" | None => false end in
  let piezo_fault :=
    match fault with
    | Some f => negb (String.eqb f "acs") && String.eqb f "piezo"
    | None => false
    end in
  let '(i, g2) := emulate_acs acs_fault g1 in
  let '(p, g3) := emulate_piezo piezo_fault g2 in
  (<["GPIO33" := p]> (<["GPIO35" := i]> (<["GPIO34" := v]> ∅)), g3).

(** [make_sample(fault)] *)
Definition make_sample (fault : option string) (g : Np.rng)
  : result (gmap string cell * Np.rng) :=
  let '(signals, g') := sample_signals fault g in
  feats ← Features.signals_to_feature_vector stats_skew stats_kurtosis signals;
  Ok (<["label" := Label (label_of fault)]> (Feature <$> (feats : gmap string float)), g').

(** [for _ in trange(n): rows.append(make_sample(fault))] *)
Fixpoint sample_loop (fault : option string) (n : nat) (rows : list (gmap string cell))
    (g : Np.rng) : result (list (gmap string cell) * Np.rng) :=
  match n with
  | 0 => Ok (rows, g)
  | S n' =>
      '(row, g') ← make_sample fault g;
      sample_loop fault n' (rows ++ [row]) g'
  end.

(** [generate_csv], up to the rows that are written. *)
Definition generate_csv (n_norm n_acs n_piezo : Z) (g : Np.rng)
  : result (list (gmap string cell) * Np.rng) :=
  '(rows, g) ← sample_loop None (Z.to_nat n_norm) [] g;
  '(rows, g) ← sample_loop (Some "acs") (Z.to_nat n_acs) rows g;
  sample_loop (Some "piezo") (Z.to_nat n_piezo) rows g.

End WithLibraries.

End GenerateDataset.

(* ===================================================================== *)
(** * Sample inputs *)
(* ===================================================================== *)

Module Samples.
Import Py.

(** A text from its lines, each closed by a line feed. *)
Definition text_of_lines (ls : list string) : string :=
  foldr (fun l acc => l +:+ String "010" acc) EmptyString ls.

(** A table of two signals: one row in D notation, one short row, one row
    with a field too many, and text after the blank line. *)
Definition table_text : string :=
  text_of_lines
    [ "Circuit: meter front end";
      "Index   time        V(n_ac)     I(V1)";
      "0   0.0     1.5     2.5D+01";
      "1   1e-3    2.5";
      "2   2e-3    3.5     4.5   extra";
      "";
      "Total analysis time: 0.01" ].

(** A table with a field that is no number in its second row. *)
Definition bad_token_text : string :=
  text_of_lines
    [ "Index time V(n_ac)";
      "0 0.0 1.0";
      "1 1e-3 abc";
      "2 2e-3 3.0" ].

(** A table whose header names the column [V] twice. *)
Definition duplicate_header_text : string :=
  text_of_lines
    [ "Index time V V";
      "0 0.0 1.0 2.0";
      "1 0.5 3.0 4.0" ].

(** A text with no header line. *)
Definition no_header_text : string :=
  text_of_lines [ "Circuit: meter front end"; "0 0.0 1.5" ].

(** A generator whose draws are all zero. *)
Definition quiet : Np.rng := fun _ => zero.

(** A table with a time axis and no signal column. *)
Definition time_only : gmap string (list float) :=
  {[ "time" := [0.0; 0.001]%float ]}.

(** A table with the voltage and the relay columns of the default mapping. *)
Definition two_sources : gmap string (list float) :=
  {[ "time" := [0.0; 0.001]%float;
     "V(n_ac)" := [100.0; 200.0]%float;
     "V(n_relay)" := [0.0; 1.0]%float ]}.

(** A frame with a channel shorter than the time axis and an empty one. *)
Definition ragged_frame : gmap string (list float) :=
  {[ "time" := [0.0; 1.0; 2.0]%float;
     "GPIO34" := [5.0; 6.0]%float;
     "GPIO26" := [] ]}.

(** A stand-in for a SciPy statistic where its value plays no part. *)
Definition flat : list float -> float := fun _ => zero.

(** A series of [n] samples: 0, 1, 2, ... *)
Definition ramp (n : nat) : list float := Np.of_nat <$> seq 0 n.

(** One channel with one large, finite sample. *)
Definition large_signal : gmap string (list float) :=
  {[ "GPIO34" := [1e200]%float ]}.

End Samples.

(** A decidable fact about concrete data, by evaluation. *)
Ltac by_evaluation :=
  match goal with
  | |- ?P => apply (bool_decide_unpack P); vm_compute; exact I
  end.

(* ===================================================================== *)
(** * The builtins on examples *)
(* ===================================================================== *)

Module PyExamples.
Import Py.

Example strip_both_sides : strip "  0  1.5 " = "0  1.5".
Proof. reflexivity. Qed.

Example split_runs : re_split_ws "0   1.5  2" = ["0"; "1.5"; "2"].
Proof. reflexivity. Qed.

Example split_empty : re_split_ws "" = [""].
Proof. reflexivity. Qed.

Example splitlines_blank_line :
  splitlines (Samples.text_of_lines ["a"; ""; "b"]) = ["a"; ""; "b"].
Proof. reflexivity. Qed.

Example float_plain : float_of_str "0.5" = Some 0.5%float.
Proof. vm_compute. reflexivity. Qed.

Example float_exponent : float_of_str "1.23E+02" = Some 123%float.
Proof. vm_compute. reflexivity. Qed.

Example float_nearest : float_of_str "0.1" = Some 0x1.999999999999ap-4%float.
Proof. vm_compute. reflexivity. Qed.

Example float_tie_to_even : float_of_str "9007199254740993" = Some 9007199254740992%float.
Proof. vm_compute. reflexivity. Qed.

Example float_overflow : float_of_str "1e400" = Some infinity.
Proof. vm_compute. reflexivity. Qed.

Example float_small : float_of_str "5e-324" = Some 0x1p-1074%float.
Proof. vm_compute. reflexivity. Qed.

Example float_underscore : float_of_str "1_000" = Some 1000%float.
Proof. vm_compute. reflexivity. Qed.

Example float_word : float_of_str "abc" = None.
Proof. vm_compute. reflexivity. Qed.

Example float_lower_d : float_of_str "1d5" = None.
Proof. vm_compute. reflexivity. Qed.

Example float_half_exponent : float_of_str "1e+" = None.
Proof. vm_compute. reflexivity. Qed.

Example range_up : py_range 0 151 50 = Ok [0; 50; 100; 150]%Z.
Proof. reflexivity. Qed.

Example range_down : py_range 5 0 (-2) = Ok [5; 3; 1]%Z.
Proof. reflexivity. Qed.

Example slice_from_end : py_slice [1; 2; 3; 4; 5] (-2) 7 = [4; 5].
Proof. reflexivity. Qed.

End PyExamples.

(* ===================================================================== *)
(** * The summation *)
(* ===================================================================== *)

Module NpProofs.

Lemma pairwise_sum_unfold (fuel : nat) (a : list float) :
  Np.pairwise_sum fuel a =
  if List.length a <=? 128 then Np.block_sum a
  else match fuel with
       | 0 => Np.block_sum a
       | S fuel' =>
           let n2 := List.length a / 2 - (List.length a / 2) mod 8 in
           (Np.pairwise_sum fuel' (take n2 a) + Np.pairwise_sum fuel' (drop n2 a))%float
       end.
Proof. by destruct fuel. Qed.

(** The recursion of [pairwise_sum] ends before the fuel does: with as
    much fuel as the array has elements, more fuel changes nothing. *)
Lemma pairwise_sum_fuel (fuel : nat) : forall fuel' (a : list float),
  List.length a <= fuel -> List.length a <= fuel' ->
  Np.pairwise_sum fuel a = Np.pairwise_sum fuel' a.
Proof.
  induction fuel as [|fuel IH]; intros fuel' a Hf Hf'.
  - rewrite !pairwise_sum_unfold.
    destruct (List.length a <=? 128) eqn:Hn; [done|].
    apply Nat.leb_gt in Hn. lia.
  - rewrite !pairwise_sum_unfold.
    destruct (List.length a <=? 128) eqn:Hn; [done|].
    apply Nat.leb_gt in Hn. destruct fuel' as [|fuel']; [lia|]. cbv zeta.
    set (n2 := List.length a / 2 - (List.length a / 2) mod 8).
    assert (Hhalf : 64 <= List.length a / 2 < List.length a).
    { split; [apply Nat.div_le_lower_bound; lia|apply Nat.div_lt; lia]. }
    assert (Hmod : (List.length a / 2) mod 8 < 8) by (apply Nat.mod_upper_bound; lia).
    assert (Hn2 : 0 < n2 < List.length a) by (unfold n2; lia).
    f_equal; apply IH; rewrite ?length_take, ?length_drop; lia.
Qed.

(** A sum of fewer than eight elements adds them from the first on. *)
Lemma sum_short (x : float) (rest : list float) :
  List.length rest < 7 -> Np.sum (x :: rest) = foldl PrimFloat.add x rest.
Proof.
  intros Hlen. unfold Np.sum. rewrite pairwise_sum_unfold.
  replace (List.length (x :: rest) <=? 128) with true
    by (symmetry; apply Nat.leb_le; cbn; lia).
  do 7 (destruct rest as [|? rest]; [done|]). cbn in Hlen. lia.
Qed.

(** Eight elements are added in pairs. *)
Lemma sum_eight (x0 x1 x2 x3 x4 x5 x6 x7 : float) :
  Np.sum [x0; x1; x2; x3; x4; x5; x6; x7]
  = (((x0 + x1) + (x2 + x3)) + ((x4 + x5) + (x6 + x7)))%float.
Proof. reflexivity. Qed.

Example mean_of_eight_tenths : Np.mean (replicate 8 0.1%float) = 0.1%float.
Proof. vm_compute. reflexivity. Qed.

Example mean_of_seven_tenths :
  Np.mean (replicate 7 0.1%float) = 0.09999999999999999%float.
Proof. vm_compute. reflexivity. Qed.

End NpProofs.

(* ===================================================================== *)
(** * The transient table parser *)
(* ===================================================================== *)

Module ParserProofs.
Import Py RunNgspice.

(** ** The header *)

Lemma find_header_from_bounds (lines : list string) : forall i idx,
  find_header_from i lines = Some idx ->
  i <= idx /\ exists line, lines !! (idx - i) = Some line /\ is_header_line line = true.
Proof.
  induction lines as [|line rest IH]; intros i idx; simpl; [discriminate|].
  destruct (is_header_line line) eqn:Hh.
  - intros [= <-]. split; [lia|]. exists line. by rewrite Nat.sub_diag.
  - intros Hf. destruct (IH _ _ Hf) as (Hle & l & Hl & Hhl).
    split; [lia|]. exists l. split; [|done].
    replace (idx - i) with (S (idx - S i)) by lia. done.
Qed.

Lemma find_header_Some (lines : list string) idx :
  find_header lines = Some idx ->
  exists line, lines !! idx = Some line /\ is_header_line line = true.
Proof.
  intros Hf. destruct (find_header_from_bounds _ _ _ Hf) as (_ & l & Hl & Hh).
  rewrite Nat.sub_0_r in Hl. eauto.
Qed.

Lemma header_and_rows_Some txt :
  is_Some (find_header (splitlines txt)) <-> is_Some (header_and_rows txt).
Proof.
  unfold header_and_rows. split.
  - intros [idx Hidx]. rewrite Hidx. simpl.
    destruct (find_header_Some _ _ Hidx) as (l & -> & _). simpl. eauto.
  - intros [hr Hhr]. destruct (find_header (splitlines txt)); [eauto|done].
Qed.

Lemma header_and_rows_None txt :
  find_header (splitlines txt) = None <-> header_and_rows txt = None.
Proof.
  rewrite !eq_None_not_Some. by rewrite header_and_rows_Some.
Qed.

(** ** The rows that are read *)

Lemma read_data_lines_block nh (lines : list string) :
  read_data_lines nh lines =
  take nh <$> filter (fun parts => nh <= List.length parts) (tokens <$> table_block lines).
Proof.
  induction lines as [|line rest IH]; [done|]. simpl. unfold is_terminator.
  destruct (is_empty (strip line)); [done|]. simpl.
  destruct (startswith "Index" (strip line)); [done|]. simpl.
  rewrite filter_cons. destruct (Nat.ltb_spec (List.length (tokens line)) nh).
  - rewrite decide_False by lia. done.
  - rewrite decide_True by lia. simpl. by rewrite IH.
Qed.

Lemma read_data_lines_length nh (lines : list string) :
  Forall (fun row => List.length row = nh) (read_data_lines nh lines).
Proof.
  induction lines as [|line rest IH]; simpl; [constructor|].
  destruct (is_empty (strip line)); [constructor|].
  destruct (startswith "Index" (strip line)); [constructor|].
  destruct (Nat.ltb_spec (List.length (tokens line)) nh); [done|].
  constructor; [|done]. rewrite length_take. lia.
Qed.

(** ** The columns that are filled *)

Lemma empty_columns_from_lookup (headers : list string) h : forall m : gmap string (list float),
  foldl (fun m h => <[h := []]> m) m headers !! h =
  if decide (h ∈ headers) then Some [] else m !! h.
Proof.
  induction headers as [|h0 rest IH]; intros m.
  - case_decide as Hin; [by apply elem_of_nil in Hin|done].
  - cbn [foldl]. rewrite IH. destruct (decide (h ∈ rest)) as [Hin|Hnin].
    + rewrite decide_True by (by apply list_elem_of_further). done.
    + destruct (decide (h = h0)) as [->|Hne].
      * rewrite decide_True by apply list_elem_of_here. by rewrite lookup_insert_eq.
      * rewrite decide_False by (rewrite elem_of_cons; tauto).
        by rewrite lookup_insert_ne.
Qed.

Lemma empty_columns_lookup (headers : list string) h :
  empty_columns headers !! h = if decide (h ∈ headers) then Some [] else None.
Proof. unfold empty_columns. by rewrite empty_columns_from_lookup, lookup_empty. Qed.

(** The cells are filled: every column gains the values of its cells. *)
Lemma fill_cells_Ok (cells : list (string * string)) : forall col_data : gmap string (list float),
  Forall (fun c => is_Some (col_data !! c.1) /\ is_Some (to_float c.2)) cells ->
  exists col_data', fill_cells col_data cells = Ok col_data' /\
    forall h, col_data' !! h = (fun col => col ++ cell_values h cells) <$> col_data !! h.
Proof.
  induction cells as [|[h0 v0] rest IH]; intros cd Hall.
  - exists cd. split; [done|]. intros h. simpl.
    destruct (cd !! h); simpl; [by rewrite app_nil_r|done].
  - inversion Hall as [|? ? [[col Hcol] [x Hx]] Hrest]; subst.
    cbn [fst snd fill_cells] in *.
    unfold append_value. rewrite Hcol, Hx. cbn [mbind result_bind].
    destruct (IH (<[h0 := col ++ [x]]> cd)) as (cd' & Hfill & Hlook).
    { eapply Forall_impl; [exact Hrest|]. intros [h v] [Hk Hv]. split; [|done].
      cbn [fst snd] in *. destruct (decide (h0 = h)) as [->|Hne].
      - rewrite lookup_insert_eq. eauto.
      - by rewrite lookup_insert_ne. }
    exists cd'. split; [done|]. intros h. rewrite Hlook.
    unfold cell_values. cbn [omap list_omap]. destruct (decide (h0 = h)) as [->|Hne].
    + rewrite lookup_insert_eq, Hcol, Hx. simpl. by rewrite <- app_assoc.
    + by rewrite lookup_insert_ne.
Qed.

(** A cell that does not convert stops the filling. *)
Lemma fill_cells_Raise (cells : list (string * string)) : forall col_data : gmap string (list float),
  Forall (fun c => is_Some (col_data !! c.1)) cells ->
  Exists (fun c => to_float c.2 = None) cells ->
  fill_cells col_data cells = Raise ValueError.
Proof.
  induction cells as [|[h0 v0] rest IH]; intros cd Hkeys Hex.
  - inversion Hex.
  - inversion Hkeys as [|? ? [col Hcol] Hrest]; subst.
    cbn [fst snd fill_cells] in *.
    unfold append_value. rewrite Hcol.
    destruct (to_float v0) as [x|] eqn:Hx; [|done]. cbn [mbind result_bind].
    apply IH.
    + eapply Forall_impl; [exact Hrest|]. intros [h v] Hk. cbn [fst snd] in *.
      destruct (decide (h0 = h)) as [->|Hne].
      * rewrite lookup_insert_eq. eauto.
      * by rewrite lookup_insert_ne.
    + inversion Hex as [? ? Hhd|? ? Htl]; subst; [|done]. cbn [snd] in Hhd. congruence.
Qed.


Lemma convert_or_not (cells : list (string * string)) :
  Forall (fun c => is_Some (to_float c.2)) cells \/
  Exists (fun c => to_float c.2 = None) cells.
Proof.
  induction cells as [|c rest [IH|IH]].
  - left. constructor.
  - destruct (to_float c.2) as [x|] eqn:Hx.
    + left. constructor; [rewrite Hx; eauto|done].
    + right. by constructor.
  - right. by constructor 2.
Qed.

Lemma zip_keys_present (col_data : gmap string (list float)) (headers row : list string) :
  Forall (fun h => is_Some (col_data !! h)) headers ->
  Forall (fun c => is_Some (col_data !! c.1)) (zip headers row).
Proof.
  intros Hkeys. apply Forall_forall. intros [h v] Hin. cbn [fst].
  apply elem_of_zip_l in Hin. by eapply Forall_forall in Hkeys.
Qed.

(** The rows are filled: every column gains its values, row after row. *)
Lemma fill_rows_Ok (headers : list string) (rows : list (list string)) :
  forall col_data : gmap string (list float),
  Forall (fun h => is_Some (col_data !! h)) headers ->
  Forall (fun row => Forall (fun c => is_Some (to_float c.2)) (zip headers row)) rows ->
  exists col_data', fill_rows headers col_data rows = Ok col_data' /\
    forall h, col_data' !! h =
              (fun col => col ++ column_values h headers rows) <$> col_data !! h.
Proof.
  induction rows as [|row rest IH]; intros cd Hkeys Hall.
  - exists cd. split; [done|]. intros h. cbn.
    destruct (cd !! h); cbn; [by rewrite app_nil_r|done].
  - inversion Hall as [|? ? Hrow Hrest]; subst.
    destruct (fill_cells_Ok (zip headers row) cd) as (cd1 & Hfill1 & Hlook1).
    { pose proof (zip_keys_present cd headers row Hkeys) as Hk.
      rewrite Forall_forall in Hk, Hrow. apply Forall_forall. intros c Hc. split; auto. }
    destruct (IH cd1) as (cd' & Hfill & Hlook); [|done|].
    { eapply Forall_impl; [exact Hkeys|]. intros h [col Hcol].
      rewrite Hlook1, Hcol. cbn. eauto. }
    exists cd'. cbn [fill_rows]. rewrite Hfill1. cbn [mbind result_bind].
    split; [done|]. intros h. rewrite Hlook, Hlook1.
    unfold column_values. cbn [mbind list_bind]. fold (row_values h headers row).
    destruct (cd !! h); cbn; [by rewrite <- app_assoc|done].
Qed.

(** A field that does not convert stops the parse. *)
Lemma fill_rows_Raise (headers : list string) (rows : list (list string)) :
  forall col_data : gmap string (list float),
  Forall (fun h => is_Some (col_data !! h)) headers ->
  Exists (fun row => Exists (fun c => to_float c.2 = None) (zip headers row)) rows ->
  fill_rows headers col_data rows = Raise ValueError.
Proof.
  induction rows as [|row rest IH]; intros cd Hkeys Hex; [inversion Hex|].
  cbn [fill_rows].
  destruct (convert_or_not (zip headers row)) as [Hgood|Hbad].
  - destruct (fill_cells_Ok (zip headers row) cd) as (cd1 & -> & Hlook1).
    { pose proof (zip_keys_present cd headers row Hkeys) as Hk.
      rewrite Forall_forall in Hk, Hgood. apply Forall_forall. intros c Hc. split; auto. }
    cbn [mbind result_bind]. apply IH.
    + eapply Forall_impl; [exact Hkeys|]. intros h [col Hcol].
      rewrite Hlook1, Hcol. cbn. eauto.
    + inversion Hex as [? ? Hhd|? ? Htl]; subst; [|done].
      exfalso. apply Exists_exists in Hhd as (c & Hc & Hnone).
      rewrite Forall_forall in Hgood. destruct (Hgood c Hc) as [x Hx]. congruence.
  - rewrite (fill_cells_Raise _ cd); [done| |done].
    by apply zip_keys_present.
Qed.

Lemma zip_fields (Q : string -> Prop) (headers row : list string) :
  List.length row = List.length headers ->
  Forall (fun c : string * string => Q c.2) (zip headers row) <-> Forall Q row.
Proof.
  intros Hlen. rewrite <- (snd_zip headers row) at 2 by lia.
  by rewrite Forall_fmap.
Qed.

Lemma all_convert_zip (headers : list string) (rows : list (list string)) :
  Forall (fun row => List.length row = List.length headers) rows ->
  all_convert rows <->
  Forall (fun row => Forall (fun c => is_Some (to_float c.2)) (zip headers row)) rows.
Proof.
  unfold all_convert. induction 1 as [|row rest Hlen _ IH].
  - split; constructor.
  - rewrite !Forall_cons, IH.
    by rewrite (zip_fields (fun v => is_Some (to_float v)) headers row Hlen).
Qed.

Lemma not_all_convert_zip (headers : list string) (rows : list (list string)) :
  Forall (fun row => List.length row = List.length headers) rows ->
  ~ all_convert rows ->
  Exists (fun row => Exists (fun c => to_float c.2 = None) (zip headers row)) rows.
Proof.
  intros Hlen Hnot. rewrite (all_convert_zip headers rows Hlen) in Hnot.
  clear Hlen. induction rows as [|row rest IH].
  - exfalso. apply Hnot. constructor.
  - destruct (convert_or_not (zip headers row)) as [Hgood|Hbad].
    + constructor 2. apply IH. intros Hrest. apply Hnot. by constructor.
    + by constructor.
Qed.

Lemma header_and_rows_lengths txt headers rows :
  header_and_rows txt = Some (headers, rows) ->
  Forall (fun row => List.length row = List.length headers) rows.
Proof.
  unfold header_and_rows. intros Hhr.
  destruct (find_header (splitlines txt)) as [idx|]; [|done]. cbn in Hhr.
  destruct (splitlines txt !! idx) as [line|]; [|done]. cbn in Hhr.
  injection Hhr as <- <-. apply read_data_lines_length.
Qed.

Lemma parse_unfold txt headers rows :
  header_and_rows txt = Some (headers, rows) ->
  parse_printed_table txt = fill_rows headers (empty_columns headers) rows.
Proof.
  unfold header_and_rows, parse_printed_table. intros Hhr.
  destruct (find_header (splitlines txt)) as [idx|]; [|done]. cbn in Hhr.
  destruct (splitlines txt !! idx) as [line|]; [|done]. cbn in Hhr.
  by injection Hhr as <- <-.
Qed.

Lemma empty_columns_keys (headers : list string) :
  Forall (fun h => is_Some (empty_columns headers !! h)) headers.
Proof.
  apply Forall_forall. intros h Hin. rewrite empty_columns_lookup.
  rewrite decide_True by done. eauto.
Qed.

(** The table of a text with a header whose fields all convert. *)
Lemma parse_Ok txt headers rows :
  header_and_rows txt = Some (headers, rows) ->
  all_convert rows ->
  exists col_data, parse_printed_table txt = Ok col_data /\
    forall h, col_data !! h =
      if decide (h ∈ headers) then Some (column_values h headers rows) else None.
Proof.
  intros Hhr Hall. rewrite (parse_unfold _ _ _ Hhr).
  pose proof (header_and_rows_lengths _ _ _ Hhr) as Hlen.
  destruct (fill_rows_Ok headers rows (empty_columns headers)) as (cd & Hfill & Hlook).
  - apply empty_columns_keys.
  - by apply all_convert_zip.
  - exists cd. split; [done|]. intros h. rewrite Hlook, empty_columns_lookup.
    by case_decide.
Qed.

(** The parse of a text with a header and a field that does not convert. *)
Lemma parse_Raise txt headers rows :
  header_and_rows txt = Some (headers, rows) ->
  ~ all_convert rows ->
  parse_printed_table txt = Raise ValueError.
Proof.
  intros Hhr Hnot. rewrite (parse_unfold _ _ _ Hhr).
  pose proof (header_and_rows_lengths _ _ _ Hhr) as Hlen.
  apply fill_rows_Raise; [apply empty_columns_keys|by apply not_all_convert_zip].
Qed.

Lemma parse_Ok_all_convert txt headers rows col_data :
  header_and_rows txt = Some (headers, rows) ->
  parse_printed_table txt = Ok col_data ->
  all_convert rows.
Proof.
  intros Hhr Hok.
  pose proof (header_and_rows_lengths _ _ _ Hhr) as Hlen.
  apply (all_convert_zip headers rows Hlen).
  apply Forall_forall. intros row Hrow.
  destruct (convert_or_not (zip headers row)) as [Hgood|Hbad]; [done|].
  exfalso. rewrite (parse_unfold _ _ _ Hhr) in Hok.
  rewrite fill_rows_Raise in Hok; [done|apply empty_columns_keys|].
  apply Exists_exists. eauto.
Qed.

(** ** The length of a column *)

Lemma row_values_length h (headers : list string) : forall row : list string,
  List.length row = List.length headers ->
  Forall (fun v => is_Some (to_float v)) row ->
  List.length (row_values h headers row) = occurrences h headers.
Proof.
  unfold row_values, cell_values, occurrences.
  induction headers as [|h0 rest IH]; intros [|v row] Hlen Hall; try done.
  inversion Hall as [|? ? [x Hx] Hrow]; subst.
  cbn [zip zip_with omap list_omap]. rewrite filter_cons.
  injection Hlen as Hlen. specialize (IH row Hlen Hrow).
  case_decide; [rewrite Hx; cbn; by rewrite IH|done].
Qed.

Lemma column_values_length h (headers : list string) (rows : list (list string)) :
  Forall (fun row => List.length row = List.length headers) rows ->
  all_convert rows ->
  List.length (column_values h headers rows) = occurrences h headers * List.length rows.
Proof.
  unfold all_convert, column_values. induction 1 as [|row rest Hlen _ IH]; intros Hall.
  - cbn. lia.
  - inversion Hall; subst. cbn [mbind list_bind]. rewrite length_app.
    rewrite (row_values_length h headers row), IH by done. cbn. lia.
Qed.

Lemma occurrences_absent h (headers : list string) :
  h ∉ headers -> occurrences h headers = 0.
Proof.
  unfold occurrences. induction headers as [|h0 rest IH]; intros Hnin; [done|].
  rewrite filter_cons. rewrite not_elem_of_cons in Hnin. destruct Hnin as [Hne Hnin].
  rewrite decide_False by congruence. auto.
Qed.

Lemma occurrences_NoDup h (headers : list string) :
  NoDup headers -> h ∈ headers -> occurrences h headers = 1.
Proof.
  induction 1 as [|h0 rest Hnin Hnd IH]; intros Hin.
  - by apply elem_of_nil in Hin.
  - unfold occurrences in *. rewrite filter_cons. case_decide as Heq.
    + subst h0. cbn. f_equal. by apply occurrences_absent.
    + apply IH. apply elem_of_cons in Hin as [->|Hin]; done.
Qed.

Lemma parse_no_header txt :
  find_header (splitlines txt) = None ->
  parse_printed_table txt = Raise RuntimeError.
Proof. unfold parse_printed_table. by intros ->. Qed.

Lemma rows_of_block txt headers rows :
  header_and_rows txt = Some (headers, rows) ->
  rows = take (List.length headers) <$>
         filter (fun parts => List.length headers <= List.length parts)
                (tokens <$> table_block (lines_after_header txt)).
Proof.
  unfold header_and_rows, lines_after_header. intros Hhr.
  destruct (find_header (splitlines txt)) as [idx|]; [|done]. cbn in Hhr.
  destruct (splitlines txt !! idx) as [line|]; [|done]. cbn in Hhr.
  injection Hhr as <- <-. apply read_data_lines_block.
Qed.

(** ** The claims on the parser *)

(** C4 (amended). In a text with a header line, the retained rows are the
    lines of the table block with at least as many fields as the header,
    cut to that many fields: a shorter line is dropped without an error.
    When every field of the retained rows converts, the parse returns the
    table of their values; when some field of a retained row does not
    convert after [D] became [E], the row is not dropped: the parse raises
    [ValueError] and returns no table. *)
Theorem C4_short_rows_dropped_bad_field_aborts txt headers rows :
  header_and_rows txt = Some (headers, rows) ->
  rows = take (List.length headers) <$>
         filter (fun parts => List.length headers <= List.length parts)
                (tokens <$> table_block (lines_after_header txt))
  /\ (all_convert rows ->
      exists col_data, parse_printed_table txt = Ok col_data /\
        forall h, h ∈ headers -> col_data !! h = Some (column_values h headers rows))
  /\ (~ all_convert rows -> parse_printed_table txt = Raise ValueError).
Proof.
  intros Hhr. split; [by apply rows_of_block|]. split.
  - intros Hall. destruct (parse_Ok _ _ _ Hhr Hall) as (cd & Hparse & Hlook).
    exists cd. split; [done|]. intros h Hin. rewrite Hlook. by rewrite decide_True.
  - exact (parse_Raise _ _ _ Hhr).
Qed.

(** The sample table: the short row and the text after the blank line are
    left out, the row in [D] notation is read. *)
Lemma C4_sample_table :
  header_and_rows Samples.table_text =
    Some (["Index"; "time"; "V(n_ac)"; "I(V1)"],
          [["0"; "0.0"; "1.5"; "2.5D+01"]; ["2"; "2e-3"; "3.5"; "4.5"]])
  /\ exists col_data,
       parse_printed_table Samples.table_text = Ok col_data /\
       col_data !! "I(V1)" = Some [25.0; 4.5]%float.
Proof.
  assert (Hhr : header_and_rows Samples.table_text =
    Some (["Index"; "time"; "V(n_ac)"; "I(V1)"],
          [["0"; "0.0"; "1.5"; "2.5D+01"]; ["2"; "2e-3"; "3.5"; "4.5"]]))
    by (vm_compute; reflexivity).
  split; [exact Hhr|].
  destruct (C4_short_rows_dropped_bad_field_aborts _ _ _ Hhr) as (_ & Hok & _).
  destruct Hok as (cd & Hparse & Hcols).
  { repeat constructor; vm_compute; eexists; reflexivity. }
  exists cd. split; [exact Hparse|].
  assert (Hin : "I(V1)" ∈ ["Index"; "time"; "V(n_ac)"; "I(V1)"]) by by_evaluation.
  rewrite (Hcols _ Hin). vm_compute. reflexivity.
Defined.

(** C4, as stated, fails: the second row of the sample has the field [abc];
    the parse finds the header and raises, where the claim has the row
    dropped and a table returned. *)
Lemma C4_bad_field_counterexample :
  is_Some (find_header (splitlines Samples.bad_token_text)) /\
  to_float "abc" = None /\
  parse_printed_table Samples.bad_token_text = Raise ValueError.
Proof.
  split; [|split]; vm_compute; [eexists|..]; reflexivity.
Qed.

(** C5 (amended). The table has one entry per distinct header name. The
    entry of a name holds, for each retained row in row order, the values
    of all the fields under that name in column order: a name that stands
    [k] times in the header has [k] values per row. Columns of one name are
    merged under it; they are not kept apart by position. *)
Theorem C5_columns_merged_by_name txt headers rows col_data :
  header_and_rows txt = Some (headers, rows) ->
  parse_printed_table txt = Ok col_data ->
  dom col_data = list_to_set headers /\
  forall h, h ∈ headers ->
    col_data !! h = Some (column_values h headers rows) /\
    List.length (column_values h headers rows) = occurrences h headers * List.length rows.
Proof.
  intros Hhr Hparse.
  pose proof (parse_Ok_all_convert _ _ _ _ Hhr Hparse) as Hall.
  destruct (parse_Ok _ _ _ Hhr Hall) as (cd & Hparse' & Hlook).
  assert (cd = col_data) as -> by congruence.
  split.
  - apply set_eq. intros h. rewrite elem_of_dom, elem_of_list_to_set, Hlook.
    case_decide; split; intros Hx; [done|eauto|by destruct Hx|done].
  - intros h Hin. split.
    + rewrite Hlook. by rewrite decide_True.
    + apply column_values_length; [|done]. by eapply header_and_rows_lengths.
Qed.

Lemma C5_sample_merged :
  exists col_data,
    parse_printed_table Samples.duplicate_header_text = Ok col_data /\
    dom col_data = list_to_set ["Index"; "time"; "V"; "V"] /\
    List.length (column_values "V" ["Index"; "time"; "V"; "V"]
                   [["0"; "0.0"; "1.0"; "2.0"]; ["1"; "0.5"; "3.0"; "4.0"]])
      = occurrences "V" ["Index"; "time"; "V"; "V"] * 2.
Proof.
  assert (Hhr : header_and_rows Samples.duplicate_header_text =
    Some (["Index"; "time"; "V"; "V"],
          [["0"; "0.0"; "1.0"; "2.0"]; ["1"; "0.5"; "3.0"; "4.0"]]))
    by (vm_compute; reflexivity).
  assert (Hparse : parse_printed_table Samples.duplicate_header_text =
    Ok {[ "Index" := [0.0; 1.0]%float;
          "time" := [0.0; 0.5]%float;
          "V" := [1.0; 2.0; 3.0; 4.0]%float ]})
    by (vm_compute; reflexivity).
  destruct (C5_columns_merged_by_name _ _ _ _ Hhr Hparse) as (Hdom & Hcols).
  eexists. split; [exact Hparse|]. split; [exact Hdom|].
  destruct (Hcols "V") as (_ & Hlen); [by_evaluation|]. exact Hlen.
Defined.

(** C5, as stated, fails: the header of the sample has four fields, two of
    them [V]; the table has three entries, and the entry [V] holds the
    values of both columns, interleaved. *)
Lemma C5_duplicate_header_counterexample :
  headers_of "Index time V V" = ["Index"; "time"; "V"; "V"] /\
  parse_printed_table Samples.duplicate_header_text =
    Ok {[ "Index" := [0.0; 1.0]%float;
          "time" := [0.0; 0.5]%float;
          "V" := [1.0; 2.0; 3.0; 4.0]%float ]}.
Proof. split; vm_compute; reflexivity. Qed.

(** C10. In a text whose header fields are pairwise distinct, every column
    of the table the parser returns has as many values as there are
    retained rows. *)
Theorem C10_columns_have_equal_length txt headers rows col_data :
  header_and_rows txt = Some (headers, rows) ->
  NoDup headers ->
  parse_printed_table txt = Ok col_data ->
  forall h col, col_data !! h = Some col -> List.length col = List.length rows.
Proof.
  intros Hhr Hnd Hparse h col Hcol.
  pose proof (parse_Ok_all_convert _ _ _ _ Hhr Hparse) as Hall.
  destruct (parse_Ok _ _ _ Hhr Hall) as (cd & Hparse' & Hlook).
  assert (cd = col_data) as -> by congruence.
  rewrite Hlook in Hcol. case_decide as Hin; [|done]. injection Hcol as <-.
  rewrite column_values_length; [|by eapply header_and_rows_lengths|done].
  rewrite occurrences_NoDup by done. lia.
Qed.

Lemma C10_sample_lengths :
  exists col_data,
    parse_printed_table Samples.table_text = Ok col_data /\
    forall h col, col_data !! h = Some col -> List.length col = 2.
Proof.
  assert (Hhr : header_and_rows Samples.table_text =
    Some (["Index"; "time"; "V(n_ac)"; "I(V1)"],
          [["0"; "0.0"; "1.5"; "2.5D+01"]; ["2"; "2e-3"; "3.5"; "4.5"]]))
    by (vm_compute; reflexivity).
  assert (Hparse : parse_printed_table Samples.table_text =
    Ok {[ "Index" := [0.0; 2.0]%float;
          "time" := [0.0; 0.002]%float;
          "V(n_ac)" := [1.5; 3.5]%float;
          "I(V1)" := [25.0; 4.5]%float ]})
    by (vm_compute; reflexivity).
  eexists. split; [exact Hparse|].
  apply (C10_columns_have_equal_length _ _ _ _ Hhr); [by_evaluation|exact Hparse].
Defined.

End ParserProofs.

(* ===================================================================== *)
(** * The windowed feature extractor *)
(* ===================================================================== *)

Module FeatureProofs.
Import Py Features.

Section WithSciPy.

Variables stats_skew stats_kurtosis : list float -> float.

Local Abbreviation extract_basic_stats := (extract_basic_stats stats_skew stats_kurtosis).
Local Abbreviation windows_loop := (windows_loop stats_skew stats_kurtosis).
Local Abbreviation windowed_features := (windowed_features stats_skew stats_kurtosis).
Local Abbreviation features_loop := (features_loop stats_skew stats_kurtosis).
Local Abbreviation signals_to_feature_vector :=
  (signals_to_feature_vector stats_skew stats_kurtosis).

(** ** The statistics of one array *)

Lemma extract_basic_stats_empty : extract_basic_stats [] = Raise ValueError.
Proof. reflexivity. Qed.

Lemma extract_basic_stats_nonempty (arr : list float) :
  arr <> [] -> exists stats, extract_basic_stats arr = Ok stats.
Proof. destruct arr as [|x r]; [done|]. intros _. eexists. reflexivity. Qed.

(** ** Ranges and slices *)

(** The number of window starts: the [k] with [k * step <= len - window_size]. *)
Lemma range_count (stop step : Z) (k : nat) :
  (0 < step)%Z ->
  k < Z.to_nat ((stop + step - 1) / step) <-> (Z.of_nat k * step < stop)%Z.
Proof.
  intros Hstep. set (q := ((stop + step - 1) / step)%Z).
  assert (Hq : (step * q <= stop + step - 1 < step * (q + 1))%Z).
  { pose proof (Z.div_mod (stop + step - 1) step ltac:(lia)) as Hdm.
    pose proof (Z.mod_pos_bound (stop + step - 1) step Hstep) as Hb.
    fold q in Hdm. lia. }
  split; intros Hk.
  - assert (Z.of_nat k < q)%Z by lia. nia.
  - assert (Z.of_nat k < q)%Z by nia. lia.
Qed.

Lemma py_range_up (stop step : Z) :
  (0 < step)%Z ->
  py_range 0 stop step =
  Ok ((fun i => (Z.of_nat i * step)%Z) <$> seq 0 (Z.to_nat ((stop + step - 1) / step))).
Proof.
  intros Hstep. unfold py_range.
  destruct (Z.eqb_spec step 0); [lia|].
  destruct (Z.ltb_spec 0 step); [|lia].
  rewrite Z.sub_0_r. f_equal.
Qed.

Lemma py_slice_inside {A} (l : list A) (s w : Z) :
  (0 <= s)%Z -> (0 <= w)%Z -> (s + w <= Z.of_nat (List.length l))%Z ->
  py_slice l s (s + w) = take (Z.to_nat w) (drop (Z.to_nat s) l).
Proof.
  intros Hs Hw Hlen. unfold py_slice, clamp_index.
  destruct (Z.ltb_spec s 0); [lia|]. destruct (Z.ltb_spec (s + w) 0); [lia|].
  rewrite !Z.min_l by lia. do 2 f_equal. lia.
Qed.

Lemma window_at_length (series : list float) (s w : Z) :
  (0 <= s)%Z -> (0 <= w)%Z -> (s + w <= Z.of_nat (List.length series))%Z ->
  List.length (window_at series s w) = Z.to_nat w.
Proof.
  intros Hs Hw Hlen. unfold window_at. rewrite length_take, length_drop. lia.
Qed.

Lemma window_at_lookup (series : list float) (s w : Z) (j : nat) :
  j < Z.to_nat w -> window_at series s w !! j = series !! (Z.to_nat s + j).
Proof.
  intros Hj. unfold window_at. rewrite lookup_take_lt by done. by rewrite lookup_drop.
Qed.

(** ** The loop over the window starts *)

Lemma windows_loop_Ok (series : list float) (w : Z) (starts : list Z) :
  (1 <= w)%Z ->
  Forall (fun s => (0 <= s)%Z /\ (s + w <= Z.of_nat (List.length series))%Z) starts ->
  exists X, windows_loop series w starts = Ok X /\
    Forall2 (fun s st => extract_basic_stats (window_at series s w) = Ok st) starts X.
Proof.
  intros Hw. induction 1 as [|s rest [Hs Hlen] _ (X & HX & Hall)].
  - exists []. split; [done|constructor].
  - destruct (extract_basic_stats_nonempty (window_at series s w)) as [st Hst].
    { intros Hnil. apply (f_equal (@List.length _)) in Hnil.
      rewrite window_at_length in Hnil by lia. cbn in Hnil. lia. }
    exists (st :: X). cbn [Features.windows_loop].
    rewrite py_slice_inside by lia. fold (window_at series s w).
    rewrite Hst. cbn [mbind result_bind]. rewrite HX. cbn [mbind result_bind].
    split; [done|]. by constructor.
Qed.

Lemma windowed_features_unfold (series : list float) (w step : Z) :
  (1 <= step)%Z ->
  windowed_features series w step =
  windows_loop series w (starts_of (Z.of_nat (List.length series)) w step).
Proof.
  intros Hstep. unfold Features.windowed_features.
  rewrite py_range_up by lia. reflexivity.
Qed.

Lemma starts_of_lookup (len w step : Z) (i : nat) (s : Z) :
  (1 <= step)%Z ->
  starts_of len w step !! i = Some s <->
  s = (Z.of_nat i * step)%Z /\ (s <= len - w)%Z.
Proof.
  intros Hstep. unfold starts_of. rewrite list_lookup_fmap.
  pose proof (range_count (len - w + 1) step i ltac:(lia)) as Hc.
  destruct (seq 0 _ !! i) as [j|] eqn:Hj; cbn.
  - apply lookup_seq in Hj as [-> Hlt]. cbn. split.
    + intros [= <-]. split; [done|]. lia.
    + intros [-> _]. done.
  - apply lookup_ge_None in Hj. rewrite length_seq in Hj.
    split; [done|]. intros [-> Hle]. lia.
Qed.

Lemma starts_of_elem (len w step s : Z) :
  (1 <= step)%Z ->
  s ∈ starts_of len w step <->
  (0 <= s <= len - w)%Z /\ (step | s)%Z.
Proof.
  intros Hstep. rewrite list_elem_of_lookup. split.
  - intros [i Hi]. apply starts_of_lookup in Hi as [-> Hle]; [|done].
    split; [lia|]. by exists (Z.of_nat i).
  - intros [[H0 Hle] [k ->]]. exists (Z.to_nat k).
    apply starts_of_lookup; [done|]. split; [|done]. f_equal. nia.
Qed.

(** The features of a mapping whose channels are not empty. *)
Lemma features_loop_Ok (items : list (string * list float)) :
  Forall (fun it => it.2 <> []) items ->
  forall features, exists feats, features_loop items features = Ok feats.
Proof.
  induction 1 as [|[name arr] rest Hne _ IH]; intros features.
  - by exists features.
  - cbn [Features.features_loop]. cbn [snd] in Hne.
    destruct (extract_basic_stats_nonempty arr Hne) as [stats ->].
    cbn [mbind result_bind]. apply IH.
Qed.

(** An empty channel stops the loop. *)
Lemma features_loop_Raise (items : list (string * list float)) :
  Exists (fun it => it.2 = []) items ->
  forall features, features_loop items features = Raise ValueError.
Proof.
  induction items as [|[name arr] rest IH]; intros Hex features; [inversion Hex|].
  cbn [Features.features_loop]. destruct arr as [|x r].
  - reflexivity.
  - destruct (extract_basic_stats_nonempty (x :: r)) as [stats ->]; [done|].
    cbn [mbind result_bind]. apply IH.
    inversion Hex as [? ? Hhd|]; subst; [discriminate Hhd|done].
Qed.

Lemma signals_to_feature_vector_Ok (signals : gmap string (list float)) :
  (forall name arr, signals !! name = Some arr -> arr <> []) ->
  exists feats, signals_to_feature_vector signals = Ok feats.
Proof.
  intros Hne. apply features_loop_Ok. apply Forall_forall.
  intros [name arr] Hin. apply elem_of_map_to_list in Hin. cbn. eauto.
Qed.

Lemma signals_to_feature_vector_Raise (signals : gmap string (list float)) name :
  signals !! name = Some [] ->
  signals_to_feature_vector signals = Raise ValueError.
Proof.
  intros Hin. apply features_loop_Raise. apply Exists_exists.
  exists (name, []). split; [|done]. by apply elem_of_map_to_list.
Qed.

Lemma signals_to_feature_vector_empty :
  signals_to_feature_vector ∅ = Ok ∅.
Proof. unfold Features.signals_to_feature_vector. by rewrite map_to_list_empty. Qed.

(** ** The claims on the windows *)

(** C3. For a window size and a step of at least one, the windowed
    extractor returns one statistic set per window start, in the order of
    the starts. The starts are the multiples [s] of the step with
    [0 <= s <= len(series) - window_size], the [i]-th of them being
    [i * step]; the set of the start [s] is the one of the [window_size]
    samples from [series[s]] on. A series shorter than the window gives the
    empty sequence, with no error. *)
Theorem C3_one_statistic_set_per_window (series : list float) (w step : Z) :
  (1 <= w)%Z -> (1 <= step)%Z ->
  exists starts X,
    windowed_features series w step = Ok X /\
    Forall2 (fun s st => extract_basic_stats (window_at series s w) = Ok st) starts X /\
    (forall s, s ∈ starts <->
       (0 <= s <= Z.of_nat (List.length series) - w)%Z /\ (step | s)%Z) /\
    (forall i s, starts !! i = Some s -> s = (Z.of_nat i * step)%Z) /\
    (forall s, s ∈ starts -> List.length (window_at series s w) = Z.to_nat w) /\
    ((Z.of_nat (List.length series) < w)%Z -> X = []).
Proof.
  intros Hw Hstep. set (len := Z.of_nat (List.length series)).
  destruct (windows_loop_Ok series w (starts_of len w step) Hw) as (X & HX & Hall).
  { apply Forall_forall. intros s Hs. apply starts_of_elem in Hs; [|done]. lia. }
  exists (starts_of len w step), X.
  split; [by rewrite windowed_features_unfold|]. split; [done|].
  split; [intros s; by apply starts_of_elem|].
  split; [intros i s Hi; by apply starts_of_lookup in Hi as [-> _]|].
  split.
  - intros s Hs. apply starts_of_elem in Hs; [|done].
    apply window_at_length; lia.
  - intros Hshort. destruct (starts_of len w step) as [|s rest] eqn:Hst.
    + by inversion Hall.
    + exfalso. assert (Hs : s ∈ starts_of len w step) by (rewrite Hst; left).
      apply starts_of_elem in Hs; [|done]. lia.
Qed.

(** C2 (amended). With a window of 100 and a step of 50, a series of 250
    samples gives exactly four windows, of starts 0, 50, 100 and 150 (the
    last one ends with the series); a series of 90 samples gives none. *)
Theorem C2_default_windows (series : list float) :
  (List.length series = 250 ->
   exists w0 w1 w2 w3,
     windowed_features series 100 50 = Ok [w0; w1; w2; w3] /\
     extract_basic_stats (window_at series 0 100) = Ok w0 /\
     extract_basic_stats (window_at series 50 100) = Ok w1 /\
     extract_basic_stats (window_at series 100 100) = Ok w2 /\
     extract_basic_stats (window_at series 150 100) = Ok w3) /\
  (List.length series = 90 -> windowed_features series 100 50 = Ok []).
Proof.
  split; intros Hlen; rewrite windowed_features_unfold by lia; rewrite Hlen.
  - change (starts_of (Z.of_nat 250) 100 50) with [0; 50; 100; 150]%Z.
    destruct (windows_loop_Ok series 100 [0; 50; 100; 150]%Z) as (X & HX & Hall);
      [lia|repeat constructor; lia|].
    inversion Hall as [|? w0 ? ? H0 Hall1]; subst.
    inversion Hall1 as [|? w1 ? ? H1 Hall2]; subst.
    inversion Hall2 as [|? w2 ? ? H2 Hall3]; subst.
    inversion Hall3 as [|? w3 ? ? H3 Hall4]; subst.
    inversion Hall4; subst. exists w0, w1, w2, w3. done.
  - reflexivity.
Qed.

End WithSciPy.

(** A series of four samples, windows of two, step one: three windows. *)
Lemma C3_sample_windows :
  exists starts X,
    windowed_features Samples.flat Samples.flat (Samples.ramp 4) 2 1 = Ok X /\
    Forall2 (fun s st =>
      extract_basic_stats Samples.flat Samples.flat (window_at (Samples.ramp 4) s 2) = Ok st)
      starts X /\
    (forall s, s ∈ starts <->
       (0 <= s <= Z.of_nat (List.length (Samples.ramp 4)) - 2)%Z /\ (1 | s)%Z) /\
    (forall i s, starts !! i = Some s -> s = (Z.of_nat i * 1)%Z) /\
    (forall s, s ∈ starts -> List.length (window_at (Samples.ramp 4) s 2) = Z.to_nat 2) /\
    ((Z.of_nat (List.length (Samples.ramp 4)) < 2)%Z -> X = []).
Proof.
  apply (C3_one_statistic_set_per_window Samples.flat Samples.flat (Samples.ramp 4) 2 1); lia.
Defined.

(** The series of 250 and of 90 samples of the claim. *)
Lemma C2_sample_windows :
  (exists w0 w1 w2 w3,
     windowed_features Samples.flat Samples.flat (Samples.ramp 250) 100 50
       = Ok [w0; w1; w2; w3] /\
     extract_basic_stats Samples.flat Samples.flat (window_at (Samples.ramp 250) 0 100) = Ok w0 /\
     extract_basic_stats Samples.flat Samples.flat (window_at (Samples.ramp 250) 50 100) = Ok w1 /\
     extract_basic_stats Samples.flat Samples.flat (window_at (Samples.ramp 250) 100 100) = Ok w2 /\
     extract_basic_stats Samples.flat Samples.flat (window_at (Samples.ramp 250) 150 100) = Ok w3)
  /\ windowed_features Samples.flat Samples.flat (Samples.ramp 90) 100 50 = Ok [].
Proof.
  split.
  - apply (C2_default_windows Samples.flat Samples.flat (Samples.ramp 250)).
    vm_compute. reflexivity.
  - apply (C2_default_windows Samples.flat Samples.flat (Samples.ramp 90)).
    vm_compute. reflexivity.
Defined.

(** C2, as stated, fails: the series of 250 samples gives four windows,
    not three; the fourth starts at 150. *)
Lemma C2_fourth_window_counterexample :
  exists X,
    windowed_features Samples.flat Samples.flat (Samples.ramp 250) 100 50 = Ok X /\
    List.length X = 4 /\
    py_range 0 (250 - 100 + 1) 50 = Ok [0; 50; 100; 150]%Z.
Proof.
  eexists. split; [vm_compute; reflexivity|]. split; vm_compute; reflexivity.
Qed.

End FeatureProofs.

(* ===================================================================== *)
(** * The keys of the feature vector *)
(* ===================================================================== *)

Module KeyProofs.
Import Py Features.

Lemma split_last_cons (c : ascii) (r : string) :
  split_last (String c r) =
  match split_last r with
  | Some (a, b) => Some (String c a, b)
  | None => if Ascii.eqb c "_" then Some (EmptyString, r) else None
  end.
Proof. reflexivity. Qed.

Lemma split_last_key (name k : string) :
  split_last k = None -> split_last (feature_key name k) = Some (name, k).
Proof.
  intros Hk. unfold feature_key. induction name as [|c name IH].
  - change (EmptyString +:+ "_" +:+ k) with (String "_" k).
    by rewrite split_last_cons, Hk.
  - change (String c name +:+ "_" +:+ k) with (String c (name +:+ "_" +:+ k)).
    by rewrite split_last_cons, IH.
Qed.

Lemma stat_names_plain (k : string) : k ∈ stat_names -> split_last k = None.
Proof.
  unfold stat_names. intros Hk.
  repeat (apply elem_of_cons in Hk as [->|Hk]; [reflexivity|]).
  by apply elem_of_nil in Hk.
Qed.

(** Two keys are equal only for the same channel and the same statistic:
    no statistic name has an underscore. *)
Lemma feature_key_inj (name name' k k' : string) :
  k ∈ stat_names -> k' ∈ stat_names ->
  feature_key name k = feature_key name' k' -> name = name' /\ k = k'.
Proof.
  intros Hk Hk' Heq. apply (f_equal split_last) in Heq.
  rewrite !split_last_key in Heq by by apply stat_names_plain.
  by injection Heq.
Qed.

Lemma add_stats_other (name : string) (stats : stats_t) (key : string) :
  forall features : gmap string float,
  (forall k, k ∈ stats.*1 -> feature_key name k <> key) ->
  add_stats name features stats !! key = features !! key.
Proof.
  unfold add_stats. induction stats as [|[k0 v0] rest IH]; intros f Hne; [done|].
  cbn [foldl]. rewrite IH.
  - apply lookup_insert_ne. apply (Hne k0). cbn. left.
  - intros k Hk. apply Hne. cbn. by right.
Qed.

Lemma add_stats_own (name : string) (stats : stats_t) (k : string) (v : float) :
  forall features : gmap string float,
  NoDup stats.*1 -> (forall k', k' ∈ stats.*1 -> k' ∈ stat_names) ->
  (k, v) ∈ stats ->
  add_stats name features stats !! feature_key name k = Some v.
Proof.
  induction stats as [|[k0 v0] rest IH]; intros f Hnd Hnames Hin.
  - by apply elem_of_nil in Hin.
  - cbn in Hnd. apply NoDup_cons in Hnd as [Hk0 Hnd].
    apply elem_of_cons in Hin as [[= -> ->]|Hin].
    + change (add_stats name f ((k0, v0) :: rest))
        with (add_stats name (<[feature_key name k0 := v0]> f) rest).
      rewrite add_stats_other; [by rewrite lookup_insert_eq|].
      intros k' Hk' Heq. apply feature_key_inj in Heq as [_ ->].
      * done.
      * apply Hnames. cbn. by right.
      * apply Hnames. cbn. left.
    + change (add_stats name f ((k0, v0) :: rest))
        with (add_stats name (<[feature_key name k0 := v0]> f) rest).
      apply IH; [done| |done]. intros k' Hk'. apply Hnames. cbn. by right.
Qed.

Lemma add_stats_from (name : string) (stats : stats_t) (key : string) (v : float) :
  forall features : gmap string float,
  add_stats name features stats !! key = Some v ->
  features !! key = Some v \/ exists k, (k, v) ∈ stats /\ key = feature_key name k.
Proof.
  induction stats as [|[k0 v0] rest IH]; intros f Hlook; [by left|].
  change (add_stats name f ((k0, v0) :: rest))
    with (add_stats name (<[feature_key name k0 := v0]> f) rest) in Hlook.
  apply IH in Hlook as [Hlook|(k & Hk & ->)].
  - destruct (decide (feature_key name k0 = key)) as [<-|Hne].
    + rewrite lookup_insert_eq in Hlook. injection Hlook as <-.
      right. exists k0. split; [left|done].
    + rewrite lookup_insert_ne in Hlook by done. by left.
  - right. exists k. split; [by right|done].
Qed.

Section WithSciPy.

Variables stats_skew stats_kurtosis : list float -> float.

Local Abbreviation extract_basic_stats := (extract_basic_stats stats_skew stats_kurtosis).
Local Abbreviation features_loop := (features_loop stats_skew stats_kurtosis).
Local Abbreviation signals_to_feature_vector :=
  (signals_to_feature_vector stats_skew stats_kurtosis).

Lemma extract_basic_stats_names (arr : list float) stats :
  extract_basic_stats arr = Ok stats -> stats.*1 = stat_names.
Proof. destruct arr as [|x r]; [done|]. cbn. by intros [= <-]. Qed.

Lemma features_loop_other (items : list (string * list float)) (key : string) :
  forall features feats,
  features_loop items features = Ok feats ->
  (forall name k, name ∈ items.*1 -> k ∈ stat_names -> feature_key name k <> key) ->
  feats !! key = features !! key.
Proof.
  induction items as [|[n0 a0] rest IH]; intros f feats Hloop Hne.
  - cbn in Hloop. by injection Hloop as <-.
  - cbn [Features.features_loop] in Hloop.
    destruct (extract_basic_stats a0) as [st0|] eqn:Hst0; [|done].
    cbn [mbind result_bind] in Hloop. rewrite (IH _ _ Hloop).
    + apply add_stats_other. intros k Hk. apply Hne; [cbn; left|].
      by rewrite (extract_basic_stats_names _ _ Hst0) in Hk.
    + intros name k Hname Hk. apply Hne; [cbn; by right|done].
Qed.

(** The loop stores every statistic of every channel under its key. *)
Lemma features_loop_lookup (items : list (string * list float)) :
  NoDup items.*1 ->
  forall features feats,
  features_loop items features = Ok feats ->
  forall name arr stats k v,
    (name, arr) ∈ items -> extract_basic_stats arr = Ok stats -> (k, v) ∈ stats ->
    feats !! feature_key name k = Some v.
Proof.
  induction items as [|[n0 a0] rest IH]; intros Hnd f feats Hloop name arr stats k v Hin Hst Hkv.
  - by apply elem_of_nil in Hin.
  - cbn in Hnd. apply NoDup_cons in Hnd as [Hn0 Hnd].
    cbn [Features.features_loop] in Hloop.
    destruct (extract_basic_stats a0) as [st0|] eqn:Hst0; [|done].
    cbn [mbind result_bind] in Hloop.
    apply elem_of_cons in Hin as [[= -> ->]|Hin].
    + assert (st0 = stats) as -> by congruence.
      pose proof (extract_basic_stats_names _ _ Hst) as Hnames.
      rewrite (features_loop_other _ _ _ _ Hloop).
      * apply add_stats_own; [rewrite Hnames; by_evaluation| |done].
        intros k' Hk'. by rewrite Hnames in Hk'.
      * intros name' k' Hname' Hk' Heq. apply feature_key_inj in Heq as [-> _]; [done..|].
        rewrite <- Hnames. apply list_elem_of_fmap. by exists (k, v).
    + by apply (IH Hnd _ _ Hloop name arr stats).
Qed.

(** Every entry the loop leaves was there before or is such a statistic. *)
Lemma features_loop_from (items : list (string * list float)) (key : string) (v : float) :
  forall features feats,
  features_loop items features = Ok feats ->
  feats !! key = Some v ->
  features !! key = Some v \/
  exists name arr stats k,
    (name, arr) ∈ items /\ extract_basic_stats arr = Ok stats /\
    (k, v) ∈ stats /\ key = feature_key name k.
Proof.
  induction items as [|[n0 a0] rest IH]; intros f feats Hloop Hlook.
  - cbn in Hloop. injection Hloop as <-. by left.
  - cbn [Features.features_loop] in Hloop.
    destruct (extract_basic_stats a0) as [st0|] eqn:Hst0; [|done].
    cbn [mbind result_bind] in Hloop.
    destruct (IH _ _ Hloop Hlook) as [Hf|(name & arr & stats & k & Hin & Hst & Hkv & ->)].
    + apply add_stats_from in Hf as [Hf|(k & Hk & ->)]; [by left|].
      right. exists n0, a0, st0, k. split; [left|done].
    + right. exists name, arr, stats, k. split; [by right|done].
Qed.

(** The feature vector of a mapping: the statistics of its channels, each
    under the key of its channel and its name, and nothing else. *)
Lemma signals_to_feature_vector_lookup (signals : gmap string (list float)) feats :
  signals_to_feature_vector signals = Ok feats ->
  (forall name arr stats k v,
     signals !! name = Some arr -> extract_basic_stats arr = Ok stats -> (k, v) ∈ stats ->
     feats !! feature_key name k = Some v) /\
  (forall key v, feats !! key = Some v ->
     exists name arr stats k,
       signals !! name = Some arr /\ extract_basic_stats arr = Ok stats /\
       (k, v) ∈ stats /\ key = feature_key name k).
Proof.
  unfold Features.signals_to_feature_vector. intros Hloop. split.
  - intros name arr stats k v Hin. apply (features_loop_lookup _ (NoDup_fst_map_to_list _) _ _ Hloop).
    by apply elem_of_map_to_list.
  - intros key v Hlook.
    destruct (features_loop_from _ _ _ _ _ Hloop Hlook)
      as [Hempty|(name & arr & stats & k & Hin & Hrest)].
    + by rewrite lookup_empty in Hempty.
    + exists name, arr, stats, k. split; [|done]. by apply elem_of_map_to_list.
Qed.

End WithSciPy.

End KeyProofs.

(* ===================================================================== *)
(** * The sanitising caller *)
(* ===================================================================== *)

Module PredictProofs.
Import Py Features Predict.

Lemma sanitize_value_finite (v : float) : Np.is_finite (sanitize_value v) = true.
Proof.
  unfold sanitize_value, Np.is_finite. destruct (Np.non_finite v) eqn:Hv.
  - reflexivity.
  - by rewrite Hv.
Qed.

Lemma sanitize_value_of_finite (v : float) :
  Np.is_finite v = true -> sanitize_value v = v.
Proof.
  unfold sanitize_value, Np.is_finite. by destruct (Np.non_finite v).
Qed.

(** The loop of [sanitize_json] over any items: a key is set to zero when
    one of the items has it with a value that is not finite. *)
Lemma sanitize_loop_lookup (items : list (string * float)) (k : string) :
  forall d : gmap string float,
  foldl (fun d' '(k, v) => if Np.non_finite v then <[k := zero]> d' else d') d items !! k =
  if existsb (fun it => bool_decide (it.1 = k) && Np.non_finite it.2) items
  then Some zero else d !! k.
Proof.
  induction items as [|[k0 v0] rest IH]; intros d; [done|].
  cbn [foldl existsb fst snd]. rewrite IH.
  destruct (existsb _ rest); [by rewrite orb_true_r|]. rewrite orb_false_r.
  destruct (Np.non_finite v0); [|by rewrite andb_false_r].
  rewrite andb_true_r. case_bool_decide as Hk.
  - subst. by rewrite lookup_insert_eq.
  - by rewrite lookup_insert_ne.
Qed.

Lemma sanitize_json_lookup (d : gmap string float) (k : string) :
  sanitize_json d !! k = sanitize_value <$> d !! k.
Proof.
  unfold sanitize_json. rewrite sanitize_loop_lookup.
  destruct (existsb _ _) eqn:Hex.
  - apply existsb_exists in Hex as ([k' v] & Hin & Hkv). cbn [fst snd] in Hkv.
    apply andb_true_iff in Hkv as [Hk Hv]. apply bool_decide_eq_true in Hk. subst k'.
    apply list_elem_of_In, elem_of_map_to_list in Hin. rewrite Hin. cbn.
    unfold sanitize_value. by rewrite Hv.
  - destruct (d !! k) as [v|] eqn:Hd; [|done]. cbn. unfold sanitize_value.
    destruct (Np.non_finite v) eqn:Hv; [|done]. exfalso.
    apply not_true_iff_false in Hex. apply Hex. apply existsb_exists.
    exists (k, v). split.
    + apply list_elem_of_In. by apply elem_of_map_to_list.
    + cbn [fst snd]. rewrite Hv. by rewrite bool_decide_eq_true_2.
Qed.

Lemma sanitize_json_finite (d : gmap string float) (k : string) (v : float) :
  sanitize_json d !! k = Some v -> Np.is_finite v = true.
Proof.
  rewrite sanitize_json_lookup. destruct (d !! k) as [v0|]; [|done].
  intros [= <-]. apply sanitize_value_finite.
Qed.

Section WithSciPy.

Variables stats_skew stats_kurtosis : list float -> float.

(** What the script hands to the extractor has no empty channel. *)
Lemma select_signals_nonempty (u : gmap string (list float)) (items : list (string * string)) :
  forall acc : gmap string (list float),
  (forall name arr, acc !! name = Some arr -> arr <> []) ->
  forall name arr, select_signals u items acc !! name = Some arr -> arr <> [].
Proof.
  induction items as [|[k alias] rest IH]; intros acc Hacc; [done|].
  cbn [select_signals]. destruct (u !! k) as [a|]; [|by apply IH].
  destruct (Nat.ltb_spec 0 (List.length a)) as [Hpos|]; [|by apply IH].
  apply IH. intros name arr. destruct (decide (alias = name)) as [->|Hne].
  - rewrite lookup_insert_eq. intros [= <-] Hnil.
    apply (f_equal (@List.length _)) in Hnil. unfold nan_to_num in Hnil.
    rewrite length_fmap in Hnil. cbn in Hnil. lia.
  - rewrite lookup_insert_ne by done. apply Hacc.
Qed.

(** The script sends finite features, or stops for want of a signal: the
    empty channels are skipped before the extractor sees them. *)
Lemma predict_features_finite (u : gmap string (list float)) :
  predict_features stats_skew stats_kurtosis u = Raise RuntimeError \/
  exists feats, predict_features stats_skew stats_kurtosis u = Ok feats /\
    forall k v, feats !! k = Some v -> Np.is_finite v = true.
Proof.
  unfold predict_features. case_decide; [by left|]. right.
  destruct (FeatureProofs.signals_to_feature_vector_Ok stats_skew stats_kurtosis
              (select_signals u signal_map ∅)) as [feats ->].
  { apply select_signals_nonempty. intros name arr. by rewrite lookup_empty. }
  exists (sanitize_json feats). split; [done|]. apply sanitize_json_finite.
Qed.

(** C1 (amended). The feature extractor returns a feature vector whenever
    no channel is empty, and returns every statistic as it is computed,
    under the key of its channel and its name: it replaces nothing. On the
    inference path its result goes through [sanitize_json], which stores
    [0.0] for every scalar that is not-a-number or infinite and leaves the
    finite ones: after it every scalar of the feature vector is finite. *)
Theorem C1_features_sanitized_by_caller (signals : gmap string (list float)) :
  (forall name arr, signals !! name = Some arr -> arr <> []) ->
  exists feats,
    signals_to_feature_vector stats_skew stats_kurtosis signals = Ok feats /\
    (forall name arr stats k v,
       signals !! name = Some arr ->
       extract_basic_stats stats_skew stats_kurtosis arr = Ok stats ->
       (k, v) ∈ stats ->
       feats !! feature_key name k = Some v) /\
    (forall k, sanitize_json feats !! k = sanitize_value <$> feats !! k) /\
    (forall k v, sanitize_json feats !! k = Some v -> Np.is_finite v = true) /\
    (forall k v, feats !! k = Some v -> Np.is_finite v = true ->
                 sanitize_json feats !! k = Some v) /\
    (forall k v, feats !! k = Some v -> Np.is_finite v = false ->
                 sanitize_json feats !! k = Some zero).
Proof.
  intros Hne.
  destruct (FeatureProofs.signals_to_feature_vector_Ok stats_skew stats_kurtosis signals Hne)
    as [feats Hfeats].
  exists feats. split; [done|].
  split; [by apply KeyProofs.signals_to_feature_vector_lookup|].
  split; [apply sanitize_json_lookup|].
  split; [apply sanitize_json_finite|]. split.
  - intros k v Hk Hv. rewrite sanitize_json_lookup, Hk. cbn.
    by rewrite sanitize_value_of_finite.
  - intros k v Hk Hv. rewrite sanitize_json_lookup, Hk. cbn.
    unfold sanitize_value. unfold Np.is_finite in Hv.
    by destruct (Np.non_finite v).
Qed.

End WithSciPy.

(** The large sample: its root mean square overflows, the extractor
    returns the infinity, and the caller stores zero for it. *)
Lemma C1_sample_sanitized :
  exists feats,
    signals_to_feature_vector Samples.flat Samples.flat Samples.large_signal = Ok feats /\
    feats !! "GPIO34_rms" = Some infinity /\
    sanitize_json feats !! "GPIO34_rms" = Some zero /\
    (forall k v, sanitize_json feats !! k = Some v -> Np.is_finite v = true).
Proof.
  destruct (C1_features_sanitized_by_caller Samples.flat Samples.flat Samples.large_signal)
    as (feats & Hfeats & Hraw & _ & Hfin & _ & Hzero).
  { intros name arr Hin.
    destruct (decide (name = "GPIO34")) as [->|Hne].
    - vm_compute in Hin. injection Hin as <-. discriminate.
    - unfold Samples.large_signal in Hin. by rewrite lookup_singleton_ne in Hin. }
  assert (Hrms : feats !! "GPIO34_rms" = Some infinity).
  { apply (Hraw "GPIO34" [1e200]%float
             [ ("mean", 1e200%float); ("std", 0%float); ("max", 1e200%float);
               ("min", 1e200%float); ("rms", infinity); ("skew", 0%float);
               ("kurt", 0%float) ] "rms" infinity).
    - vm_compute. reflexivity.
    - vm_compute. reflexivity.
    - do 4 apply list_elem_of_further. apply list_elem_of_here. }
  exists feats. split; [exact Hfeats|]. split; [exact Hrms|].
  split; [|exact Hfin].
  apply (Hzero "GPIO34_rms" infinity); [exact Hrms|]. vm_compute. reflexivity.
Defined.

(** C1, as stated, fails: one finite sample of [1e200] has an infinite
    root mean square (its square overflows), and the extractor returns it
    as it is, whatever SciPy computes for the other entries. *)
Lemma C1_unsanitized_counterexample :
  (forall skew kurt, exists feats,
     signals_to_feature_vector skew kurt Samples.large_signal = Ok feats /\
     feats !! "GPIO34_rms" = Some infinity)
  /\ Np.is_finite infinity = false.
Proof.
  split; [|vm_compute; reflexivity].
  intros skew kurt. eexists. split; [vm_compute; reflexivity|].
  vm_compute. reflexivity.
Qed.

End PredictProofs.

(* ===================================================================== *)
(** * The sensor emulation layer *)
(* ===================================================================== *)

Module EmulatorProofs.
Import Py SensorEmulator.

(** ** The emulations of a column that is present *)

Lemma randn_length (n : nat) : forall g, List.length (Np.randn n g).1 = n.
Proof.
  induction n as [|n IH]; intros g; [done|]. cbn [Np.randn].
  destruct (Np.randn1 g) as [x g1]. specialize (IH g1).
  destruct (Np.randn n g1) as [xs g2]. cbn in *. by rewrite IH.
Qed.

Lemma envelope_length (env : list float) : forall s g,
  List.length (envelope s env g).1 = List.length env.
Proof.
  induction env as [|x rest IH]; intros s g; [done|]. cbn [envelope].
  destruct (Np.randn1 g) as [e g1].
  specialize (IH (0.05 * x + (1 - 0.05) * s)%float g1).
  destruct (envelope _ rest g1) as [out g2]. cbn in *. by rewrite IH.
Qed.

(** An emulation returns a channel as long as its source, when the source
    is a column of the table. *)
Definition total_on_columns
    (emulate : simdata_t -> string -> Np.rng -> result (list float * Np.rng)) : Prop :=
  forall (simdata : simdata_t) col src g,
    simdata !! col = Some src ->
    exists out g', emulate simdata col g = Ok (out, g') /\
                   List.length out = List.length src.

Lemma emulate_zmpt_total : total_on_columns emulate_zmpt.
Proof.
  intros simdata col src g Hsrc. unfold emulate_zmpt. rewrite Hsrc.
  pose proof (randn_length (List.length src) g) as Hn.
  destruct (Np.randn _ g) as [noise g']. cbn in Hn.
  eexists _, _. split; [reflexivity|]. rewrite length_zip_with. lia.
Qed.

Lemma emulate_acs_total : total_on_columns emulate_acs.
Proof.
  intros simdata col src g Hsrc. unfold emulate_acs. rewrite Hsrc.
  pose proof (randn_length (List.length src) g) as Hn.
  destruct (Np.randn _ g) as [noise g']. cbn in Hn.
  eexists _, _. split; [reflexivity|]. rewrite length_zip_with. lia.
Qed.

Lemma emulate_ntc_total : total_on_columns (noiseless emulate_ntc).
Proof.
  intros simdata col src g Hsrc. unfold noiseless, emulate_ntc. rewrite Hsrc.
  eexists _, _. split; [reflexivity|]. by rewrite !length_fmap.
Qed.

Lemma emulate_piezo_total : total_on_columns emulate_piezo.
Proof.
  intros simdata col src g Hsrc. unfold emulate_piezo, column_or_zeros. rewrite Hsrc.
  cbn [mbind result_bind].
  pose proof (envelope_length (Np.abs src) 0.0%float g) as Hn.
  destruct (envelope _ _ g) as [out g']. cbn in Hn.
  eexists _, _. split; [reflexivity|]. rewrite Hn. unfold Np.abs. by rewrite length_fmap.
Qed.

Lemma emulate_relay_present (simdata : simdata_t) key src :
  simdata !! key = Some src -> emulate_relay simdata key = Ok src.
Proof. intros Hsrc. unfold emulate_relay, column_or_zeros. by rewrite Hsrc. Qed.

Lemma zeros_like_replicate (t : list float) :
  Np.zeros_like t = replicate (List.length t) zero.
Proof. induction t as [|x t IH]; [done|]. cbn. f_equal. exact IH. Qed.

Lemma emulate_relay_absent (simdata : simdata_t) key t :
  simdata !! key = None -> simdata !! "time" = Some t ->
  emulate_relay simdata key = Ok (replicate (List.length t) zero).
Proof.
  intros Hsrc Ht. unfold emulate_relay, column_or_zeros. rewrite Hsrc, Ht.
  by rewrite zeros_like_replicate.
Qed.

Lemma emulate_relay_total : total_on_columns (noiseless emulate_relay).
Proof.
  intros simdata col src g Hsrc. unfold noiseless.
  rewrite (emulate_relay_present _ _ _ Hsrc). eexists _, _. split; reflexivity.
Qed.

(** ** One channel *)

Lemma source_present_false (mapping : gmap string string) name (simdata : simdata_t) :
  source_present mapping name simdata = false <->
  mapping !! name = None \/ exists col, mapping !! name = Some col /\ simdata !! col = None.
Proof.
  unfold source_present. destruct (mapping !! name) as [col|].
  - rewrite bool_decide_eq_false. rewrite <- eq_None_not_Some. split.
    + intros Hn. right. eauto.
    + intros [Hn|(c & Hc & Hn)]; [done|]. by injection Hc as <-.
  - split; [by left|done].
Qed.

Lemma emulate_channel_spec (simdata : simdata_t) (mapping : gmap string string)
    name chan emulate (outdict : simdata_t) g :
  total_on_columns emulate ->
  exists outdict' g',
    emulate_channel simdata mapping name chan emulate (outdict, g) = Ok (outdict', g') /\
    (forall c, c <> chan -> outdict' !! c = outdict !! c) /\
    (source_present mapping name simdata = false -> outdict' !! chan = outdict !! chan) /\
    (forall col src, mapping !! name = Some col -> simdata !! col = Some src ->
       exists out g0, emulate simdata col g0 = Ok (out, g') /\
         outdict' !! chan = Some out /\ List.length out = List.length src).
Proof.
  intros Htotal. unfold emulate_channel.
  destruct (source_present mapping name simdata) eqn:Hp.
  - unfold source_present in Hp. destruct (mapping !! name) as [col|]; [|done].
    apply bool_decide_eq_true in Hp as [src Hsrc].
    destruct (Htotal simdata col src g Hsrc) as (out & g' & Hem & Hlen).
    rewrite Hem. cbn [mbind result_bind].
    exists (<[chan := out]> outdict), g'. split; [done|]. split; [|split].
    + intros c Hc. by rewrite lookup_insert_ne.
    + done.
    + intros col' src' [= <-] Hsrc'. rewrite Hsrc in Hsrc'. injection Hsrc' as <-.
      exists out, g. by rewrite lookup_insert_eq.
  - exists outdict, g. split; [done|]. split; [done|]. split; [done|].
    intros col src Hm Hsrc. exfalso. unfold source_present in Hp.
    rewrite Hm in Hp. apply bool_decide_eq_false in Hp. apply Hp. eauto.
Qed.

(** ** The whole run *)

(** The run never raises; its frame has the time axis, a channel for every
    source that is a column and no channel for the others; the relay
    channel is its source. *)
Lemma run_emulator_spec (simdata : simdata_t) (mapping : option (gmap string string)) g :
  exists outdict g',
    run_emulator simdata mapping g = Ok (outdict, g') /\
    outdict !! "time" = Some (default [] (simdata !! "time")) /\
    (forall name chan, (name, chan) ∈ channels ->
       (source_present (effective_mapping mapping) name simdata = false ->
        outdict !! chan = None) /\
       (forall col src, effective_mapping mapping !! name = Some col ->
          simdata !! col = Some src ->
          exists out, outdict !! chan = Some out /\ List.length out = List.length src)) /\
    (forall col src, effective_mapping mapping !! "relay_key" = Some col ->
       simdata !! col = Some src -> outdict !! "GPIO26" = Some src).
Proof.
  unfold run_emulator. set (m := effective_mapping mapping).
  set (od0 := ({[ "time" := default [] (simdata !! "time") ]} : simdata_t)).
  destruct (emulate_channel_spec simdata m "voltage_node_key" "GPIO34" emulate_zmpt od0 g
              emulate_zmpt_total) as (od1 & g1 & -> & Ho1 & Ha1 & Hp1).
  cbn [mbind result_bind].
  destruct (emulate_channel_spec simdata m "current_key" "GPIO35" emulate_acs od1 g1
              emulate_acs_total) as (od2 & g2 & -> & Ho2 & Ha2 & Hp2).
  cbn [mbind result_bind].
  destruct (emulate_channel_spec simdata m "temp_node_key" "GPIO32" (noiseless emulate_ntc)
              od2 g2 emulate_ntc_total) as (od3 & g3 & -> & Ho3 & Ha3 & Hp3).
  cbn [mbind result_bind].
  destruct (emulate_channel_spec simdata m "piezo_key" "GPIO33" emulate_piezo od3 g3
              emulate_piezo_total) as (od4 & g4 & -> & Ho4 & Ha4 & Hp4).
  cbn [mbind result_bind].
  destruct (emulate_channel_spec simdata m "relay_key" "GPIO26" (noiseless emulate_relay)
              od4 g4 emulate_relay_total) as (od5 & g5 & -> & Ho5 & Ha5 & Hp5).
  assert (H0 : forall c, c <> "time" -> od0 !! c = None)
    by (intros c Hc; unfold od0; by rewrite lookup_singleton_ne).
  exists od5, g5. split; [done|]. split; [|split].
  - rewrite Ho5, Ho4, Ho3, Ho2, Ho1 by done. unfold od0. by rewrite lookup_singleton_eq.
  - intros name chan Hin. unfold channels in Hin.
    repeat (apply elem_of_cons in Hin as [[= -> ->]|Hin]); [..|by apply elem_of_nil in Hin].
    + split.
      * intros Hp. rewrite Ho5, Ho4, Ho3, Ho2, (Ha1 Hp) by done. by apply H0.
      * intros col src Hm Hs. destruct (Hp1 col src Hm Hs) as (out & _ & _ & Hout & Hlen).
        exists out. split; [|done]. by rewrite Ho5, Ho4, Ho3, Ho2.
    + split.
      * intros Hp. rewrite Ho5, Ho4, Ho3, (Ha2 Hp), Ho1 by done. by apply H0.
      * intros col src Hm Hs. destruct (Hp2 col src Hm Hs) as (out & _ & _ & Hout & Hlen).
        exists out. split; [|done]. by rewrite Ho5, Ho4, Ho3.
    + split.
      * intros Hp. rewrite Ho5, Ho4, (Ha3 Hp), Ho2, Ho1 by done. by apply H0.
      * intros col src Hm Hs. destruct (Hp3 col src Hm Hs) as (out & _ & _ & Hout & Hlen).
        exists out. split; [|done]. by rewrite Ho5, Ho4.
    + split.
      * intros Hp. rewrite Ho5, (Ha4 Hp), Ho3, Ho2, Ho1 by done. by apply H0.
      * intros col src Hm Hs. destruct (Hp4 col src Hm Hs) as (out & _ & _ & Hout & Hlen).
        exists out. split; [|done]. by rewrite Ho5.
    + split.
      * intros Hp. rewrite (Ha5 Hp), Ho4, Ho3, Ho2, Ho1 by done. by apply H0.
      * intros col src Hm Hs. destruct (Hp5 col src Hm Hs) as (out & _ & _ & Hout & Hlen).
        by exists out.
  - intros col src Hm Hs. destruct (Hp5 col src Hm Hs) as (out & g0 & Hem & Hout & _).
    unfold noiseless in Hem. rewrite (emulate_relay_present _ _ _ Hs) in Hem.
    cbn in Hem. injection Hem as <- _. done.
Qed.

(** ** The draws *)

Lemma randn_draws (n : nat) : forall g,
  (Np.randn n g).1 = g <$> seq 0 n /\ after_draws n g (Np.randn n g).2.
Proof.
  induction n as [|n IH]; intros g; [done|]. cbn [Np.randn].
  unfold Np.randn1. destruct (IH (fun k => g (S k))) as [Hout Hg].
  destruct (Np.randn n (fun k => g (S k))) as [xs g2]. cbn in *.
  split.
  - rewrite Hout. f_equal. by rewrite <- fmap_S_seq, <- list_fmap_compose.
  - intros k. by rewrite Hg.
Qed.

Lemma after_draws_0 g : after_draws 0 g g.
Proof. by intros k. Qed.

Lemma after_draws_add n1 n2 g g1 g2 :
  after_draws n1 g g1 -> after_draws n2 g1 g2 -> after_draws (n1 + n2) g g2.
Proof. intros H1 H2 k. rewrite H2, H1. f_equal. lia. Qed.

Lemma envelope_draws (env : list float) : forall s g,
  after_draws (List.length env) g (envelope s env g).2.
Proof.
  induction env as [|x rest IH]; intros s g; [done|]. cbn [envelope].
  unfold Np.randn1. specialize (IH (0.05 * x + (1 - 0.05) * s)%float (fun k => g (S k))).
  destruct (envelope _ rest _) as [out g2]. cbn in *. intros k. by rewrite IH.
Qed.

(** ** The channels, sample by sample *)

Lemma emulate_zmpt_samples (simdata : simdata_t) key v g out g' :
  simdata !! key = Some v ->
  emulate_zmpt simdata key g = Ok (out, g') ->
  List.length out = List.length v /\
  (forall i x, v !! i = Some x -> out !! i = Some (1.5 + 0.006 * x + 0.01 * g i)%float) /\
  after_draws (List.length v) g g'.
Proof.
  intros Hv. unfold emulate_zmpt. rewrite Hv.
  pose proof (randn_draws (List.length v) g) as [Hn Hg].
  pose proof (randn_length (List.length v) g) as Hlen.
  destruct (Np.randn _ g) as [noise g1]. cbn in *. intros [= <- <-].
  split; [rewrite length_zip_with; lia|]. split; [|done].
  intros i x Hx. rewrite lookup_zip_with, Hx. cbn.
  rewrite Hn, list_lookup_fmap, lookup_seq_lt; [done|]. by apply lookup_lt_Some in Hx.
Qed.

Lemma emulate_acs_samples (simdata : simdata_t) key v g out g' :
  simdata !! key = Some v ->
  emulate_acs simdata key g = Ok (out, g') ->
  List.length out = List.length v /\
  (forall i x, v !! i = Some x ->
     out !! i = Some (3.3 / 2.0 + 0.066 * x + 0.01 * g i)%float) /\
  after_draws (List.length v) g g'.
Proof.
  intros Hv. unfold emulate_acs. rewrite Hv.
  pose proof (randn_draws (List.length v) g) as [Hn Hg].
  pose proof (randn_length (List.length v) g) as Hlen.
  destruct (Np.randn _ g) as [noise g1]. cbn in *. intros [= <- <-].
  split; [rewrite length_zip_with; lia|]. split; [|done].
  intros i x Hx. rewrite lookup_zip_with, Hx. cbn.
  rewrite Hn, list_lookup_fmap, lookup_seq_lt; [done|]. by apply lookup_lt_Some in Hx.
Qed.

Lemma emulate_ntc_samples (simdata : simdata_t) key arr :
  simdata !! key = Some arr ->
  emulate_ntc simdata key =
  Ok ((fun x => (1.65 + (25.0 + (x - Np.mean arr) * 5.0 - 25.0) * 0.01)%float) <$> arr).
Proof.
  intros Hs. unfold emulate_ntc. rewrite Hs. cbn [mbind result_bind].
  by rewrite <- list_fmap_compose.
Qed.

(** The envelope loop: [states] are the states of the filter after each
    sample, from the state [s]; every output is the state plus a draw. *)
Lemma envelope_samples (env : list float) : forall s g,
  exists states,
    List.length states = List.length env /\
    (forall i x p, env !! i = Some x -> (s :: states) !! i = Some p ->
       states !! i = Some (0.05 * x + (1 - 0.05) * p)%float) /\
    (forall i st, states !! i = Some st ->
       (envelope s env g).1 !! i = Some (st + 0.005 * g i)%float).
Proof.
  induction env as [|x rest IH]; intros s g.
  - exists []. done.
  - cbn [envelope]. unfold Np.randn1.
    destruct (IH (0.05 * x + (1 - 0.05) * s)%float (fun k => g (S k)))
      as (states & Hlen & Hst & Hout).
    destruct (envelope _ rest _) as [out g2]. cbn [fst] in *.
    exists ((0.05 * x + (1 - 0.05) * s)%float :: states).
    split; [cbn; by rewrite Hlen|]. split.
    + intros [|i] x' p Hx Hp; cbn in *.
      * by injection Hx as <-; injection Hp as <-.
      * by apply Hst.
    + intros [|i] st Hi; cbn in *.
      * by injection Hi as <-.
      * by apply Hout.
Qed.

Lemma emulate_piezo_samples (simdata : simdata_t) key src g out g' :
  simdata !! key = Some src ->
  emulate_piezo simdata key g = Ok (out, g') ->
  after_draws (List.length src) g g' /\
  exists states,
    List.length states = List.length src /\
    (forall i x p, src !! i = Some x -> (0.0%float :: states) !! i = Some p ->
       states !! i = Some (0.05 * PrimFloat.abs x + (1 - 0.05) * p)%float) /\
    (forall i st, states !! i = Some st -> out !! i = Some (st + 0.005 * g i)%float).
Proof.
  intros Hs. unfold emulate_piezo, column_or_zeros. rewrite Hs. cbn [mbind result_bind].
  pose proof (envelope_draws (Np.abs src) 0.0%float g) as Hd.
  destruct (envelope_samples (Np.abs src) 0.0%float g) as (states & Hlen & Hst & Hout).
  destruct (envelope _ _ g) as [o gx]. intros [= <- <-]. cbn [fst snd] in *.
  unfold Np.abs in *. rewrite length_fmap in Hd, Hlen. split; [done|].
  exists states. split; [done|]. split; [|done].
  intros i x p Hx Hp. apply Hst; [|done]. by rewrite list_lookup_fmap, Hx.
Qed.

(** ** One step of the run, read backwards *)

Lemma source_present_true (mapping : gmap string string) name (simdata : simdata_t) :
  source_present mapping name simdata = true <->
  exists col src, mapping !! name = Some col /\ simdata !! col = Some src.
Proof.
  unfold source_present. destruct (mapping !! name) as [col|].
  - rewrite bool_decide_eq_true. split.
    + intros [src Hsrc]. eauto.
    + intros (c & src & [= <-] & Hsrc). eauto.
  - split; [done|]. by intros (c & src & ? & _).
Qed.

Lemma emulate_channel_inv (simdata : simdata_t) (mapping : gmap string string)
    name chan emulate (outdict outdict' : simdata_t) g g' :
  emulate_channel simdata mapping name chan emulate (outdict, g) = Ok (outdict', g') ->
  (source_present mapping name simdata = false /\ outdict' = outdict /\ g' = g) \/
  (exists col src out,
     mapping !! name = Some col /\ simdata !! col = Some src /\
     emulate simdata col g = Ok (out, g') /\ outdict' = <[chan := out]> outdict).
Proof.
  unfold emulate_channel. destruct (source_present mapping name simdata) eqn:Hp.
  - unfold source_present in Hp. destruct (mapping !! name) as [col|]; [|done].
    apply bool_decide_eq_true in Hp as [src Hsrc].
    destruct (emulate simdata col g) as [[out g1]|] eqn:Hem; [|done].
    cbn. intros [= <- <-]. right. by exists col, src, out.
  - intros [= <- <-]. by left.
Qed.

Lemma emulate_channel_others (simdata : simdata_t) (mapping : gmap string string)
    name chan emulate (outdict outdict' : simdata_t) g g' c :
  emulate_channel simdata mapping name chan emulate (outdict, g) = Ok (outdict', g') ->
  c <> chan -> outdict' !! c = outdict !! c.
Proof.
  intros Hstep Hc.
  apply emulate_channel_inv in Hstep as [(_ & -> & _)|(col & src & out & _ & _ & _ & ->)];
    [done|]. by rewrite lookup_insert_ne.
Qed.

(** A step whose source is a column stores what the emulation returns. *)
Lemma emulate_channel_present (simdata : simdata_t) (mapping : gmap string string)
    name chan emulate (outdict outdict' : simdata_t) g g' col src :
  emulate_channel simdata mapping name chan emulate (outdict, g) = Ok (outdict', g') ->
  mapping !! name = Some col -> simdata !! col = Some src ->
  exists out, emulate simdata col g = Ok (out, g') /\ outdict' !! chan = Some out.
Proof.
  intros Hstep Hm Hs.
  apply emulate_channel_inv in Hstep
    as [(Hp & _ & _)|(col' & src' & out & Hm' & Hs' & Hem & ->)].
  - apply source_present_false in Hp as [Hn|(c & Hc & Hn)]; congruence.
  - assert (col' = col) as -> by congruence.
    exists out. by rewrite lookup_insert_eq.
Qed.

Lemma source_length_absent (simdata : simdata_t) (mapping : gmap string string) name :
  source_present mapping name simdata = false -> source_length simdata mapping name = 0.
Proof.
  intros Hp. unfold source_length.
  apply source_present_false in Hp as [->|(col & -> & ->)]; done.
Qed.

Lemma emulate_channel_draws (simdata : simdata_t) (mapping : gmap string string)
    name chan emulate (outdict outdict' : simdata_t) g g' :
  (forall col src g out g', simdata !! col = Some src ->
     emulate simdata col g = Ok (out, g') -> after_draws (List.length src) g g') ->
  emulate_channel simdata mapping name chan emulate (outdict, g) = Ok (outdict', g') ->
  after_draws (source_length simdata mapping name) g g'.
Proof.
  intros Hem Hstep.
  apply emulate_channel_inv in Hstep
    as [(Hp & _ & ->)|(col & src & out & Hm & Hs & Hstep & _)].
  - rewrite source_length_absent by done. apply after_draws_0.
  - unfold source_length. rewrite Hm, Hs. by eapply Hem.
Qed.

Lemma emulate_channel_noiseless (simdata : simdata_t) (mapping : gmap string string)
    name chan f (outdict outdict' : simdata_t) g g' :
  emulate_channel simdata mapping name chan (noiseless f) (outdict, g) = Ok (outdict', g') ->
  g' = g.
Proof.
  intros Hstep.
  apply emulate_channel_inv in Hstep
    as [(_ & _ & ->)|(col & src & out & _ & _ & Hstep & _)]; [done|].
  unfold noiseless in Hstep. destruct (f simdata col); [|done]. by injection Hstep.
Qed.

(** ** The whole run, step by step *)

(** The five steps of a run, one after the other. *)
Lemma run_emulator_trace (simdata : simdata_t) (mapping : option (gmap string string)) g :
  let m := effective_mapping mapping in
  let od0 : simdata_t := {[ "time" := default [] (simdata !! "time") ]} in
  exists od1 g1 od2 g2 od3 g3 od4 g4 od5 g5,
    emulate_channel simdata m "voltage_node_key" "GPIO34" emulate_zmpt (od0, g) = Ok (od1, g1) /\
    emulate_channel simdata m "current_key" "GPIO35" emulate_acs (od1, g1) = Ok (od2, g2) /\
    emulate_channel simdata m "temp_node_key" "GPIO32" (noiseless emulate_ntc) (od2, g2)
      = Ok (od3, g3) /\
    emulate_channel simdata m "piezo_key" "GPIO33" emulate_piezo (od3, g3) = Ok (od4, g4) /\
    emulate_channel simdata m "relay_key" "GPIO26" (noiseless emulate_relay) (od4, g4)
      = Ok (od5, g5) /\
    run_emulator simdata mapping g = Ok (od5, g5).
Proof.
  intros m od0. unfold run_emulator. fold m. fold od0.
  destruct (emulate_channel_spec simdata m "voltage_node_key" "GPIO34"
              emulate_zmpt od0 g emulate_zmpt_total) as (od1 & g1 & H1 & _).
  destruct (emulate_channel_spec simdata m "current_key" "GPIO35"
              emulate_acs od1 g1 emulate_acs_total) as (od2 & g2 & H2 & _).
  destruct (emulate_channel_spec simdata m "temp_node_key" "GPIO32"
              (noiseless emulate_ntc) od2 g2 emulate_ntc_total)
    as (od3 & g3 & H3 & _).
  destruct (emulate_channel_spec simdata m "piezo_key" "GPIO33"
              emulate_piezo od3 g3 emulate_piezo_total) as (od4 & g4 & H4 & _).
  destruct (emulate_channel_spec simdata m "relay_key" "GPIO26"
              (noiseless emulate_relay) od4 g4 emulate_relay_total)
    as (od5 & g5 & H5 & _).
  exists od1, g1, od2, g2, od3, g3, od4, g4, od5, g5.
  repeat (split; [done|]).
  rewrite H1. cbn [mbind result_bind]. rewrite H2. cbn [mbind result_bind].
  rewrite H3. cbn [mbind result_bind]. rewrite H4. cbn [mbind result_bind]. exact H5.
Qed.

(** What the run stores under each channel whose source is a column of the
    table: the output of the emulation of the channel on that column, with
    the generator as the channels before it have left it. *)
Lemma run_emulator_values (simdata : simdata_t) (mapping : option (gmap string string))
    g outdict g' :
  run_emulator simdata mapping g = Ok (outdict, g') ->
  let m := effective_mapping mapping in
  let n34 := source_length simdata m "voltage_node_key" in
  let n35 := source_length simdata m "current_key" in
  let n33 := source_length simdata m "piezo_key" in
  after_draws (n34 + n35 + n33) g g' /\
  (forall col src, m !! "voltage_node_key" = Some col -> simdata !! col = Some src ->
     exists out g1, emulate_zmpt simdata col g = Ok (out, g1) /\
       outdict !! "GPIO34" = Some out) /\
  (forall col src, m !! "current_key" = Some col -> simdata !! col = Some src ->
     exists g0 out g1, after_draws n34 g g0 /\
       emulate_acs simdata col g0 = Ok (out, g1) /\
       outdict !! "GPIO35" = Some out) /\
  (forall col src, m !! "temp_node_key" = Some col -> simdata !! col = Some src ->
     exists out, emulate_ntc simdata col = Ok out /\ outdict !! "GPIO32" = Some out) /\
  (forall col src, m !! "piezo_key" = Some col -> simdata !! col = Some src ->
     exists g0 out g1, after_draws (n34 + n35) g g0 /\
       emulate_piezo simdata col g0 = Ok (out, g1) /\
       outdict !! "GPIO33" = Some out) /\
  (forall col src, m !! "relay_key" = Some col -> simdata !! col = Some src ->
     exists out, emulate_relay simdata col = Ok out /\ outdict !! "GPIO26" = Some out).
Proof.
  intros Hrun m n34 n35 n33.
  destruct (run_emulator_trace simdata mapping g)
    as (od1 & g1 & od2 & g2 & od3 & g3 & od4 & g4 & od5 & g5
        & H1 & H2 & H3 & H4 & H5 & Hrun').
  rewrite Hrun in Hrun'. injection Hrun' as -> ->. fold m in H1, H2, H3, H4, H5.
  assert (Hg1 : after_draws n34 g g1).
  { eapply emulate_channel_draws; [|exact H1].
    intros col src g0 out g0' Hs Hem. by apply (emulate_zmpt_samples _ _ _ _ _ _ Hs Hem). }
  assert (Hg2 : after_draws n35 g1 g2).
  { eapply emulate_channel_draws; [|exact H2].
    intros col src g0 out g0' Hs Hem. by apply (emulate_acs_samples _ _ _ _ _ _ Hs Hem). }
  assert (g3 = g2) as -> by (by eapply emulate_channel_noiseless).
  assert (Hg4 : after_draws n33 g2 g4).
  { eapply emulate_channel_draws; [|exact H4].
    intros col src g0 out g0' Hs Hem. by apply (emulate_piezo_samples _ _ _ _ _ _ Hs Hem). }
  assert (g5 = g4) as -> by (by eapply emulate_channel_noiseless).
  split; [by repeat eapply after_draws_add|].
  split; [|split; [|split; [|split]]]; intros col src Hm Hs.
  - destruct (emulate_channel_present _ _ _ _ _ _ _ _ _ _ _ H1 Hm Hs) as (out & Hem & Hout).
    exists out, g1. split; [done|].
    rewrite (emulate_channel_others _ _ _ _ _ _ _ _ _ "GPIO34" H5) by done.
    rewrite (emulate_channel_others _ _ _ _ _ _ _ _ _ "GPIO34" H4) by done.
    rewrite (emulate_channel_others _ _ _ _ _ _ _ _ _ "GPIO34" H3) by done.
    by rewrite (emulate_channel_others _ _ _ _ _ _ _ _ _ "GPIO34" H2).
  - destruct (emulate_channel_present _ _ _ _ _ _ _ _ _ _ _ H2 Hm Hs) as (out & Hem & Hout).
    exists g1, out, g2. split; [done|]. split; [done|].
    rewrite (emulate_channel_others _ _ _ _ _ _ _ _ _ "GPIO35" H5) by done.
    rewrite (emulate_channel_others _ _ _ _ _ _ _ _ _ "GPIO35" H4) by done.
    by rewrite (emulate_channel_others _ _ _ _ _ _ _ _ _ "GPIO35" H3).
  - destruct (emulate_channel_present _ _ _ _ _ _ _ _ _ _ _ H3 Hm Hs) as (out & Hem & Hout).
    exists out. split.
    + unfold noiseless in Hem. destruct (emulate_ntc simdata col); [|done].
      by injection Hem as ->.
    + rewrite (emulate_channel_others _ _ _ _ _ _ _ _ _ "GPIO32" H5) by done.
      by rewrite (emulate_channel_others _ _ _ _ _ _ _ _ _ "GPIO32" H4).
  - destruct (emulate_channel_present _ _ _ _ _ _ _ _ _ _ _ H4 Hm Hs) as (out & Hem & Hout).
    exists g2, out, g4. split; [by eapply after_draws_add|]. split; [done|].
    by rewrite (emulate_channel_others _ _ _ _ _ _ _ _ _ "GPIO33" H5).
  - destruct (emulate_channel_present _ _ _ _ _ _ _ _ _ _ _ H5 Hm Hs) as (out & Hem & Hout).
    exists out. split; [|done].
    unfold noiseless in Hem. destruct (emulate_relay simdata col); [|done].
    by injection Hem as ->.
Qed.

(** ** The claims on the emulation layer *)

(** C6. Whatever the table and the mapping, the run returns a frame. A
    logical channel whose configured source column is no key of the table
    (or that has no configured source) has no key in the frame: it is bound
    to no array of zeros or defaults. Every other channel is produced as
    without the omission: its key is bound to the output of its emulation
    on its source column, one value per sample of the source,
    - the voltage channel to [1.5 + 0.006 * v + 0.01 * e] of each sample
      [v], with the first draws [e] of the generator,
    - the current channel to [3.3 / 2.0 + 0.066 * i + 0.01 * e] of each
      sample [i], with the draws that follow those of the voltage channel,
    - the temperature channel to the divider voltage
      [1.65 + (T - 25.0) * 0.01] of [T = 25.0 + (v - mean) * 5.0],
    - the envelope channel to the states of the filter
      [s = 0.05 * |x| + (1 - 0.05) * s], from the state zero, each plus
      [0.005] times the next draw,
    - the relay channel to its source. *)
Theorem C6_absent_source_omits_channel (simdata : simdata_t)
    (mapping : option (gmap string string)) (g : Np.rng) :
  exists outdict g',
    run_emulator simdata mapping g = Ok (outdict, g') /\
    (forall name chan, (name, chan) ∈ channels ->
      (forall col, effective_mapping mapping !! name = Some col ->
         simdata !! col = None -> outdict !! chan = None) /\
      (effective_mapping mapping !! name = None -> outdict !! chan = None) /\
      (forall col src, effective_mapping mapping !! name = Some col ->
         simdata !! col = Some src ->
         exists out, outdict !! chan = Some out /\ List.length out = List.length src)) /\
    (forall col src, effective_mapping mapping !! "voltage_node_key" = Some col ->
       simdata !! col = Some src ->
       exists out g1,
         emulate_zmpt simdata col g = Ok (out, g1) /\
         outdict !! "GPIO34" = Some out /\
         forall i v, src !! i = Some v ->
           out !! i = Some (1.5 + 0.006 * v + 0.01 * g i)%float) /\
    (forall col src, effective_mapping mapping !! "current_key" = Some col ->
       simdata !! col = Some src ->
       exists g0 out g1,
         after_draws (source_length simdata (effective_mapping mapping) "voltage_node_key")
           g g0 /\
         emulate_acs simdata col g0 = Ok (out, g1) /\
         outdict !! "GPIO35" = Some out /\
         forall i x, src !! i = Some x ->
           out !! i = Some (3.3 / 2.0 + 0.066 * x + 0.01 * g0 i)%float) /\
    (forall col src, effective_mapping mapping !! "temp_node_key" = Some col ->
       simdata !! col = Some src ->
       emulate_ntc simdata col =
         Ok ((fun v => (1.65 + (25.0 + (v - Np.mean src) * 5.0 - 25.0) * 0.01)%float)
               <$> src) /\
       outdict !! "GPIO32" =
         Some ((fun v => (1.65 + (25.0 + (v - Np.mean src) * 5.0 - 25.0) * 0.01)%float)
                 <$> src)) /\
    (forall col src, effective_mapping mapping !! "piezo_key" = Some col ->
       simdata !! col = Some src ->
       exists g0 out g1 states,
         after_draws (source_length simdata (effective_mapping mapping) "voltage_node_key"
                      + source_length simdata (effective_mapping mapping) "current_key")
           g g0 /\
         emulate_piezo simdata col g0 = Ok (out, g1) /\
         outdict !! "GPIO33" = Some out /\
         List.length states = List.length src /\
         (forall i x p, src !! i = Some x -> (0.0%float :: states) !! i = Some p ->
            states !! i = Some (0.05 * PrimFloat.abs x + (1 - 0.05) * p)%float) /\
         (forall i st, states !! i = Some st ->
            out !! i = Some (st + 0.005 * g0 i)%float)) /\
    (forall col src, effective_mapping mapping !! "relay_key" = Some col ->
       simdata !! col = Some src ->
       emulate_relay simdata col = Ok src /\ outdict !! "GPIO26" = Some src).
Proof.
  destruct (run_emulator_spec simdata mapping g) as (od & g' & Hrun & _ & Hch & _).
  destruct (run_emulator_values simdata mapping g od g' Hrun)
    as (_ & H34 & H35 & H32 & H33 & H26).
  exists od, g'. split; [done|]. split; [|split; [|split; [|split; [|split]]]].
  - intros name chan Hin.
    destruct (Hch name chan Hin) as [Habs Hpres]. split; [|split; [|done]].
    + intros col Hm Hs. apply Habs, source_present_false. right. eauto.
    + intros Hm. apply Habs, source_present_false. by left.
  - intros col src Hm Hs. destruct (H34 col src Hm Hs) as (out & g1 & Hem & Hout).
    exists out, g1. split; [done|]. split; [done|].
    by apply (emulate_zmpt_samples _ _ _ _ _ _ Hs Hem).
  - intros col src Hm Hs. destruct (H35 col src Hm Hs) as (g0 & out & g1 & Hg0 & Hem & Hout).
    exists g0, out, g1. split; [done|]. split; [done|]. split; [done|].
    by apply (emulate_acs_samples _ _ _ _ _ _ Hs Hem).
  - intros col src Hm Hs. destruct (H32 col src Hm Hs) as (out & Hem & Hout).
    rewrite (emulate_ntc_samples _ _ _ Hs) in Hem. injection Hem as <-.
    split; [by apply emulate_ntc_samples|done].
  - intros col src Hm Hs. destruct (H33 col src Hm Hs) as (g0 & out & g1 & Hg0 & Hem & Hout).
    destruct (emulate_piezo_samples _ _ _ _ _ _ Hs Hem) as (_ & states & Hlen & Hst & Hval).
    by exists g0, out, g1, states.
  - intros col src Hm Hs. destruct (H26 col src Hm Hs) as (out & Hem & Hout).
    rewrite (emulate_relay_present _ _ _ Hs) in Hem. injection Hem as <-.
    split; [by apply emulate_relay_present|done].
Qed.

(** The sample with a voltage and a relay column and no current column,
    under the default mapping: the current channel is omitted; the voltage
    channel has two values, the transfer function of the two samples; the
    relay channel is its column. *)
Lemma C6_sample_frame :
  exists outdict g',
    run_emulator Samples.two_sources None Samples.quiet = Ok (outdict, g') /\
    outdict !! "GPIO35" = None /\
    (exists out, outdict !! "GPIO34" = Some out /\ List.length out = 2) /\
    (exists out, outdict !! "GPIO34" = Some out /\
       out !! 1 = Some (1.5 + 0.006 * 200.0 + 0.01 * Samples.quiet 1%nat)%float) /\
    outdict !! "GPIO26" = Some [0.0; 1.0]%float.
Proof.
  destruct (C6_absent_source_omits_channel Samples.two_sources None Samples.quiet)
    as (od & g' & Hrun & Hch & H34 & _ & _ & _ & H26).
  exists od, g'. split; [exact Hrun|]. split; [|split; [|split]].
  - destruct (Hch "current_key" "GPIO35") as (Habs & _ & _); [unfold channels; by_evaluation|].
    apply (Habs "I(V1)"); vm_compute; reflexivity.
  - destruct (Hch "voltage_node_key" "GPIO34") as (_ & _ & Hpres);
      [unfold channels; by_evaluation|].
    apply (Hpres "V(n_ac)" [100.0; 200.0]%float); vm_compute; reflexivity.
  - destruct (H34 "V(n_ac)" [100.0; 200.0]%float) as (out & g1 & _ & Hout & Hval);
      [vm_compute; reflexivity..|].
    exists out. split; [exact Hout|]. apply Hval. reflexivity.
  - apply (H26 "V(n_relay)" [0.0; 1.0]%float); vm_compute; reflexivity.
Defined.

(** C7 (amended). When the configured source column of the relay channel
    is a column of the table, the channel of the frame is that column,
    unmodified. When it is not, the frame has no relay channel: the run
    calls [emulate_relay] only for a source that is present. The sequence
    of zeros as long as the time axis is what [emulate_relay] itself
    returns for a key the table lacks. *)
Theorem C7_relay_passthrough_or_omitted (simdata : simdata_t)
    (mapping : option (gmap string string)) (g : Np.rng) :
  (exists outdict g',
     run_emulator simdata mapping g = Ok (outdict, g') /\
     (forall col src, effective_mapping mapping !! "relay_key" = Some col ->
        simdata !! col = Some src -> outdict !! "GPIO26" = Some src) /\
     (source_present (effective_mapping mapping) "relay_key" simdata = false ->
        outdict !! "GPIO26" = None)) /\
  (forall key src, simdata !! key = Some src -> emulate_relay simdata key = Ok src) /\
  (forall key t, simdata !! key = None -> simdata !! "time" = Some t ->
     emulate_relay simdata key = Ok (replicate (List.length t) zero)).
Proof.
  split; [|split].
  - destruct (run_emulator_spec simdata mapping g) as (od & g' & Hrun & _ & Hch & Hrelay).
    exists od, g'. split; [done|]. split; [done|].
    apply (Hch "relay_key" "GPIO26"). unfold channels. by_evaluation.
  - apply emulate_relay_present.
  - apply emulate_relay_absent.
Qed.

(** The relay column of the sample is passed through; without it the
    channel is omitted, and [emulate_relay] alone gives two zeros. *)
Lemma C7_sample_relay :
  (exists outdict g',
     run_emulator Samples.two_sources None Samples.quiet = Ok (outdict, g') /\
     outdict !! "GPIO26" = Some [0.0; 1.0]%float) /\
  (exists outdict g',
     run_emulator Samples.time_only None Samples.quiet = Ok (outdict, g') /\
     outdict !! "GPIO26" = None) /\
  emulate_relay Samples.time_only "V(n_relay)" = Ok [0.0; 0.0]%float.
Proof.
  split; [|split].
  - destruct (C7_relay_passthrough_or_omitted Samples.two_sources None Samples.quiet)
      as ((od & g' & Hrun & Hpres & _) & _ & _).
    exists od, g'. split; [exact Hrun|].
    apply (Hpres "V(n_relay)"); vm_compute; reflexivity.
  - destruct (C7_relay_passthrough_or_omitted Samples.time_only None Samples.quiet)
      as ((od & g' & Hrun & _ & Habs) & _ & _).
    exists od, g'. split; [exact Hrun|]. apply Habs. vm_compute. reflexivity.
  - destruct (C7_relay_passthrough_or_omitted Samples.time_only None Samples.quiet)
      as (_ & _ & Hzeros).
    apply (Hzeros "V(n_relay)" [0.0; 0.001]%float); vm_compute; reflexivity.
Defined.

(** C7, as stated, fails: the sample table has a time axis of two samples
    and no relay column; the frame of the run has no relay channel, where
    the claim has it bound to two zeros. *)
Lemma C7_relay_omitted_counterexample :
  Samples.time_only !! "V(n_relay)" = None /\
  frame_of (run_emulator Samples.time_only None Samples.quiet)
    = Some {[ "time" := [0.0; 0.001]%float ]} /\
  ({[ "time" := [0.0; 0.001]%float ]} : simdata_t) !! "GPIO26" = None.
Proof. repeat split; vm_compute; reflexivity. Qed.

End EmulatorProofs.

(* ===================================================================== *)
(** * The row unifier *)
(* ===================================================================== *)

Module UnifyProofs.
Import Py UnifyLogger.

Lemma channel_keys_elem (d : gmap string (list float)) (k : string) :
  k ∈ channel_keys d <-> k <> "time" /\ is_Some (d !! k).
Proof.
  unfold channel_keys. rewrite list_elem_of_filter, list_elem_of_fmap. split.
  - intros [Hne ([k' arr] & -> & Hin)]. split; [done|].
    apply elem_of_map_to_list in Hin. cbn. eauto.
  - intros [Hne [arr Harr]]. split; [done|]. exists (k, arr). split; [done|].
    by apply elem_of_map_to_list.
Qed.

(** The inner loop binds every key to the value of its channel at the
    index, or to [null] where the channel has ended. *)
Lemma fill_row_spec (d : gmap string (list float)) (i : nat) (keys : list string) :
  Forall (fun k => is_Some (d !! k)) keys ->
  forall row : gmap string (option float),
  exists row', fill_row d i row keys = Ok row' /\
    forall k, row' !! k =
      if decide (k ∈ keys) then (fun arr : list float => arr !! i) <$> d !! k
      else row !! k.
Proof.
  induction 1 as [|k0 rest [arr Harr] _ IH]; intros row.
  - exists row. split; [done|]. intros k. rewrite decide_False; [done|].
    apply not_elem_of_nil.
  - cbn [fill_row]. rewrite Harr.
    assert (Hcell : (if i <? List.length arr
                     then match arr !! i with
                          | Some v => Ok (Some v)
                          | None => Raise IndexError
                          end
                     else Ok None) = Ok (arr !! i)).
    { destruct (Nat.ltb_spec i (List.length arr)) as [Hlt|Hge].
      - apply lookup_lt_is_Some in Hlt as [v ->]. done.
      - by rewrite (lookup_ge_None_2 arr i). }
    rewrite Hcell. cbn [mbind result_bind].
    destruct (IH (<[k0 := arr !! i]> row)) as (row' & -> & Hlook).
    exists row'. split; [done|]. intros k. rewrite Hlook.
    destruct (decide (k ∈ rest)) as [Hin|Hnin].
    + rewrite decide_True; [done|]. by right.
    + destruct (decide (k = k0)) as [->|Hne].
      * rewrite decide_True by left. by rewrite lookup_insert_eq, Harr.
      * rewrite decide_False by (rewrite elem_of_cons; tauto).
        by rewrite lookup_insert_ne.
Qed.

(** The outer loop gives one row per time value, each filled at its index. *)
Lemma rows_from_spec (d : gmap string (list float)) (keys : list string) :
  Forall (fun k => is_Some (d !! k)) keys ->
  forall (ts : list float) (i : nat),
  exists rows, rows_from d keys i ts = Ok rows /\
    List.length rows = List.length ts /\
    forall j row, rows !! j = Some row ->
      exists tj, ts !! j = Some tj /\
        fill_row d (i + j) {[ "time" := Some tj ]} keys = Ok row.
Proof.
  intros Hkeys. induction ts as [|ti rest IH]; intros i.
  - exists []. split; [done|]. split; [done|]. intros j row Hj. by destruct j.
  - cbn [rows_from].
    destruct (fill_row_spec d i keys Hkeys {[ "time" := Some ti ]}) as (row0 & Hrow0 & _).
    rewrite Hrow0. cbn [mbind result_bind].
    destruct (IH (S i)) as (rows & -> & Hlen & Hrows). cbn [mbind result_bind].
    exists (row0 :: rows). split; [done|]. split; [cbn; by rewrite Hlen|].
    intros [|j] row Hj; cbn in Hj.
    + injection Hj as <-. exists ti. split; [done|]. by rewrite Nat.add_0_r.
    + destruct (Hrows j row Hj) as (tj & Htj & Hfill). exists tj. split; [done|].
      by replace (i + S j) with (S i + j) by lia.
Qed.

(** ** The claim on the unifier *)

(** C9. For a frame whose time axis has [n] values, the unifier returns
    [n] records, in the order of the time axis. The record of index [i]
    has the time value of index [i] under [time] and, under every other
    key [k] of the frame, the value of the channel at index [i] when the
    channel has one, and [null] when the channel has ended; its keys are
    the keys of the frame. *)
Theorem C9_one_record_per_time_index (d : gmap string (list float)) (t : list float) :
  d !! "time" = Some t ->
  exists rows,
    unify d = Ok rows /\
    List.length rows = List.length t /\
    forall i row, rows !! i = Some row ->
      (exists ti, t !! i = Some ti /\ row !! "time" = Some (Some ti)) /\
      (forall k arr, k <> "time" -> d !! k = Some arr ->
         (forall v, arr !! i = Some v -> row !! k = Some (Some v)) /\
         (List.length arr <= i -> row !! k = Some None)) /\
      dom row = dom d.
Proof.
  intros Ht. unfold unify. rewrite Ht.
  assert (Hkeys : Forall (fun k => is_Some (d !! k)) (channel_keys d)).
  { apply Forall_forall. intros k Hk. by apply channel_keys_elem in Hk as [_ ?]. }
  destruct (rows_from_spec d (channel_keys d) Hkeys t 0) as (rows & Hrows & Hlen & Hrow).
  exists rows. split; [done|]. split; [done|]. intros i row Hi.
  destruct (Hrow i row Hi) as (ti & Hti & Hfill). cbn in Hfill.
  destruct (fill_row_spec d i (channel_keys d) Hkeys {[ "time" := Some ti ]})
    as (row' & Hfill' & Hlook).
  assert (row' = row) as -> by congruence.
  split; [|split].
  - exists ti. split; [done|]. rewrite Hlook, decide_False.
    + by rewrite lookup_singleton_eq.
    + rewrite channel_keys_elem. tauto.
  - intros k arr Hne Hk.
    assert (Hrk : row !! k = Some (arr !! i)).
    { rewrite Hlook, decide_True, Hk; [done|]. apply channel_keys_elem. eauto. }
    split.
    + intros v Hv. by rewrite Hrk, Hv.
    + intros Hge. by rewrite Hrk, (lookup_ge_None_2 arr i).
  - apply set_eq. intros k. rewrite !elem_of_dom, Hlook.
    destruct (decide (k ∈ channel_keys d)) as [Hin|Hnin].
    + apply channel_keys_elem in Hin as [_ [arr Harr]]. rewrite Harr. cbn.
      split; eauto.
    + destruct (decide (k = "time")) as [->|Hne].
      * rewrite lookup_singleton_eq, Ht. split; eauto.
      * rewrite lookup_singleton_ne by done.
        rewrite channel_keys_elem in Hnin.
        split; [by intros [? ?]|]. intros Hk. exfalso. apply Hnin. done.
Qed.

(** The ragged sample: three records, the last two channels ended. *)
Lemma C9_sample_rows :
  exists rows,
    unify Samples.ragged_frame = Ok rows /\
    List.length rows = 3 /\
    forall i row, rows !! i = Some row ->
      (exists ti, [0.0; 1.0; 2.0]%float !! i = Some ti /\ row !! "time" = Some (Some ti)) /\
      (forall k arr, k <> "time" -> Samples.ragged_frame !! k = Some arr ->
         (forall v, arr !! i = Some v -> row !! k = Some (Some v)) /\
         (List.length arr <= i -> row !! k = Some None)) /\
      dom row = dom Samples.ragged_frame.
Proof.
  apply (C9_one_record_per_time_index Samples.ragged_frame [0.0; 1.0; 2.0]%float).
  vm_compute. reflexivity.
Defined.

End UnifyProofs.

(* ===================================================================== *)
(** * Empty inputs along the pipeline *)
(* ===================================================================== *)

Module PipelineProofs.
Import Py RunNgspice SensorEmulator UnifyLogger Features.

Lemma emulate_channel_absent (simdata : simdata_t) (mapping : gmap string string)
    name chan emulate st :
  source_present mapping name simdata = false ->
  emulate_channel simdata mapping name chan emulate st = Ok st.
Proof. intros Hp. unfold emulate_channel. destruct st. by rewrite Hp. Qed.

Lemma run_emulator_no_source (simdata : simdata_t) (mapping : option (gmap string string)) g :
  (forall name, source_present (effective_mapping mapping) name simdata = false) ->
  run_emulator simdata mapping g = Ok ({[ "time" := default [] (simdata !! "time") ]}, g).
Proof.
  intros Hp. unfold run_emulator.
  repeat (rewrite emulate_channel_absent by apply Hp; cbn [mbind result_bind]).
  reflexivity.
Qed.

Lemma source_present_empty_table (mapping : gmap string string) name :
  source_present mapping name ∅ = false.
Proof.
  unfold source_present. destruct (mapping !! name); [|done].
  apply bool_decide_eq_false. rewrite lookup_empty. by intros [? ?].
Qed.

Lemma source_present_empty_mapping name (simdata : simdata_t) :
  source_present ∅ name simdata = false.
Proof. unfold source_present. by rewrite lookup_empty. Qed.

(** C8 (amended). A stage that is given an empty input returns an empty
    structure and does not fail: the feature extractor on a mapping with no
    channel, the windowed extractor on an empty series, the row unifier on
    an empty time axis, the emulation layer on a table with no column or
    with a mapping with no entry (its frame then has the time axis alone).
    Two stages fail: the parser on a text with no header line, always with
    the error of the missing table and with no partial result; and the
    statistics extractor on a channel of length zero, where the maximum of
    an empty array raises [ValueError], which also stops the feature
    extractor on a mapping that has such a channel. *)
Theorem C8_empty_inputs (stats_skew stats_kurtosis : list float -> float) :
  signals_to_feature_vector stats_skew stats_kurtosis ∅ = Ok ∅ /\
  (forall w step, (1 <= w)%Z -> (1 <= step)%Z ->
     windowed_features stats_skew stats_kurtosis [] w step = Ok []) /\
  (forall d : gmap string (list float), d !! "time" = Some [] -> unify d = Ok []) /\
  (forall mapping g,
     run_emulator ∅ mapping g = Ok ({[ "time" := [] ]}, g)) /\
  (forall simdata g,
     run_emulator simdata (Some ∅) g
     = Ok ({[ "time" := default [] (simdata !! "time") ]}, g)) /\
  (forall txt, find_header (splitlines txt) = None ->
     parse_printed_table txt = Raise RuntimeError) /\
  extract_basic_stats stats_skew stats_kurtosis [] = Raise ValueError /\
  (forall (signals : gmap string (list float)) name, signals !! name = Some [] ->
     signals_to_feature_vector stats_skew stats_kurtosis signals = Raise ValueError).
Proof.
  split; [apply FeatureProofs.signals_to_feature_vector_empty|].
  split.
  { intros w step Hw Hstep. rewrite FeatureProofs.windowed_features_unfold by done.
    destruct (starts_of (Z.of_nat (List.length (@nil float))) w step) as [|s rest] eqn:Hst;
      [done|].
    exfalso. assert (Hs : s ∈ starts_of (Z.of_nat (List.length (@nil float))) w step)
      by (rewrite Hst; left).
    apply FeatureProofs.starts_of_elem in Hs; [|done]. cbn in Hs. lia. }
  split; [intros d Ht; unfold unify; by rewrite Ht|].
  split.
  { intros mapping g. rewrite run_emulator_no_source.
    - by rewrite lookup_empty.
    - intros name. apply source_present_empty_table. }
  split.
  { intros simdata g. apply run_emulator_no_source.
    intros name. apply source_present_empty_mapping. }
  split; [apply ParserProofs.parse_no_header|].
  split; [reflexivity|].
  intros signals name. apply FeatureProofs.signals_to_feature_vector_Raise.
Qed.

(** The empty inputs, one per stage, and the text with no header. *)
Lemma C8_sample_empty_inputs :
  windowed_features Samples.flat Samples.flat [] 100 50 = Ok [] /\
  unify {[ "time" := [] ]} = Ok [] /\
  parse_printed_table Samples.no_header_text = Raise RuntimeError /\
  signals_to_feature_vector Samples.flat Samples.flat {[ "GPIO34" := [] ]}
    = Raise ValueError.
Proof.
  destruct (C8_empty_inputs Samples.flat Samples.flat)
    as (_ & Hwin & Huni & _ & _ & Hparse & _ & Hsig).
  split; [apply Hwin; lia|].
  split; [apply Huni; by rewrite lookup_singleton_eq|].
  split; [apply Hparse; vm_compute; reflexivity|].
  apply (Hsig _ "GPIO34"). by rewrite lookup_singleton_eq.
Defined.

(** C8, as stated, fails: the statistics extractor raises on a channel of
    length zero, and so does the feature extractor on a mapping whose one
    channel is empty. *)
Lemma C8_empty_channel_counterexample :
  extract_basic_stats Samples.flat Samples.flat [] = Raise ValueError /\
  signals_to_feature_vector Samples.flat Samples.flat {[ "GPIO34" := [] ]}
    = Raise ValueError.
Proof. split; vm_compute; reflexivity. Qed.

End PipelineProofs.

(* ===================================================================== *)
(** * More on the transient table parser *)
(* ===================================================================== *)

Module ParserMore.
Import Py RunNgspice.

Lemma find_header_from_None (lines : list string) : forall i,
  find_header_from i lines = None <->
  Forall (fun line => is_header_line line = false) lines.
Proof.
  induction lines as [|line rest IH]; intros i; cbn [find_header_from].
  - split; [constructor|done].
  - destruct (is_header_line line) eqn:Hh.
    + split; [done|]. intros Hall. inversion Hall; congruence.
    + rewrite IH. split; [by constructor|]. by inversion 1.
Qed.

(** X1. The error of the missing table is raised exactly when no line of
    the text is a header line, and the only other error of a parse is the
    [ValueError] of a field that does not convert. *)
Theorem parse_errors txt :
  (parse_printed_table txt = Raise RuntimeError <->
   Forall (fun line => is_header_line line = false) (splitlines txt)) /\
  (forall e, parse_printed_table txt = Raise e -> e = RuntimeError \/ e = ValueError).
Proof.
  rewrite <- (find_header_from_None (splitlines txt) 0).
  change (find_header_from 0 (splitlines txt)) with (find_header (splitlines txt)).
  destruct (header_and_rows txt) as [[headers rows]|] eqn:Hhr.
  - assert (Hsome : find_header (splitlines txt) <> None).
    { intros Hnone. apply ParserProofs.header_and_rows_None in Hnone. congruence. }
    destruct (decide (all_convert rows)) as [Hall|Hnot].
    + destruct (ParserProofs.parse_Ok _ _ _ Hhr Hall) as (cd & -> & _).
      split; [split; [done|]|done]. intros Hn. by destruct Hsome.
    + rewrite (ParserProofs.parse_Raise _ _ _ Hhr Hnot).
      split; [split; [done|]|].
      * intros Hn. by destruct Hsome.
      * intros e [= <-]. by right.
  - apply ParserProofs.header_and_rows_None in Hhr.
    rewrite (ParserProofs.parse_no_header _ Hhr).
    split; [done|]. intros e [= <-]. by left.
Qed.

(** ** What the result depends on *)

Lemma read_data_lines_cut nh (block : list string) t (post post' : list string) :
  is_terminator t = true ->
  read_data_lines nh (block ++ t :: post) = read_data_lines nh (block ++ t :: post').
Proof.
  intros Ht. induction block as [|line rest IH]; cbn [app read_data_lines].
  - unfold is_terminator in Ht.
    destruct (is_empty (strip t)); [done|]. cbn in Ht. by rewrite Ht.
  - destruct (is_empty (strip line)); [done|].
    destruct (startswith "Index" (strip line)); [done|].
    by rewrite IH.
Qed.

Lemma find_header_from_app (A B : list string) : forall i idx,
  find_header_from i A = Some idx ->
  find_header_from i (A ++ B) = Some idx /\ idx < i + List.length A.
Proof.
  induction A as [|line rest IH]; intros i idx; cbn [find_header_from app]; [done|].
  destruct (is_header_line line).
  - intros [= <-]. split; [done|]. cbn. lia.
  - intros Hf. destruct (IH _ _ Hf) as [-> Hlt]. split; [done|]. cbn. lia.
Qed.

Lemma find_header_from_skip (pre rest : list string) : forall i,
  Forall (fun line => is_header_line line = false) pre ->
  find_header_from i (pre ++ rest) = find_header_from (i + List.length pre) rest.
Proof.
  induction pre as [|line pre IH]; intros i Hpre; cbn [app find_header_from].
  - by rewrite Nat.add_0_r.
  - inversion Hpre as [|? ? Hl Hrest]; subst. rewrite Hl, IH by done.
    cbn. f_equal. lia.
Qed.

Lemma find_header_from_shift (lines : list string) : forall i j,
  find_header_from (i + j) lines = (fun idx => idx + j) <$> find_header_from i lines.
Proof.
  induction lines as [|line rest IH]; intros i j; cbn [find_header_from]; [done|].
  destruct (is_header_line line); [done|]. apply (IH (S i) j).
Qed.

(** X2. What stands after the line that ends the table plays no part: two
    texts that agree up to a blank line, or a line that starts with
    [Index], met after the header, parse to the same result. A second
    printed page of the table is dropped in this way. *)
Theorem parse_ignores_text_after_table txt txt' (A : list string) t (post post' : list string) :
  splitlines txt = A ++ t :: post ->
  splitlines txt' = A ++ t :: post' ->
  is_Some (find_header A) ->
  is_terminator t = true ->
  parse_printed_table txt = parse_printed_table txt'.
Proof.
  intros Htxt Htxt' [idx Hidx] Ht. unfold parse_printed_table. cbv zeta.
  rewrite Htxt, Htxt'. unfold find_header in *.
  destruct (find_header_from_app A (t :: post) 0 idx Hidx) as [-> Hlt].
  destruct (find_header_from_app A (t :: post') 0 idx Hidx) as [-> _].
  cbn in Hlt. rewrite !lookup_app_l by done.
  destruct (A !! idx) as [hdr|]; [|done].
  rewrite !drop_app_le by lia.
  by rewrite (read_data_lines_cut _ _ _ post post').
Qed.

(** X3. What stands before the header line plays no part either: lines
    that are no header, put before a text, do not change its parse. *)
Theorem parse_ignores_text_before_header txt txt' (pre : list string) :
  splitlines txt' = pre ++ splitlines txt ->
  Forall (fun line => is_header_line line = false) pre ->
  parse_printed_table txt' = parse_printed_table txt.
Proof.
  intros Htxt' Hpre. unfold parse_printed_table. cbv zeta.
  rewrite Htxt'. unfold find_header.
  rewrite find_header_from_skip by done.
  rewrite (find_header_from_shift _ 0 (List.length pre)).
  destruct (find_header_from 0 (splitlines txt)) as [idx|]; [|done]. cbn.
  rewrite lookup_app_r by lia.
  replace (idx + List.length pre - List.length pre) with idx by lia.
  destruct (splitlines txt !! idx) as [hdr|]; [|done].
  rewrite drop_app_ge by lia.
  by replace (S (idx + List.length pre) - List.length pre) with (S idx) by lia.
Qed.

(** A table followed by a note, and the same table followed by a second
    page. *)
Lemma parse_ignores_text_after_table_sample :
  parse_printed_table
    (Samples.text_of_lines ["Index time V(n_ac)"; "0 0.0 1.5"; ""; "Total analysis time: 0.01"])
  = parse_printed_table
      (Samples.text_of_lines
         ["Index time V(n_ac)"; "0 0.0 1.5"; ""; "Index time V(n_ac)"; "1 1e-3 2.5"]).
Proof.
  apply (parse_ignores_text_after_table _ _ ["Index time V(n_ac)"; "0 0.0 1.5"] ""
           ["Total analysis time: 0.01"] ["Index time V(n_ac)"; "1 1e-3 2.5"]).
  - reflexivity.
  - reflexivity.
  - vm_compute. eauto.
  - reflexivity.
Defined.

(** A table with a banner put before it. *)
Lemma parse_ignores_text_before_header_sample :
  parse_printed_table
    (Samples.text_of_lines ["Circuit: meter front end"; ""; "Index time V(n_ac)"; "0 0.0 1.5"])
  = parse_printed_table (Samples.text_of_lines ["Index time V(n_ac)"; "0 0.0 1.5"]).
Proof.
  apply (parse_ignores_text_before_header _ _ ["Circuit: meter front end"; ""]).
  - reflexivity.
  - repeat constructor.
Defined.

End ParserMore.

(* ===================================================================== *)
(** * More on the sensor emulation layer *)
(* ===================================================================== *)

Module EmulatorMore.
Import Py SensorEmulator.

(** ** The envelope detector *)

Lemma envelope_app (xs ys : list float) : forall s g,
  exists s1 g1,
    (envelope s (xs ++ ys) g).1 = (envelope s xs g).1 ++ (envelope s1 ys g1).1.
Proof.
  induction xs as [|x xs IH]; intros s g.
  - exists s, g. done.
  - cbn [app envelope]. unfold Np.randn1.
    destruct (IH (0.05 * x + (1 - 0.05) * s)%float (fun k => g (S k))) as (s1 & g1 & Happ).
    exists s1, g1.
    destruct (envelope _ (xs ++ ys) _) as [out g2].
    destruct (envelope _ xs _) as [out' g2']. cbn in *. by rewrite Happ.
Qed.

(** X4. The envelope detector is causal: samples added at the end of the
    source column leave the outputs before them as they were, for the same
    draws. *)
Theorem envelope_is_causal (simdata simdata' : simdata_t) key (xs ys : list float) g :
  simdata !! key = Some xs ->
  simdata' !! key = Some (xs ++ ys) ->
  exists out g1 out' g1',
    emulate_piezo simdata key g = Ok (out, g1) /\
    emulate_piezo simdata' key g = Ok (out', g1') /\
    List.length out = List.length xs /\
    take (List.length xs) out' = out.
Proof.
  intros Hxs Hxy. unfold emulate_piezo, column_or_zeros. rewrite Hxs, Hxy.
  cbn [mbind result_bind]. unfold Np.abs. rewrite fmap_app.
  destruct (envelope_app (PrimFloat.abs <$> xs) (PrimFloat.abs <$> ys) 0.0%float g)
    as (s1 & g1 & Happ).
  pose proof (EmulatorProofs.envelope_length (PrimFloat.abs <$> xs) 0.0%float g) as Hlen.
  rewrite length_fmap in Hlen.
  destruct (envelope _ (_ ++ _) g) as [out' g1'].
  destruct (envelope _ (PrimFloat.abs <$> xs) g) as [out g0]. cbn in *.
  exists out, g0, out', g1'. split; [done|]. split; [done|]. split; [done|].
  rewrite Happ, <- Hlen. by rewrite take_app_length.
Qed.

Lemma envelope_is_causal_sample :
  exists out g1 out' g1',
    emulate_piezo {[ "V(n_piezo)" := [1.0]%float ]} "V(n_piezo)" Samples.quiet = Ok (out, g1) /\
    emulate_piezo {[ "V(n_piezo)" := [1.0; -2.0]%float ]} "V(n_piezo)" Samples.quiet
      = Ok (out', g1') /\
    List.length out = 1 /\
    take 1 out' = out.
Proof.
  apply (envelope_is_causal {[ "V(n_piezo)" := [1.0]%float ]}
           {[ "V(n_piezo)" := [1.0; -2.0]%float ]} "V(n_piezo)"
           [1.0]%float [-2.0]%float Samples.quiet);
    vm_compute; reflexivity.
Defined.

(** ** The keys of the frame *)

(** X5. The frame of a run has the key [time], the output key of every
    logical channel whose source is a column of the table, and no other
    key: nothing of the table but the time axis is copied. *)
Theorem run_emulator_keys (simdata : simdata_t) (mapping : option (gmap string string)) g :
  exists outdict g',
    run_emulator simdata mapping g = Ok (outdict, g') /\
    forall k, is_Some (outdict !! k) <->
      k = "time" \/
      exists name, (name, k) ∈ channels /\
        source_present (effective_mapping mapping) name simdata = true.
Proof.
  destruct (EmulatorProofs.run_emulator_spec simdata mapping g)
    as (od & g' & Hrun & Htime & Hch & _).
  exists od, g'. split; [done|]. intros k. split.
  - intros Hk. destruct (decide (k = "time")) as [->|Hnt]; [by left|]. right.
    destruct (decide (k ∈ channels.*2)) as [Hin|Hnin].
    + apply list_elem_of_fmap in Hin as ([name k'] & Heq & Hin).
      cbn in Heq. subst k. exists name.
      split; [done|]. destruct (Hch name k' Hin) as [Habs _].
      destruct (source_present _ name simdata); [done|].
      rewrite Habs in Hk by done. by destruct Hk.
    + exfalso.
      destruct (EmulatorProofs.run_emulator_trace simdata mapping g)
        as (od1 & g1 & od2 & g2 & od3 & g3 & od4 & g4 & od5 & g5
            & H1 & H2 & H3 & H4 & H5 & Hrun').
      rewrite Hrun in Hrun'. injection Hrun' as -> ->.
      assert (Hne : forall c, c ∈ channels.*2 -> k <> c) by (intros c Hc ->; done).
      rewrite (EmulatorProofs.emulate_channel_others _ _ _ _ _ _ _ _ _ k H5) in Hk
        by (apply Hne; by_evaluation).
      rewrite (EmulatorProofs.emulate_channel_others _ _ _ _ _ _ _ _ _ k H4) in Hk
        by (apply Hne; by_evaluation).
      rewrite (EmulatorProofs.emulate_channel_others _ _ _ _ _ _ _ _ _ k H3) in Hk
        by (apply Hne; by_evaluation).
      rewrite (EmulatorProofs.emulate_channel_others _ _ _ _ _ _ _ _ _ k H2) in Hk
        by (apply Hne; by_evaluation).
      rewrite (EmulatorProofs.emulate_channel_others _ _ _ _ _ _ _ _ _ k H1) in Hk
        by (apply Hne; by_evaluation).
      rewrite lookup_singleton_ne in Hk by done. by destruct Hk.
  - intros [->|(name & Hin & Hp)]; [rewrite Htime; eauto|].
    apply EmulatorProofs.source_present_true in Hp as (col & src & Hm & Hs).
    destruct (Hch name k Hin) as [_ Hpres].
    destruct (Hpres col src Hm Hs) as (out & -> & _). eauto.
Qed.

(** ** The draws a run depends on *)

Lemma randn_agree (n : nat) (g g2 : Np.rng) :
  (forall k, k < n -> g2 k = g k) -> (Np.randn n g2).1 = (Np.randn n g).1.
Proof.
  intros Hag. rewrite (proj1 (EmulatorProofs.randn_draws n g)),
    (proj1 (EmulatorProofs.randn_draws n g2)).
  apply list_fmap_ext. intros i k Hk. apply Hag.
  apply lookup_seq in Hk as [-> Hlt]. done.
Qed.

Lemma envelope_agree (env : list float) : forall s (g g2 : Np.rng),
  (forall k, k < List.length env -> g2 k = g k) ->
  (envelope s env g2).1 = (envelope s env g).1.
Proof.
  induction env as [|x rest IH]; intros s g g2 Hag; [done|]. cbn [envelope].
  unfold Np.randn1.
  specialize (IH (0.05 * x + (1 - 0.05) * s)%float (fun k => g (S k)) (fun k => g2 (S k))).
  destruct (envelope _ rest (fun k => g (S k))) as [out g1].
  destruct (envelope _ rest (fun k => g2 (S k))) as [out2 g1']. cbn [fst] in *.
  rewrite (Hag 0) by (cbn; lia). f_equal. apply IH. intros k Hk. apply Hag. cbn. lia.
Qed.

(** An emulation reads of the generator the draws of its source only. *)
Definition reads_own_draws
    (emulate : simdata_t -> string -> Np.rng -> result (list float * Np.rng)) : Prop :=
  forall (simdata : simdata_t) col src (g g2 : Np.rng) out g',
    simdata !! col = Some src ->
    emulate simdata col g = Ok (out, g') ->
    (forall k, k < List.length src -> g2 k = g k) ->
    after_draws (List.length src) g g' /\
    exists g2', emulate simdata col g2 = Ok (out, g2') /\
                after_draws (List.length src) g2 g2'.

Lemma emulate_zmpt_reads : reads_own_draws emulate_zmpt.
Proof.
  intros simdata col src g g2 out g' Hs Hem Hag.
  destruct (EmulatorProofs.emulate_zmpt_samples _ _ _ _ _ _ Hs Hem) as (_ & _ & Hd).
  split; [done|].
  destruct (EmulatorProofs.emulate_zmpt_total simdata col src g2 Hs) as (out2 & g2' & Hem2 & _).
  exists g2'. split; [|by apply (EmulatorProofs.emulate_zmpt_samples _ _ _ _ _ _ Hs Hem2)].
  rewrite Hem2. unfold emulate_zmpt in Hem, Hem2. rewrite Hs in Hem, Hem2.
  pose proof (randn_agree (List.length src) g g2 Hag) as Hr.
  destruct (Np.randn _ g) as [noise gx]. destruct (Np.randn _ g2) as [noise2 gx2].
  cbn in Hr. subst noise2. injection Hem as <- _. by injection Hem2 as <- _.
Qed.

Lemma emulate_acs_reads : reads_own_draws emulate_acs.
Proof.
  intros simdata col src g g2 out g' Hs Hem Hag.
  destruct (EmulatorProofs.emulate_acs_samples _ _ _ _ _ _ Hs Hem) as (_ & _ & Hd).
  split; [done|].
  destruct (EmulatorProofs.emulate_acs_total simdata col src g2 Hs) as (out2 & g2' & Hem2 & _).
  exists g2'. split; [|by apply (EmulatorProofs.emulate_acs_samples _ _ _ _ _ _ Hs Hem2)].
  rewrite Hem2. unfold emulate_acs in Hem, Hem2. rewrite Hs in Hem, Hem2.
  pose proof (randn_agree (List.length src) g g2 Hag) as Hr.
  destruct (Np.randn _ g) as [noise gx]. destruct (Np.randn _ g2) as [noise2 gx2].
  cbn in Hr. subst noise2. injection Hem as <- _. by injection Hem2 as <- _.
Qed.

Lemma emulate_piezo_reads : reads_own_draws emulate_piezo.
Proof.
  intros simdata col src g g2 out g' Hs Hem Hag.
  destruct (EmulatorProofs.emulate_piezo_samples _ _ _ _ _ _ Hs Hem) as (Hd & _).
  split; [done|].
  destruct (EmulatorProofs.emulate_piezo_total simdata col src g2 Hs)
    as (out2 & g2' & Hem2 & _).
  exists g2'. split; [|by apply (EmulatorProofs.emulate_piezo_samples _ _ _ _ _ _ Hs Hem2)].
  rewrite Hem2. unfold emulate_piezo, column_or_zeros in Hem, Hem2.
  rewrite Hs in Hem, Hem2. cbn [mbind result_bind] in Hem, Hem2.
  assert (Hr : (envelope 0.0%float (Np.abs src) g2).1 = (envelope 0.0%float (Np.abs src) g).1).
  { apply envelope_agree. unfold Np.abs. by rewrite length_fmap. }
  destruct (envelope _ _ g) as [o gx]. destruct (envelope _ _ g2) as [o2 gx2].
  cbn in Hr. subst o2. injection Hem as <- _. by injection Hem2 as <- _.
Qed.

(** An emulation that draws nothing: its output is the same whatever the
    generator, which it leaves as it is. *)
Lemma noiseless_any_generator f (simdata : simdata_t) col g g2 out g' :
  noiseless f simdata col g = Ok (out, g') ->
  g' = g /\ noiseless f simdata col g2 = Ok (out, g2).
Proof.
  unfold noiseless. destruct (f simdata col) as [o|]; [|done]. cbn. by intros [= <- <-].
Qed.

(** One step of two runs that have stored the same so far. *)
Lemma emulate_channel_agree (simdata : simdata_t) (mapping : gmap string string)
    name chan emulate (outdict outdict' : simdata_t) (g g2 g' : Np.rng) :
  reads_own_draws emulate ->
  emulate_channel simdata mapping name chan emulate (outdict, g) = Ok (outdict', g') ->
  (forall k, k < source_length simdata mapping name -> g2 k = g k) ->
  after_draws (source_length simdata mapping name) g g' /\
  exists g2',
    emulate_channel simdata mapping name chan emulate (outdict, g2) = Ok (outdict', g2') /\
    after_draws (source_length simdata mapping name) g2 g2'.
Proof.
  intros Hreads Hstep Hag.
  apply EmulatorProofs.emulate_channel_inv in Hstep
    as [(Hp & -> & ->)|(col & src & out & Hm & Hs & Hem & ->)].
  - rewrite EmulatorProofs.source_length_absent by done.
    split; [apply EmulatorProofs.after_draws_0|].
    exists g2. split; [|apply EmulatorProofs.after_draws_0].
    unfold emulate_channel. by rewrite Hp.
  - unfold source_length in *. rewrite Hm, Hs in *.
    destruct (Hreads simdata col src g g2 out g' Hs Hem Hag) as (Hd & g2' & Hem2 & Hd2).
    split; [done|]. exists g2'. split; [|done].
    unfold emulate_channel, source_present. rewrite Hm, Hs.
    rewrite bool_decide_eq_true_2 by eauto. by rewrite Hem2.
Qed.

Lemma emulate_channel_noiseless_agree (simdata : simdata_t) (mapping : gmap string string)
    name chan f (outdict outdict' : simdata_t) (g g2 g' : Np.rng) :
  emulate_channel simdata mapping name chan (noiseless f) (outdict, g) = Ok (outdict', g') ->
  g' = g /\
  emulate_channel simdata mapping name chan (noiseless f) (outdict, g2) = Ok (outdict', g2).
Proof.
  intros Hstep.
  apply EmulatorProofs.emulate_channel_inv in Hstep
    as [(Hp & -> & ->)|(col & src & out & Hm & Hs & Hem & ->)].
  - split; [done|]. unfold emulate_channel. by rewrite Hp.
  - destruct (noiseless_any_generator f simdata col g g2 out g' Hem) as [-> Hem2].
    split; [done|]. unfold emulate_channel, source_present. rewrite Hm, Hs.
    rewrite bool_decide_eq_true_2 by eauto. by rewrite Hem2.
Qed.

(** X6. A run takes one draw for each sample of the voltage, current and
    envelope sources that are columns of the table, in this order, and no
    other: it leaves the generator after that many draws, and a generator
    that gives the same draws up to there gives the same frame. The
    temperature and relay channels take no draw. *)
Theorem run_emulator_draws (simdata : simdata_t) (mapping : option (gmap string string)) g :
  exists outdict g',
    run_emulator simdata mapping g = Ok (outdict, g') /\
    after_draws
      (source_length simdata (effective_mapping mapping) "voltage_node_key"
       + source_length simdata (effective_mapping mapping) "current_key"
       + source_length simdata (effective_mapping mapping) "piezo_key") g g' /\
    forall g2 : Np.rng,
      (forall k,
         k < source_length simdata (effective_mapping mapping) "voltage_node_key"
             + source_length simdata (effective_mapping mapping) "current_key"
             + source_length simdata (effective_mapping mapping) "piezo_key" ->
         g2 k = g k) ->
      exists g2', run_emulator simdata mapping g2 = Ok (outdict, g2').
Proof.
  destruct (EmulatorProofs.run_emulator_trace simdata mapping g)
    as (od1 & g1 & od2 & g2 & od3 & g3 & od4 & g4 & od5 & g5
        & H1 & H2 & H3 & H4 & H5 & Hrun).
  set (m := effective_mapping mapping) in *.
  set (n34 := source_length simdata m "voltage_node_key").
  set (n35 := source_length simdata m "current_key").
  set (n33 := source_length simdata m "piezo_key").
  exists od5, g5. split; [done|].
  destruct (EmulatorProofs.run_emulator_values simdata mapping g od5 g5 Hrun) as [Hd _].
  split; [exact Hd|]. intros h Hag.
  destruct (emulate_channel_agree _ _ _ _ _ _ _ g h _ emulate_zmpt_reads H1)
    as (Hg1 & h1 & K1 & Hh1); [intros k Hk; apply Hag; fold n34 in Hk; lia|].
  destruct (emulate_channel_agree _ _ _ _ _ _ _ g1 h1 _ emulate_acs_reads H2)
    as (Hg2 & h2 & K2 & Hh2).
  { intros k Hk. fold n35 in Hk. rewrite Hh1, Hg1. apply Hag. fold n34. lia. }
  destruct (emulate_channel_noiseless_agree _ _ _ _ _ _ _ g2 h2 _ H3) as [-> K3].
  destruct (emulate_channel_agree _ _ _ _ _ _ _ g2 h2 _ emulate_piezo_reads H4)
    as (Hg4 & h4 & K4 & Hh4).
  { intros k Hk. fold n33 in Hk. rewrite Hh2, Hg2, Hh1, Hg1. apply Hag.
    fold n34 n35. lia. }
  destruct (emulate_channel_noiseless_agree _ _ _ _ _ _ _ g4 h4 _ H5) as [-> K5].
  exists h4. unfold run_emulator. fold m.
  rewrite K1. cbn [mbind result_bind]. rewrite K2. cbn [mbind result_bind].
  rewrite K3. cbn [mbind result_bind]. rewrite K4. cbn [mbind result_bind]. exact K5.
Qed.

(** X7. The time axis, the temperature channel and the relay channel of a
    frame do not depend on the draws: two runs on the same table and
    mapping agree on them, whatever the two generators. *)
Theorem noise_free_channels (simdata : simdata_t) (mapping : option (gmap string string))
    (g g2 : Np.rng) :
  exists outdict g' outdict2 g2',
    run_emulator simdata mapping g = Ok (outdict, g') /\
    run_emulator simdata mapping g2 = Ok (outdict2, g2') /\
    outdict !! "time" = outdict2 !! "time" /\
    outdict !! "GPIO32" = outdict2 !! "GPIO32" /\
    outdict !! "GPIO26" = outdict2 !! "GPIO26".
Proof.
  destruct (EmulatorProofs.run_emulator_spec simdata mapping g)
    as (od & g' & Hrun & Htime & Hch & Hrelay).
  destruct (EmulatorProofs.run_emulator_spec simdata mapping g2)
    as (od2 & g2' & Hrun2 & Htime2 & Hch2 & Hrelay2).
  destruct (EmulatorProofs.run_emulator_values simdata mapping g od g' Hrun)
    as (_ & _ & _ & H32 & _ & _).
  destruct (EmulatorProofs.run_emulator_values simdata mapping g2 od2 g2' Hrun2)
    as (_ & _ & _ & H32' & _ & _).
  exists od, g', od2, g2'. split; [done|]. split; [done|].
  split; [by rewrite Htime, Htime2|]. split.
  - destruct (source_present (effective_mapping mapping) "temp_node_key" simdata) eqn:Hp.
    + apply EmulatorProofs.source_present_true in Hp as (col & src & Hm & Hs).
      destruct (H32 col src Hm Hs) as (out & Hem & ->).
      destruct (H32' col src Hm Hs) as (out' & Hem' & ->). congruence.
    + destruct (Hch "temp_node_key" "GPIO32") as [Habs _]; [unfold channels; by_evaluation|].
      destruct (Hch2 "temp_node_key" "GPIO32") as [Habs2 _]; [unfold channels; by_evaluation|].
      by rewrite Habs, Habs2.
  - destruct (source_present (effective_mapping mapping) "relay_key" simdata) eqn:Hp.
    + apply EmulatorProofs.source_present_true in Hp as (col & src & Hm & Hs).
      by rewrite (Hrelay col src Hm Hs), (Hrelay2 col src Hm Hs).
    + destruct (Hch "relay_key" "GPIO26") as [Habs _]; [unfold channels; by_evaluation|].
      destruct (Hch2 "relay_key" "GPIO26") as [Habs2 _]; [unfold channels; by_evaluation|].
      by rewrite Habs, Habs2.
Qed.

End EmulatorMore.

(* ===================================================================== *)
(** * More on the row unifier *)
(* ===================================================================== *)

Module UnifyMore.
Import Py UnifyLogger.

Lemma unify_rows (d : gmap string (list float)) (t : list float) :
  d !! "time" = Some t ->
  exists rows, unify d = Ok rows /\ List.length rows = List.length t /\
    forall i row, rows !! i = Some row ->
      row !! "time" = Some (t !! i) /\
      forall k arr, k <> "time" -> d !! k = Some arr -> row !! k = Some (arr !! i).
Proof.
  intros Ht. unfold unify. rewrite Ht.
  assert (Hkeys : Forall (fun k => is_Some (d !! k)) (channel_keys d)).
  { apply Forall_forall. intros k Hk.
    by apply UnifyProofs.channel_keys_elem in Hk as [_ ?]. }
  destruct (UnifyProofs.rows_from_spec d (channel_keys d) Hkeys t 0)
    as (rows & Hrows & Hlen & Hrow).
  exists rows. split; [done|]. split; [done|]. intros i row Hi.
  destruct (Hrow i row Hi) as (ti & Hti & Hfill). cbn in Hfill.
  destruct (UnifyProofs.fill_row_spec d i (channel_keys d) Hkeys {[ "time" := Some ti ]})
    as (row' & Hfill' & Hlook).
  assert (row' = row) as -> by congruence. split.
  - rewrite Hlook, decide_False, Hti; [by rewrite lookup_singleton_eq|].
    rewrite UnifyProofs.channel_keys_elem. tauto.
  - intros k arr Hne Hk. rewrite Hlook, decide_True, Hk; [done|].
    apply UnifyProofs.channel_keys_elem. eauto.
Qed.

(** X8. Read back from the rows, the time column is the time axis, and a
    channel is its samples up to the length of the time axis, followed by
    as many [null] as it is shorter: the samples of a channel beyond the
    time axis are left out, and a channel as long as the time axis is read
    back whole. *)
Theorem unify_read_back (d : gmap string (list float)) (t : list float) :
  d !! "time" = Some t ->
  exists rows,
    unify d = Ok rows /\
    (fun row => row !! "time") <$> rows = (fun v => Some (Some v)) <$> t /\
    forall k arr, k <> "time" -> d !! k = Some arr ->
      (fun row => row !! k) <$> rows =
      ((fun v => Some (Some v)) <$> take (List.length t) arr)
      ++ replicate (List.length t - List.length arr) (Some None).
Proof.
  intros Ht. destruct (unify_rows d t Ht) as (rows & Hun & Hlen & Hrows).
  exists rows. split; [done|]. split.
  - apply list_eq. intros i. rewrite !list_lookup_fmap.
    destruct (rows !! i) as [row|] eqn:Hi; cbn.
    + destruct (Hrows i row Hi) as [-> _].
      apply lookup_lt_Some in Hi. rewrite Hlen in Hi.
      by destruct (lookup_lt_is_Some_2 t i Hi) as [v ->].
    + apply lookup_ge_None in Hi. rewrite Hlen in Hi.
      by rewrite (lookup_ge_None_2 t i).
  - intros k arr Hne Hk. apply list_eq. intros i. rewrite list_lookup_fmap.
    destruct (rows !! i) as [row|] eqn:Hi; cbn.
    + destruct (Hrows i row Hi) as [_ Hch]. rewrite (Hch k arr Hne Hk).
      apply lookup_lt_Some in Hi. rewrite Hlen in Hi.
      destruct (decide (i < List.length arr)) as [Hlt|Hge].
      * rewrite lookup_app_l by (rewrite length_fmap, length_take; lia).
        rewrite list_lookup_fmap, lookup_take_lt by done.
        by destruct (lookup_lt_is_Some_2 arr i Hlt) as [v ->].
      * rewrite lookup_app_r by (rewrite length_fmap, length_take; lia).
        rewrite length_fmap, length_take, (lookup_ge_None_2 arr i) by lia.
        rewrite lookup_replicate_2; [done|lia].
    + apply lookup_ge_None in Hi. rewrite Hlen in Hi. symmetry.
      apply lookup_ge_None.
      rewrite length_app, length_fmap, length_take, length_replicate. lia.
Qed.

Lemma unify_read_back_sample :
  exists rows,
    unify Samples.ragged_frame = Ok rows /\
    (fun row => row !! "time") <$> rows = (fun v => Some (Some v)) <$> [0.0; 1.0; 2.0]%float /\
    forall k arr, k <> "time" -> Samples.ragged_frame !! k = Some arr ->
      (fun row => row !! k) <$> rows =
      ((fun v => Some (Some v)) <$> take (List.length [0.0; 1.0; 2.0]%float) arr)
      ++ replicate (List.length [0.0; 1.0; 2.0]%float - List.length arr) (Some None).
Proof.
  apply (unify_read_back Samples.ragged_frame [0.0; 1.0; 2.0]%float).
  vm_compute. reflexivity.
Defined.

End UnifyMore.

(* ===================================================================== *)
(** * More on the feature extractor *)
(* ===================================================================== *)

Module FeatureMore.
Import Py Features.

(** ** The extremes *)

Lemma foldl_maximum_elem (r : list float) : forall x, foldl Np.maximum x r ∈ x :: r.
Proof.
  induction r as [|y r IH]; intros x; cbn [foldl]; [left|].
  specialize (IH (Np.maximum x y)). apply elem_of_cons in IH as [->|IH].
  - unfold Np.maximum.
    destruct (PrimFloat.leb y x || PrimFloat.is_nan x); [left|right; left].
  - do 2 right. done.
Qed.

Lemma foldl_minimum_elem (r : list float) : forall x, foldl Np.minimum x r ∈ x :: r.
Proof.
  induction r as [|y r IH]; intros x; cbn [foldl]; [left|].
  specialize (IH (Np.minimum x y)). apply elem_of_cons in IH as [->|IH].
  - unfold Np.minimum.
    destruct (PrimFloat.leb x y || PrimFloat.is_nan x); [left|right; left].
  - do 2 right. done.
Qed.

Section WithSciPy.

Variables stats_skew stats_kurtosis : list float -> float.

Local Abbreviation extract_basic_stats := (extract_basic_stats stats_skew stats_kurtosis).
Local Abbreviation windowed_features := (windowed_features stats_skew stats_kurtosis).
Local Abbreviation signals_to_feature_vector :=
  (signals_to_feature_vector stats_skew stats_kurtosis).

(** X9. The statistic set of an array that is not empty has the seven
    names in the order of the dictionary, and its [max] and [min] are
    samples of the array. *)
Theorem extremes_are_samples (arr : list float) :
  arr <> [] ->
  exists stats mx mn,
    extract_basic_stats arr = Ok stats /\
    stats.*1 = stat_names /\
    (("max", mx) ∈ stats /\ mx ∈ arr) /\
    (("min", mn) ∈ stats /\ mn ∈ arr).
Proof.
  destruct arr as [|x r]; [done|]. intros _.
  eexists _, (foldl Np.maximum x r), (foldl Np.minimum x r).
  split; [reflexivity|]. split; [reflexivity|]. split; split.
  - do 2 apply list_elem_of_further. apply list_elem_of_here.
  - apply foldl_maximum_elem.
  - do 3 apply list_elem_of_further. apply list_elem_of_here.
  - apply foldl_minimum_elem.
Qed.

(** ** The number of windows and the bad parameters *)

Lemma py_slice_empty {A} (l : list A) (s : Z) : py_slice l s s = [].
Proof. unfold py_slice. by rewrite Z.sub_diag. Qed.

Lemma windows_count (len w step : Z) :
  (1 <= step)%Z -> (w <= len)%Z ->
  List.length (starts_of len w step) = Z.to_nat ((len - w) / step + 1).
Proof.
  intros Hstep Hw. unfold starts_of. rewrite length_fmap, length_seq. f_equal.
  replace (len - w + 1 + step - 1)%Z with ((len - w) + 1 * step)%Z by lia.
  rewrite Z.div_add by lia. done.
Qed.

(** X10. A series at least as long as the window gives
    [(len(series) - window_size) // step + 1] statistic sets. *)
Theorem number_of_windows (series : list float) (w step : Z) :
  (1 <= w)%Z -> (1 <= step)%Z -> (w <= Z.of_nat (List.length series))%Z ->
  exists X,
    windowed_features series w step = Ok X /\
    Z.of_nat (List.length X) = ((Z.of_nat (List.length series) - w) / step + 1)%Z.
Proof.
  intros Hw Hstep Hlen. set (len := Z.of_nat (List.length series)) in *.
  destruct (FeatureProofs.windows_loop_Ok stats_skew stats_kurtosis series w
              (starts_of len w step) Hw) as (X & HX & Hall).
  { apply Forall_forall. intros s Hs.
    apply FeatureProofs.starts_of_elem in Hs; [|done]. lia. }
  exists X. split; [by rewrite FeatureProofs.windowed_features_unfold|].
  apply Forall2_length in Hall. rewrite <- Hall, windows_count by done.
  pose proof (Z.div_pos (len - w) step ltac:(lia) ltac:(lia)). lia.
Qed.

(** X11. The parameters the extractor refuses or swallows: a step of zero
    raises [ValueError] (the range has no zero step); a window of zero
    samples raises [ValueError] for every step of at least one (its first
    window is empty and has no maximum); a negative step gives no window
    and no error when the window is at most one sample longer than the
    series. *)
Theorem windowed_features_bad_parameters (series : list float) :
  (forall w, windowed_features series w 0 = Raise ValueError) /\
  (forall step, (1 <= step)%Z -> windowed_features series 0 step = Raise ValueError) /\
  (forall w step, (step < 0)%Z -> (w <= Z.of_nat (List.length series) + 1)%Z ->
     windowed_features series w step = Ok []).
Proof.
  split; [done|]. split.
  - intros step Hstep. rewrite FeatureProofs.windowed_features_unfold by done.
    unfold starts_of.
    destruct (Z.to_nat _) as [|n] eqn:Hn.
    + exfalso.
      pose proof (Z.div_le_lower_bound
        (Z.of_nat (List.length series) - 0 + 1 + step - 1) step 1 ltac:(lia) ltac:(lia)).
      lia.
    + cbn [seq fmap list_fmap Features.windows_loop].
      replace (Z.of_nat 0 * step + 0)%Z with (Z.of_nat 0 * step)%Z by lia.
      by rewrite py_slice_empty.
  - intros w step Hstep Hw. unfold Features.windowed_features, py_range.
    destruct (Z.eqb_spec step 0); [lia|]. destruct (Z.ltb_spec 0 step); [lia|].
    cbn [mbind result_bind].
    assert (Hc : ((0 - (Z.of_nat (List.length series) - w + 1) - step - 1) / - step <= 0)%Z).
    { apply Z.lt_succ_r. apply Z.div_lt_upper_bound; lia. }
    destruct (Z.to_nat _) eqn:Hz; [done|lia].
Qed.

(** ** The keys of a feature vector *)

Lemma feature_vector_channels_nonempty (signals : gmap string (list float)) feats name arr :
  signals_to_feature_vector signals = Ok feats ->
  signals !! name = Some arr -> arr <> [].
Proof.
  intros Hf Hs ->.
  by rewrite (FeatureProofs.signals_to_feature_vector_Raise _ _ _ _ Hs) in Hf.
Qed.

Lemma keys_of_NoDup (names : list string) : NoDup names -> NoDup (keys_of names).
Proof.
  intros Hnd. apply NoDup_bind; [| |done].
  - intros n1 n2 key _ _ H1 H2.
    apply list_elem_of_fmap in H1 as (k1 & -> & Hk1).
    apply list_elem_of_fmap in H2 as (k2 & Heq & Hk2).
    by apply KeyProofs.feature_key_inj in Heq as [-> _].
  - intros name _. apply NoDup_fmap_2_strong; [|by_evaluation].
    intros k1 k2 Hk1 Hk2 Heq. by apply KeyProofs.feature_key_inj in Heq as [_ ->].
Qed.

Lemma keys_of_length (names : list string) :
  List.length (keys_of names) = 7 * List.length names.
Proof.
  unfold keys_of. induction names as [|n names IH]; [done|].
  cbn [mbind list_bind]. rewrite length_app, length_fmap. fold (keys_of names) in *.
  change (names ≫= _) with (keys_of names). rewrite IH. cbn. lia.
Qed.

Lemma feature_vector_dom (signals : gmap string (list float)) feats :
  signals_to_feature_vector signals = Ok feats ->
  dom feats = list_to_set (keys_of (elements (dom signals))).
Proof.
  intros Hf.
  destruct (KeyProofs.signals_to_feature_vector_lookup _ _ _ _ Hf) as [Hin Hout].
  apply set_eq. intros key. rewrite elem_of_dom, elem_of_list_to_set.
  unfold keys_of. rewrite list_elem_of_bind. split.
  - intros [v Hv]. destruct (Hout key v Hv) as (name & arr & stats & k & Hs & Hst & Hk & ->).
    exists name. split.
    + apply list_elem_of_fmap. exists k. split; [done|].
      rewrite <- (KeyProofs.extract_basic_stats_names _ _ _ _ Hst).
      apply list_elem_of_fmap. by exists (k, v).
    + apply elem_of_elements, elem_of_dom. eauto.
  - intros (name & Hkey & Hname).
    apply list_elem_of_fmap in Hkey as (k & -> & Hk).
    apply elem_of_elements, elem_of_dom in Hname as [arr Harr].
    destruct (FeatureProofs.extract_basic_stats_nonempty stats_skew stats_kurtosis arr)
      as [stats Hst]; [by eapply feature_vector_channels_nonempty|].
    rewrite <- (KeyProofs.extract_basic_stats_names _ _ _ _ Hst) in Hk.
    apply list_elem_of_fmap in Hk as ([k' v] & -> & Hkv).
    exists v. by apply (Hin name arr stats).
Qed.

Lemma feature_vector_size (signals : gmap string (list float)) feats :
  signals_to_feature_vector signals = Ok feats -> size feats = 7 * size signals.
Proof.
  intros Hf.
  rewrite <- !size_dom, (feature_vector_dom _ _ Hf), size_list_to_set
    by apply keys_of_NoDup, NoDup_elements.
  by rewrite keys_of_length.
Qed.

Lemma feature_vector_key (signals : gmap string (list float)) feats key :
  signals_to_feature_vector signals = Ok feats ->
  is_Some (feats !! key) <->
  exists name k, is_Some (signals !! name) /\ k ∈ stat_names /\ key = feature_key name k.
Proof.
  intros Hf. rewrite <- elem_of_dom, (feature_vector_dom _ _ Hf), elem_of_list_to_set.
  unfold keys_of. rewrite list_elem_of_bind. split.
  - intros (name & Hkey & Hname). apply list_elem_of_fmap in Hkey as (k & -> & Hk).
    apply elem_of_elements, elem_of_dom in Hname. by exists name, k.
  - intros (name & k & Hname & Hk & ->). exists name. split.
    + apply list_elem_of_fmap. by exists k.
    + by apply elem_of_elements, elem_of_dom.
Qed.

(** X12. The key set of a feature vector is fixed by the channel names:
    its keys are the [<channel>_<statistic>] of the channels of the mapping
    and of the seven statistics, seven distinct keys per channel, whatever
    the samples. Two keys are equal only for the same channel and the same
    statistic, also when channel names have underscores. *)
Theorem feature_keys_fixed_by_channels (signals : gmap string (list float)) feats :
  signals_to_feature_vector signals = Ok feats ->
  dom feats = list_to_set (keys_of (elements (dom signals))) /\
  size feats = 7 * size signals /\
  (forall name name' k k', k ∈ stat_names -> k' ∈ stat_names ->
     feature_key name k = feature_key name' k' -> name = name' /\ k = k').
Proof.
  intros Hf. split; [by apply feature_vector_dom|]. split; [by apply feature_vector_size|].
  intros name name' k k'. apply KeyProofs.feature_key_inj.
Qed.

End WithSciPy.

(** ** Samples *)

Lemma extremes_sample :
  exists stats mx mn,
    extract_basic_stats Samples.flat Samples.flat [3.0; 1.0; 2.0]%float = Ok stats /\
    stats.*1 = stat_names /\
    (("max", mx) ∈ stats /\ mx ∈ [3.0; 1.0; 2.0]%float) /\
    (("min", mn) ∈ stats /\ mn ∈ [3.0; 1.0; 2.0]%float).
Proof. by apply (extremes_are_samples Samples.flat Samples.flat [3.0; 1.0; 2.0]%float). Defined.

Lemma number_of_windows_sample :
  exists X,
    windowed_features Samples.flat Samples.flat (Samples.ramp 250) 100 50 = Ok X /\
    Z.of_nat (List.length X) = ((Z.of_nat (List.length (Samples.ramp 250)) - 100) / 50 + 1)%Z.
Proof.
  apply (number_of_windows Samples.flat Samples.flat (Samples.ramp 250) 100 50);
    [lia|lia|vm_compute; discriminate].
Defined.

Lemma bad_parameters_sample :
  windowed_features Samples.flat Samples.flat (Samples.ramp 4) 2 0 = Raise ValueError /\
  windowed_features Samples.flat Samples.flat (Samples.ramp 4) 0 1 = Raise ValueError /\
  windowed_features Samples.flat Samples.flat (Samples.ramp 4) 2 (-1) = Ok [].
Proof.
  destruct (windowed_features_bad_parameters Samples.flat Samples.flat (Samples.ramp 4))
    as (Hzero & Hwin & Hneg).
  split; [apply Hzero|]. split; [apply Hwin; lia|]. apply Hneg; [lia|]. vm_compute. discriminate.
Defined.

Lemma feature_keys_sample :
  exists feats,
    signals_to_feature_vector Samples.flat Samples.flat Samples.large_signal = Ok feats /\
    dom feats = list_to_set (keys_of (elements (dom Samples.large_signal))) /\
    size feats = 7 * size Samples.large_signal.
Proof.
  destruct (FeatureProofs.signals_to_feature_vector_Ok Samples.flat Samples.flat
              Samples.large_signal) as [feats Hf].
  { intros name arr Hin. destruct (decide (name = "GPIO34")) as [->|Hne].
    - vm_compute in Hin. injection Hin as <-. discriminate.
    - unfold Samples.large_signal in Hin. by rewrite lookup_singleton_ne in Hin. }
  exists feats. split; [exact Hf|].
  destruct (feature_keys_fixed_by_channels Samples.flat Samples.flat _ _ Hf) as (Hd & Hs & _).
  by split.
Defined.

End FeatureMore.

(* ===================================================================== *)
(** * More on the sanitising caller *)
(* ===================================================================== *)

Module PredictMore.
Import Py Features Predict.

(** ** Cleaning *)

Lemma sanitize_value_idem (v : float) : sanitize_value (sanitize_value v) = sanitize_value v.
Proof.
  apply PredictProofs.sanitize_value_of_finite, PredictProofs.sanitize_value_finite.
Qed.

Lemma nan_to_num_idem (arr : list float) : nan_to_num (nan_to_num arr) = nan_to_num arr.
Proof.
  unfold nan_to_num. rewrite <- list_fmap_compose. apply list_fmap_ext.
  intros i v _. apply sanitize_value_idem.
Qed.

(** X13. [sanitize_json] keeps the keys of a dictionary, changes nothing
    in a dictionary whose values are all finite, and does nothing more when
    it is applied a second time. *)
Theorem sanitize_json_stable (d : gmap string float) :
  dom (sanitize_json d) = dom d /\
  sanitize_json (sanitize_json d) = sanitize_json d /\
  ((forall k v, d !! k = Some v -> Np.is_finite v = true) -> sanitize_json d = d).
Proof.
  split; [|split].
  - apply set_eq. intros k. rewrite !elem_of_dom, PredictProofs.sanitize_json_lookup.
    by rewrite fmap_is_Some.
  - apply map_eq. intros k. rewrite !PredictProofs.sanitize_json_lookup.
    destruct (d !! k); [|done]. cbn. by rewrite sanitize_value_idem.
  - intros Hfin. apply map_eq. intros k. rewrite PredictProofs.sanitize_json_lookup.
    destruct (d !! k) as [v|] eqn:Hk; [|done]. cbn.
    by rewrite PredictProofs.sanitize_value_of_finite by by eapply Hfin.
Qed.

Lemma sanitize_json_stable_sample :
  sanitize_json {[ "a_mean" := 1.5%float; "a_rms" := 2.5%float ]}
  = {[ "a_mean" := 1.5%float; "a_rms" := 2.5%float ]}.
Proof.
  apply sanitize_json_stable. intros k v Hk.
  destruct (decide (k = "a_mean")) as [->|Hne1].
  - vm_compute in Hk. injection Hk as <-. reflexivity.
  - rewrite lookup_insert_ne in Hk by done.
    destruct (decide (k = "a_rms")) as [->|Hne2].
    + rewrite lookup_singleton_eq in Hk. injection Hk as <-. reflexivity.
    + by rewrite lookup_singleton_ne in Hk.
Defined.

(** ** The channels the script reads *)

Lemma select_signals_skip (u : gmap string (list float)) (items : list (string * string)) name :
  forall acc : gmap string (list float),
  name ∉ items.*2 -> select_signals u items acc !! name = acc !! name.
Proof.
  induction items as [|[k alias] rest IH]; intros acc Hnin; [done|].
  cbn in Hnin. rewrite not_elem_of_cons in Hnin. destruct Hnin as [Hne Hnin].
  cbn [select_signals]. destruct (u !! k) as [arr|]; [|by apply IH].
  destruct (0 <? List.length arr); [|by apply IH].
  rewrite IH by done. by rewrite lookup_insert_ne.
Qed.

(** The signals the script hands to the extractor. *)
Lemma selected_signals (u : gmap string (list float)) name :
  select_signals u signal_map ∅ !! name =
  if decide (name ∈ ["GPIO34"; "GPIO35"; "GPIO33"]) then usable u name else None.
Proof.
  assert (Hstep : forall k rest (acc : gmap string (list float)),
    k ∉ rest.*2 ->
    select_signals u ((k, k) :: rest) acc !! k =
    match usable u k with Some a => Some a | None => acc !! k end).
  { intros k rest acc Hnin. cbn [select_signals]. unfold usable.
    destruct (u !! k) as [arr|]; [|by apply select_signals_skip].
    destruct (0 <? List.length arr); [|by apply select_signals_skip].
    rewrite select_signals_skip by done. by rewrite lookup_insert_eq. }
  assert (Hother : forall k rest (acc : gmap string (list float)),
    k <> name ->
    exists acc', select_signals u ((k, k) :: rest) acc = select_signals u rest acc' /\
                 acc' !! name = acc !! name).
  { intros k rest acc Hne. cbn [select_signals].
    destruct (u !! k) as [arr|]; [|by exists acc].
    destruct (0 <? List.length arr); [|by exists acc].
    eexists. split; [done|]. by rewrite lookup_insert_ne. }
  unfold signal_map.
  destruct (decide (name = "GPIO34")) as [->|H34].
  { rewrite Hstep by by_evaluation. rewrite decide_True by by_evaluation.
    by destruct (usable u "GPIO34"). }
  destruct (Hother "GPIO34" [("GPIO35", "GPIO35"); ("GPIO33", "GPIO33")] ∅)
    as (acc1 & -> & Hacc1); [done|].
  destruct (decide (name = "GPIO35")) as [->|H35].
  { rewrite Hstep by by_evaluation. rewrite decide_True by by_evaluation.
    rewrite Hacc1, lookup_empty. by destruct (usable u "GPIO35"). }
  destruct (Hother "GPIO35" [("GPIO33", "GPIO33")] acc1) as (acc2 & -> & Hacc2); [done|].
  destruct (decide (name = "GPIO33")) as [->|H33].
  { rewrite Hstep by by_evaluation. rewrite decide_True by by_evaluation.
    rewrite Hacc2, Hacc1, lookup_empty. by destruct (usable u "GPIO33"). }
  destruct (Hother "GPIO33" [] acc2) as (acc3 & -> & Hacc3); [done|].
  cbn [select_signals]. rewrite Hacc3, Hacc2, Hacc1, lookup_empty.
  rewrite decide_False; [done|]. rewrite !elem_of_cons, elem_of_nil. tauto.
Qed.

Section WithSciPy.

Variables stats_skew stats_kurtosis : list float -> float.

Local Abbreviation predict_features := (predict_features stats_skew stats_kurtosis).

(** X14. The outcomes of the script: it stops with [RuntimeError] exactly
    when each of the channels GPIO34, GPIO35 and GPIO33 is missing or
    empty; otherwise it returns features, all of them finite, seven for
    each of these channels that has samples. It raises nothing else. *)
Theorem predict_features_outcomes (u : gmap string (list float)) :
  (predict_features u = Raise RuntimeError <->
   forall name, name ∈ ["GPIO34"; "GPIO35"; "GPIO33"] -> usable u name = None) /\
  (predict_features u = Raise RuntimeError \/
   exists feats,
     predict_features u = Ok feats /\
     (forall k v, feats !! k = Some v -> Np.is_finite v = true) /\
     (forall key, is_Some (feats !! key) <->
        exists name k, name ∈ ["GPIO34"; "GPIO35"; "GPIO33"] /\
          is_Some (usable u name) /\ k ∈ stat_names /\ key = feature_key name k)).
Proof.
  assert (Hempty : select_signals u signal_map ∅ = ∅ <->
    forall name, name ∈ ["GPIO34"; "GPIO35"; "GPIO33"] -> usable u name = None).
  { split.
    - intros He name Hin. pose proof (selected_signals u name) as Hs.
      rewrite He, lookup_empty, decide_True in Hs by done. done.
    - intros Hnone. apply map_eq. intros name. rewrite selected_signals, lookup_empty.
      case_decide; [by apply Hnone|done]. }
  unfold Predict.predict_features.
  destruct (decide (select_signals u signal_map ∅ = ∅)) as [He|Hne].
  - split; [|by left]. split; [by intros _; apply Hempty|done].
  - destruct (FeatureProofs.signals_to_feature_vector_Ok stats_skew stats_kurtosis
                (select_signals u signal_map ∅)) as [feats Hf].
    { apply PredictProofs.select_signals_nonempty. intros name arr.
      by rewrite lookup_empty. }
    rewrite Hf. cbn [mbind result_bind]. split.
    + split; [done|]. intros Hnone. by apply Hempty in Hnone.
    + right. exists (sanitize_json feats). split; [done|].
      split; [apply PredictProofs.sanitize_json_finite|].
      intros key. rewrite PredictProofs.sanitize_json_lookup, fmap_is_Some.
      rewrite (FeatureMore.feature_vector_key _ _ _ _ _ Hf).
      split.
      * intros (name & k & Hname & Hk & ->). exists name, k.
        rewrite selected_signals in Hname. case_decide; [done|by destruct Hname].
      * intros (name & k & Hin & Hus & Hk & ->). exists name, k.
        by rewrite selected_signals, decide_True.
Qed.

(** X15. The script reads the three channels GPIO34, GPIO35 and GPIO33 and
    nothing else of the frame, and it reads a sample that is not finite as
    a zero: two frames that agree on the three channels give the same
    result, and so does a frame and the frame with every sample that is
    not-a-number or infinite replaced by [0.0]. *)
Theorem predict_features_reads (u u' : gmap string (list float)) :
  ((forall name, name ∈ ["GPIO34"; "GPIO35"; "GPIO33"] -> u !! name = u' !! name) ->
   predict_features u = predict_features u') /\
  predict_features (nan_to_num <$> u) = predict_features u.
Proof.
  assert (Hsel : forall v v' : gmap string (list float),
    (forall name, name ∈ ["GPIO34"; "GPIO35"; "GPIO33"] -> usable v name = usable v' name) ->
    select_signals v signal_map ∅ = select_signals v' signal_map ∅).
  { intros v v' Hus. apply map_eq. intros name. rewrite !selected_signals.
    case_decide; [by apply Hus|done]. }
  split.
  - intros Hagree. unfold Predict.predict_features. rewrite (Hsel u u'); [done|].
    intros name Hin. unfold usable. by rewrite Hagree.
  - unfold Predict.predict_features. rewrite (Hsel (nan_to_num <$> u) u); [done|].
    intros name _. unfold usable. rewrite lookup_fmap.
    destruct (u !! name) as [arr|]; [|done]. cbn.
    unfold nan_to_num at 1. rewrite length_fmap. fold (nan_to_num arr).
    by rewrite nan_to_num_idem.
Qed.

End WithSciPy.

Lemma predict_features_reads_sample :
  Predict.predict_features Samples.flat Samples.flat
    {[ "GPIO34" := [1.0; 2.0]%float; "GPIO26" := [0.0]%float ]}
  = Predict.predict_features Samples.flat Samples.flat {[ "GPIO34" := [1.0; 2.0]%float ]}.
Proof.
  apply (proj1 (predict_features_reads Samples.flat Samples.flat
                  {[ "GPIO34" := [1.0; 2.0]%float; "GPIO26" := [0.0]%float ]}
                  {[ "GPIO34" := [1.0; 2.0]%float ]})).
  intros name Hin.
  apply elem_of_cons in Hin as [->|Hin]; [reflexivity|].
  apply elem_of_cons in Hin as [->|Hin]; [reflexivity|].
  apply elem_of_cons in Hin as [->|Hin]; [reflexivity|].
  by apply elem_of_nil in Hin.
Defined.

End PredictMore.

(* ===================================================================== *)
(** * The prediction service *)
(* ===================================================================== *)

Module ServeMore.
Import Py ServeModel.

(** X16. With a model that names its features, the row handed to the
    model has one entry per name of the model, in the order of the model:
    the value of the payload under the name, and [0] for a name the payload
    lacks. Keys of the payload that the model does not name play no part:
    two payloads that agree on the names of the model get the same answer. *)
Theorem predict_reads_model_features (names : list string)
    (model_predict : list float -> Z) (model_predict_proba : list float -> list float)
    (feat : gmap string float) :
  List.length (feature_row (Some names) feat) = List.length names /\
  (forall i k, names !! i = Some k ->
     feature_row (Some names) feat !! i = Some (default zero (feat !! k))) /\
  (forall feat' : gmap string float,
     (forall k, k ∈ names -> feat' !! k = feat !! k) ->
     predict (Some names) model_predict model_predict_proba feat'
     = predict (Some names) model_predict model_predict_proba feat).
Proof.
  unfold predict, feature_row, feature_order. split; [by rewrite length_fmap|]. split.
  - intros i k Hk. by rewrite list_lookup_fmap, Hk.
  - intros feat' Hag.
    assert (Hrow : (fun k => default zero (feat' !! k)) <$> names
                   = (fun k => default zero (feat !! k)) <$> names).
    { apply list_fmap_ext. intros i k Hk. rewrite Hag; [done|].
      by eapply list_elem_of_lookup_2. }
    by rewrite Hrow.
Qed.

Lemma feature_order_fallback (feat : gmap string float) :
  Sorted String.le (feature_order None feat) /\
  NoDup (feature_order None feat) /\
  (forall k, k ∈ feature_order None feat <-> is_Some (feat !! k)).
Proof.
  unfold feature_order, py_sorted. split; [apply Sorted_merge_sort, _|]. split.
  - rewrite merge_sort_Permutation. apply NoDup_fst_map_to_list.
  - intros k. rewrite merge_sort_Permutation, list_elem_of_fmap. split.
    + intros ([k' v] & -> & Hin). apply elem_of_map_to_list in Hin. eauto.
    + intros [v Hv]. exists (k, v). split; [done|]. by apply elem_of_map_to_list.
Qed.

(** X17. With a model that does not name its features, the row holds the
    values of the payload in the increasing order of its keys, each key
    once and no default: the row is as long as the payload has keys, so
    the place of a feature in the row depends on the other keys of the
    payload. *)
Theorem predict_without_names_sorts_payload (feat : gmap string float) :
  Sorted String.le (feature_order None feat) /\
  NoDup (feature_order None feat) /\
  (forall k, k ∈ feature_order None feat <-> is_Some (feat !! k)) /\
  List.length (feature_row None feat) = size feat /\
  (forall i k, feature_order None feat !! i = Some k ->
     exists v, feat !! k = Some v /\ feature_row None feat !! i = Some v).
Proof.
  destruct (feature_order_fallback feat) as (Hsorted & Hnodup & Hkeys).
  split; [done|]. split; [done|]. split; [done|]. split.
  - unfold feature_row, feature_order, py_sorted.
    by rewrite length_fmap, merge_sort_Permutation, length_fmap, length_map_to_list.
  - intros i k Hk. assert (Hin : k ∈ feature_order None feat)
      by by eapply list_elem_of_lookup_2.
    apply Hkeys in Hin as [v Hv]. exists v. split; [done|].
    unfold feature_row. rewrite list_lookup_fmap, Hk. cbn. by rewrite Hv.
Qed.

(** X18. The inference path, end to end: every entry of the row that the
    service builds from the features sent by [predict.py] is finite, with
    or without names in the model. *)
Theorem served_row_is_finite (stats_skew stats_kurtosis : list float -> float)
    (feature_names_in : option (list string))
    (u : gmap string (list float)) (feats : gmap string float) :
  Predict.predict_features stats_skew stats_kurtosis u = Ok feats ->
  Forall (fun x => Np.is_finite x = true) (feature_row feature_names_in feats).
Proof.
  intros Hf.
  assert (Hfin : forall k v, feats !! k = Some v -> Np.is_finite v = true).
  { destruct (PredictProofs.predict_features_finite stats_skew stats_kurtosis u)
      as [Hr|(feats' & Hf' & Hfin)]; [congruence|].
    rewrite Hf in Hf'. by injection Hf' as <-. }
  unfold feature_row. apply Forall_fmap, Forall_forall. intros k _. cbn.
  destruct (feats !! k) as [v|] eqn:Hk; [by eapply Hfin|reflexivity].
Qed.

Lemma served_row_is_finite_sample :
  exists feats,
    Predict.predict_features Samples.flat Samples.flat Samples.large_signal = Ok feats /\
    Forall (fun x => Np.is_finite x = true)
      (feature_row (Some ["GPIO34_rms"; "GPIO35_rms"]) feats).
Proof.
  eexists. split; [vm_compute; reflexivity|].
  apply (served_row_is_finite Samples.flat Samples.flat _ Samples.large_signal).
  vm_compute. reflexivity.
Defined.

End ServeMore.

(* ===================================================================== *)
(** * The dataset generator *)
(* ===================================================================== *)

Module DatasetMore.
Import Py SensorEmulator GenerateDataset.

(** ** The time axis and the two windows *)

Lemma time_axis_length : List.length time_axis = 100.
Proof. vm_compute. reflexivity. Qed.

(** No sample of the time axis lies in the window of the envelope spike. *)
Lemma piezo_window_empty :
  Forall (fun x => in_window 0.06 0.0605 x = false) time_axis.
Proof.
  apply Forall_forall. intros x Hx. apply list_elem_of_In in Hx.
  assert (Hall : forallb (fun x => negb (in_window 0.06 0.0605 x)) time_axis = true)
    by (vm_compute; reflexivity).
  rewrite forallb_forall in Hall. specialize (Hall x Hx). by apply negb_true_iff in Hall.
Qed.

Lemma add_where_outside (lo hi v : float) (t : list float) : forall a : list float,
  Forall (fun x => in_window lo hi x = false) t ->
  List.length a = List.length t ->
  add_where lo hi v t a = a.
Proof.
  induction t as [|x t IH]; intros [|y a] Hout Hlen; try done.
  inversion Hout as [|? ? Hx Ht]; subst. unfold add_where in *. cbn [zip_with].
  rewrite Hx. f_equal. apply IH; [done|]. cbn in Hlen. lia.
Qed.

Section WithLibraries.

Variable np_sin : float -> float.
Variables stats_skew stats_kurtosis : list float -> float.

Local Abbreviation emulate_zmpt := (GenerateDataset.emulate_zmpt np_sin).
Local Abbreviation emulate_acs := (GenerateDataset.emulate_acs np_sin).
Local Abbreviation sample_signals := (sample_signals np_sin).
Local Abbreviation make_sample := (make_sample np_sin stats_skew stats_kurtosis).
Local Abbreviation sample_loop := (sample_loop np_sin stats_skew stats_kurtosis).
Local Abbreviation generate_csv := (generate_csv np_sin stats_skew stats_kurtosis).

(** ** The three generators *)

Lemma emulate_zmpt_shape g :
  List.length (emulate_zmpt g).1 = 100 /\ after_draws 100 g (emulate_zmpt g).2.
Proof.
  unfold GenerateDataset.emulate_zmpt. rewrite time_axis_length.
  pose proof (EmulatorProofs.randn_draws 100 g) as [_ Hd].
  pose proof (EmulatorProofs.randn_length 100 g) as Hn.
  destruct (Np.randn 100 g) as [noise g']. cbn [fst snd] in *.
  split; [|done]. rewrite length_zip_with, length_fmap, time_axis_length. lia.
Qed.

Lemma emulate_acs_shape fault g :
  List.length (emulate_acs fault g).1 = 100 /\ after_draws 100 g (emulate_acs fault g).2.
Proof.
  unfold GenerateDataset.emulate_acs. rewrite time_axis_length.
  pose proof (EmulatorProofs.randn_draws 100 g) as [_ Hd].
  pose proof (EmulatorProofs.randn_length 100 g) as Hn.
  destruct (Np.randn 100 g) as [noise g']. cbn [fst snd] in *.
  split; [|done]. unfold set_where, Np.zeros_like.
  destruct fault; rewrite !length_zip_with, !length_fmap, time_axis_length; lia.
Qed.

Lemma emulate_piezo_no_spike g : emulate_piezo true g = emulate_piezo false g.
Proof.
  unfold emulate_piezo. rewrite time_axis_length.
  pose proof (EmulatorProofs.randn_length 100 g) as Hn.
  destruct (Np.randn 100 g) as [noise g']. cbn [fst] in Hn.
  rewrite add_where_outside; [done|apply piezo_window_empty|].
  by rewrite length_fmap, time_axis_length.
Qed.

Lemma emulate_piezo_shape spike g :
  List.length (emulate_piezo spike g).1 = 100 /\ after_draws 100 g (emulate_piezo spike g).2.
Proof.
  assert (Hfalse : List.length (emulate_piezo false g).1 = 100 /\
                   after_draws 100 g (emulate_piezo false g).2).
  { unfold emulate_piezo. rewrite time_axis_length.
    pose proof (EmulatorProofs.randn_draws 100 g) as [_ Hd].
    pose proof (EmulatorProofs.randn_length 100 g) as Hn.
    destruct (Np.randn 100 g) as [noise g']. cbn [fst snd] in *.
    split; [|done]. by rewrite length_fmap. }
  destruct spike; [by rewrite emulate_piezo_no_spike|done].
Qed.

(** ** One sample *)

Lemma sample_signals_shape fault g :
  exists v i p g',
    sample_signals fault g
    = (<["GPIO33" := p]> (<["GPIO35" := i]> (<["GPIO34" := v]> ∅)), g') /\
    List.length v = 100 /\ List.length i = 100 /\ List.length p = 100 /\
    after_draws 300 g g'.
Proof.
  unfold GenerateDataset.sample_signals.
  destruct (emulate_zmpt_shape g) as [Hv Hg1].
  destruct (emulate_zmpt g) as [v g1]. cbn [fst snd] in *.
  set (af := match fault with Some f => String.eqb f "acs" | None => false end).
  set (pf := match fault with
             | Some f => negb (String.eqb f "acs") && String.eqb f "piezo"
             | None => false
             end).
  destruct (emulate_acs_shape af g1) as [Hi Hg2].
  destruct (GenerateDataset.emulate_acs np_sin af g1) as [i g2]. cbn [fst snd] in *.
  destruct (emulate_piezo_shape pf g2) as [Hp Hg3].
  destruct (emulate_piezo pf g2) as [p g3]. cbn [fst snd] in *.
  exists v, i, p, g3. split; [done|]. split; [done|]. split; [done|]. split; [done|].
  change 300 with (100 + 100 + 100).
  by repeat eapply EmulatorProofs.after_draws_add.
Qed.

Lemma sample_channels (v i p : list float) name :
  is_Some ((<["GPIO33" := p]> (<["GPIO35" := i]> (<["GPIO34" := v]> ∅))
            : gmap string (list float)) !! name)
  <-> name ∈ ["GPIO34"; "GPIO35"; "GPIO33"].
Proof.
  rewrite !lookup_insert_is_Some, lookup_empty, !elem_of_cons, elem_of_nil.
  split.
  - intros [->|[_ [->|[_ [->|[_ []%is_Some_None]]]]]]; tauto.
  - intros [->|[->|[->|[]]]].
    + right. split; [done|]. right. split; [done|]. by left.
    + right. split; [done|]. by left.
    + by left.
Qed.

(** What a row of the dataset is made of. *)
Definition sample_row_of (label : Z) (row : gmap string cell) : Prop :=
  row !! "label" = Some (Label label) /\
  (forall key, key <> "label" ->
     (is_Some (row !! key) <-> key ∈ Features.keys_of ["GPIO34"; "GPIO35"; "GPIO33"])) /\
  (forall key c, key <> "label" -> row !! key = Some c -> exists x, c = Feature x) /\
  size row = 22.

Lemma label_is_no_feature_key name k :
  k ∈ Features.stat_names -> Features.feature_key name k <> "label".
Proof.
  intros Hk Heq. apply (f_equal Features.split_last) in Heq.
  rewrite KeyProofs.split_last_key in Heq by by apply KeyProofs.stat_names_plain.
  done.
Qed.

Lemma make_sample_spec fault g :
  exists signals feats g',
    sample_signals fault g = (signals, g') /\
    Features.signals_to_feature_vector stats_skew stats_kurtosis signals = Ok feats /\
    make_sample fault g = Ok (<["label" := Label (label_of fault)]> (Feature <$> feats), g') /\
    sample_row_of (label_of fault) (<["label" := Label (label_of fault)]> (Feature <$> feats)) /\
    after_draws 300 g g'.
Proof.
  destruct (sample_signals_shape fault g) as (v & i & p & g' & Hs & Hv & Hi & Hp & Hd).
  destruct (FeatureProofs.signals_to_feature_vector_Ok stats_skew stats_kurtosis
              (<["GPIO33" := p]> (<["GPIO35" := i]> (<["GPIO34" := v]> ∅))))
    as [feats Hf].
  { clear Hs. intros name arr Hin Hnil. subst arr.
    rewrite !lookup_insert_Some, lookup_empty in Hin.
    destruct Hin as [[_ E]|[_ [[_ E]|[_ [[_ E]|[_ E]]]]]]; [subst; discriminate..|done]. }
  assert (Hm : make_sample fault g
               = Ok (<["label" := Label (label_of fault)]> (Feature <$> feats), g')).
  { unfold GenerateDataset.make_sample. rewrite Hs, Hf. reflexivity. }
  eexists _, feats, g'. split; [exact Hs|]. split; [exact Hf|]. split; [exact Hm|].
  clear Hs Hm. split; [|exact Hd].
  assert (Hnolabel : feats !! "label" = None).
  { apply eq_None_not_Some. intros Hl.
    apply (FeatureMore.feature_vector_key _ _ _ _ _ Hf) in Hl
      as (name & k & _ & Hk & Heq).
    symmetry in Heq. by apply label_is_no_feature_key in Heq. }
  split; [by rewrite lookup_insert_eq|]. split; [|split].
  - intros key Hne. rewrite lookup_insert_ne, lookup_fmap, fmap_is_Some by done.
    rewrite (FeatureMore.feature_vector_key _ _ _ _ _ Hf).
    unfold Features.keys_of. rewrite list_elem_of_bind. clear Hne. split.
    + intros (name & k & Hname & Hk & ->). exists name. split.
      * apply list_elem_of_fmap. exists k. split; [reflexivity|exact Hk].
      * apply sample_channels in Hname. exact Hname.
    + intros (name & Hkey & Hname). apply list_elem_of_fmap in Hkey as (k & -> & Hk).
      exists name, k. split; [apply sample_channels; exact Hname|].
      split; [exact Hk|reflexivity].
  - intros key c Hne. rewrite lookup_insert_ne, lookup_fmap by done.
    destruct (feats !! key) as [x|]; [|done]. intros [= <-]. by exists x.
  - rewrite map_size_insert_None by (by rewrite lookup_fmap, Hnolabel).
    rewrite map_size_fmap, (FeatureMore.feature_vector_size _ _ _ _ Hf).
    rewrite !map_size_insert_None, map_size_empty; [reflexivity|..].
    + apply lookup_empty.
    + by rewrite lookup_insert_ne.
    + by rewrite !lookup_insert_ne.
Qed.

(** X19. [make_sample] returns a row for every fault and every state of
    the generator: the label of the fault ([1] for ["acs"], [2] for
    ["piezo"], [0] otherwise) under [label], the seven statistics of each
    of GPIO34, GPIO35 and GPIO33, and nothing else, 22 entries in all. It
    takes 300 draws, 100 for each signal. *)
Theorem make_sample_row (fault : option string) (g : Np.rng) :
  exists row g',
    make_sample fault g = Ok (row, g') /\
    row !! "label" = Some (Label (label_of fault)) /\
    (forall key, key <> "label" ->
       (is_Some (row !! key) <-> key ∈ Features.keys_of ["GPIO34"; "GPIO35"; "GPIO33"])) /\
    (forall key c, key <> "label" -> row !! key = Some c -> exists x, c = Feature x) /\
    size row = 22 /\
    after_draws 300 g g'.
Proof.
  destruct (make_sample_spec fault g) as (signals & feats & g' & _ & _ & Hm & Hrow & Hd).
  destruct Hrow as (Hl & Hk & Hc & Hsz). eexists _, g'.
  split; [exact Hm|]. split; [exact Hl|]. split; [exact Hk|]. split; [exact Hc|].
  split; [exact Hsz|exact Hd].
Qed.

(** X20. The spike of the envelope signal falls between two samples: no
    sample of the time axis [np.linspace(0, 0.1, 100)] lies in the window
    [(0.06, 0.0605)], so [emulate_piezo(spike=True)] returns what
    [emulate_piezo(spike=False)] returns, and a sample made for the fault
    ["piezo"] is the sample made for no fault from the same draws, but for
    its label. *)
Theorem piezo_fault_sample_is_normal (g : Np.rng) :
  emulate_piezo true g = emulate_piezo false g /\
  exists feats g',
    make_sample None g = Ok (<["label" := Label 0]> (Feature <$> feats), g') /\
    make_sample (Some "piezo") g = Ok (<["label" := Label 2]> (Feature <$> feats), g').
Proof.
  split; [apply emulate_piezo_no_spike|].
  destruct (make_sample_spec None g) as (signals & feats & g' & Hs & Hf & Hm & _).
  exists feats, g'. split; [exact Hm|].
  unfold GenerateDataset.make_sample.
  assert (Hs' : sample_signals (Some "piezo") g = sample_signals None g).
  { unfold GenerateDataset.sample_signals.
    destruct (emulate_zmpt g) as [v g1].
    change (String.eqb "piezo" "acs") with false.
    change (negb false && String.eqb "piezo" "piezo") with true.
    destruct (GenerateDataset.emulate_acs np_sin false g1) as [i g2].
    rewrite emulate_piezo_no_spike. reflexivity. }
  rewrite Hs', Hs, Hf. reflexivity.
Qed.

(** ** The dataset *)

Lemma sample_loop_spec fault (n : nat) : forall rows g,
  exists new g',
    sample_loop fault n rows g = Ok (rows ++ new, g') /\
    List.length new = n /\
    Forall (sample_row_of (label_of fault)) new /\
    after_draws (300 * n) g g'.
Proof.
  induction n as [|n IH]; intros rows g.
  - exists [], g. rewrite app_nil_r. split; [done|]. split; [done|]. split; [done|].
    apply EmulatorProofs.after_draws_0.
  - destruct (make_sample_spec fault g) as (signals & feats & g1 & _ & _ & Hm & Hrow & Hd).
    cbn [GenerateDataset.sample_loop]. rewrite Hm. cbn [mbind result_bind].
    destruct (IH (rows ++ [<["label" := Label (label_of fault)]> (Feature <$> feats)]) g1)
      as (new & g' & Hloop & Hlen & Hall & Hd').
    eexists (_ :: new), g'. split; [rewrite Hloop, <- app_assoc; reflexivity|].
    split; [rewrite <- Hlen; reflexivity|]. split; [constructor; [exact Hrow|exact Hall]|].
    replace (300 * S n) with (300 + 300 * n) by lia.
    by eapply EmulatorProofs.after_draws_add.
Qed.

(** X21. [generate_csv] writes [n_norm + n_acs + n_piezo] rows, a negative
    count standing for none: first the rows of label [0], then those of
    label [1], then those of label [2]; every row has the 22 entries of a
    sample, and the whole takes 300 draws for each row. *)
Theorem generate_csv_rows (n_norm n_acs n_piezo : Z) (g : Np.rng) :
  exists rows g',
    generate_csv n_norm n_acs n_piezo g = Ok (rows, g') /\
    (fun row => row !! "label") <$> rows
    = replicate (Z.to_nat n_norm) (Some (Label 0))
      ++ replicate (Z.to_nat n_acs) (Some (Label 1))
      ++ replicate (Z.to_nat n_piezo) (Some (Label 2)) /\
    List.length rows = Z.to_nat n_norm + Z.to_nat n_acs + Z.to_nat n_piezo /\
    Forall (fun row => size row = 22) rows /\
    after_draws (300 * (Z.to_nat n_norm + Z.to_nat n_acs + Z.to_nat n_piezo)) g g'.
Proof.
  unfold GenerateDataset.generate_csv.
  destruct (sample_loop_spec None (Z.to_nat n_norm) [] g)
    as (r0 & g0 & -> & Hl0 & Ha0 & Hd0). cbn [mbind result_bind app].
  destruct (sample_loop_spec (Some "acs") (Z.to_nat n_acs) r0 g0)
    as (r1 & g1 & -> & Hl1 & Ha1 & Hd1). cbn [mbind result_bind].
  destruct (sample_loop_spec (Some "piezo") (Z.to_nat n_piezo) (r0 ++ r1) g1)
    as (r2 & g2 & -> & Hl2 & Ha2 & Hd2).
  assert (Hlabels : forall l (rs : list (gmap string cell)),
    Forall (sample_row_of l) rs ->
    (fun row => row !! "label") <$> rs = replicate (List.length rs) (Some (Label l))).
  { intros l rs Hall. induction Hall as [|row rs Hrow _ IH]; [done|].
    cbn. rewrite IH. by destruct Hrow as [-> _]. }
  assert (Hsize : forall l (rs : list (gmap string cell)),
    Forall (sample_row_of l) rs -> Forall (fun row => size row = 22) rs).
  { intros l rs Hall. eapply Forall_impl; [exact Hall|].
    intros row (_ & _ & _ & Hsz). exact Hsz. }
  exists ((r0 ++ r1) ++ r2), g2. split; [done|]. split; [|split; [|split]].
  - rewrite !fmap_app, (Hlabels _ _ Ha0), (Hlabels _ _ Ha1), (Hlabels _ _ Ha2).
    rewrite Hl0, Hl1, Hl2, <- app_assoc. reflexivity.
  - rewrite !length_app. lia.
  - rewrite !Forall_app. split; [split|];
      [exact (Hsize _ _ Ha0)|exact (Hsize _ _ Ha1)|exact (Hsize _ _ Ha2)].
  - replace (300 * (Z.to_nat n_norm + Z.to_nat n_acs + Z.to_nat n_piezo))
      with (300 * Z.to_nat n_norm + 300 * Z.to_nat n_acs + 300 * Z.to_nat n_piezo) by lia.
    eapply EmulatorProofs.after_draws_add; [|exact Hd2].
    eapply EmulatorProofs.after_draws_add; [exact Hd0|exact Hd1].
Qed.

End WithLibraries.

End DatasetMore.
